(** * Retrieval pipeline of agentic-rag-demo: chunking, embedding, vector index

    A shallow embedding of
      - [agentic_rag/text_processing.py]        ([detect_file_type],
        [extract_text], [chunk_text], [_find_break_point]),
      - [agentic_rag/tools/embeddings_client.py] ([generate_embedding_vector],
        [generate_embeddings_batch]),
      - [agentic_rag/tools/vector_search.py]    ([store_document_vectors],
        [delete_document_vectors], [search_knowledge_base]),
      - [agentic_rag/tools/document_manager.py] ([upload_document],
        [delete_document] and the keys of the objects),
    together with the properties of these functions.

    Conventions.  A Python [str] is a list of Unicode code points, a Python
    [int] is a [Z], and a Python [float] is the rational [Q] it denotes.
    Where floats decide what the code does, in the similarity and the tier of
    a search result, their arithmetic is rounded to binary64 ([Float64]);
    the waits of the embeddings client are taken exactly.  Logging calls are
    dropped.  Remote
    services (Bedrock, S3 Vectors), the random source and [time.sleep] are
    explicit: the answers of a service are given by an oracle indexed by the
    number of the call, and every call and every wait is recorded in a state
    that is passed along. *)

From Stdlib Require Import ZArith QArith Qminmax Qround Qabs Qpower Lia Lqa String Ascii Strings.Byte DecimalString DecimalPos DecimalZ.
From stdpp Require Import base list gmap.

Local Open Scope Z_scope.

(** ** Python built-ins used by the code *)

Module Py.

(** A character is a code point; [len] is Python's [len]. *)
Definition char := N.
Definition str := list char.

Definition len {A} (s : list A) : Z := Z.of_nat (length s).

(** A literal: the code points of an ASCII string. *)
Definition lit (s : string) : str := map N_of_ascii (list_ascii_of_string s).

(** [s[a:b]]: a negative bound counts from the end, and both bounds are
    clamped to [0, len s]; the slice is empty when the bounds cross. *)
Definition adjust_index (n i : Z) : Z :=
  if i <? 0 then Z.max (i + n) 0 else Z.min i n.

Definition slice {A} (s : list A) (a b : Z) : list A :=
  let a' := adjust_index (len s) a in
  let b' := adjust_index (len s) b in
  take (Z.to_nat (b' - a')) (drop (Z.to_nat a') s).

(** [str.isspace] on one code point: the characters [str.strip()] removes. *)
Definition is_space (c : char) : bool :=
  let c := Z.of_N c in
  ((9 <=? c) && (c <=? 13)) || ((28 <=? c) && (c <=? 32))
  || (c =? 133) || (c =? 160) || (c =? 5760)
  || ((8192 <=? c) && (c <=? 8202))
  || (c =? 8232) || (c =? 8233) || (c =? 8239) || (c =? 8287) || (c =? 12288).

Fixpoint lstrip (s : str) : str :=
  match s with
  | c :: s' => if is_space c then lstrip s' else s
  | [] => []
  end.

Definition rstrip (s : str) : str := reverse (lstrip (reverse s)).

(** [s.strip()] *)
Definition strip (s : str) : str := rstrip (lstrip s).

(** [startswith]: [sub] is a prefix of [s]. *)
Fixpoint startswith (s sub : str) {struct sub} : bool :=
  match sub with
  | [] => true
  | x :: sub' =>
      match s with
      | [] => false
      | c :: s' => (x =? c)%N && startswith s' sub'
      end
  end.

(** [s.rfind(sub)]: the highest index at which [sub] occurs in [s], or -1.
    [rfind_from i s sub] scans [s], whose first character has index [i]. *)
Fixpoint rfind_from (i : Z) (s sub : str) : Z :=
  match s with
  | [] => if startswith [] sub then i else -1
  | _ :: s' =>
      let r := rfind_from (i + 1) s' sub in
      if r =? -1 then (if startswith s sub then i else -1) else r
  end.

Definition rfind (s sub : str) : Z := rfind_from 0 s sub.

(** [str(i)] for an integer, in decimal. *)
Definition str_of_int (i : Z) : str :=
  lit (DecimalString.NilZero.string_of_int (Z.to_int i)).

End Py.

(** ** text_processing.py *)

Module TextProcessing.
Import Py.

(** [TextChunk]: a chunk of extracted text with position metadata. *)
Record TextChunk := mkTextChunk {
  text : str;
  index : Z;
  start_char : Z;
  end_char : Z
}.

(** The separators of [_find_break_point], in the order they are tried:
    a blank line, a newline, then the sentence terminators. *)
Definition separators : list str :=
  [ [10; 10]; [10]; lit ". "; lit "! "; lit "? "; lit "; " ]%N.

(** The [for separator in ...] loop: the first separator that [rfind] finds
    decides; [None] when the loop falls through. *)
Fixpoint try_separators (search_text : str) (search_start : Z)
    (seps : list str) : option Z :=
  match seps with
  | [] => None
  | separator :: rest =>
      let idx := rfind search_text separator in
      if negb (idx =? -1) then Some (search_start + idx + len separator)
      else try_separators search_text search_start rest
  end.

(** [_find_break_point(text, start, end)] *)
Definition _find_break_point (text : str) (start end_ : Z) : Z :=
  let search_start := Z.max (start + 1) (end_ - 200) in
  let search_text := slice text search_start end_ in
  match try_separators search_text search_start separators with
  | Some r => r
  | None =>
      let idx := rfind search_text (lit " ") in
      if negb (idx =? -1) then search_start + idx + 1 else end_
  end.

(** The end of the window that starts at [start]: the first four lines of
    the body of the [while] loop. *)
Definition window_end (text : str) (chunk_size start : Z) : Z :=
  let end_ := Z.min (start + chunk_size) (len text) in
  if end_ <? len text then _find_break_point text start end_ else end_.

(** The variables the [while] loop of [chunk_text] updates. *)
Record loop_state := mkLoop {
  chunks : list TextChunk;
  start : Z;
  next_index : Z
}.

(** One run of the body of the [while] loop. *)
Definition loop_body (text : str) (chunk_size chunk_overlap : Z)
    (st : loop_state) : loop_state :=
  let end_ := window_end text chunk_size (start st) in
  let chunk_text_content := strip (slice text (start st) end_) in
  let appended :=
    match chunk_text_content with
    | [] => (chunks st, next_index st)
    | _ :: _ =>
        (chunks st ++
           [mkTextChunk chunk_text_content (next_index st) (start st) end_],
         next_index st + 1)
    end in
  let next_start := end_ - chunk_overlap in
  let next_start := if next_start <=? start st then end_ else next_start in
  mkLoop appended.1 next_start appended.2.

(** [while start < len(text): ...], run for at most [fuel] iterations;
    [None] when the loop is still running after [fuel] iterations. *)
Fixpoint while_loop (fuel : nat) (text : str) (chunk_size chunk_overlap : Z)
    (st : loop_state) : option (list TextChunk) :=
  if start st <? len text then
    match fuel with
    | O => None
    | S fuel' =>
        while_loop fuel' text chunk_size chunk_overlap
          (loop_body text chunk_size chunk_overlap st)
    end
  else Some (chunks st).

(** [chunk_text(text, chunk_size, chunk_overlap)].  The loop is given
    [len(text)] iterations; [None] stands for a loop that needs more. *)
Definition chunk_text (text : str) (chunk_size chunk_overlap : Z)
    : option (list TextChunk) :=
  match text with
  | [] => Some []
  | _ :: _ =>
      if len text <=? chunk_size then
        Some [mkTextChunk text 0 0 (len text)]
      else
        while_loop (length text) text chunk_size chunk_overlap (mkLoop [] 0 0)
  end.

End TextProcessing.

(** ** What the claims about [chunk_text] say *)

Module ChunkSpec.
Import Py TextProcessing.

(** [sub] occurs in [s] at index [i]. *)
Definition occurs_at (s sub : str) (i : Z) : Prop :=
  0 <= i /\ i + len sub <= len s /\
  take (length sub) (drop (Z.to_nat i) s) = sub.

(** [sub] occurs in [txt] at position [p], within the positions [lo, hi). *)
Definition occurs_within (txt sub : str) (lo hi p : Z) : Prop :=
  lo <= p /\ p + len sub <= hi /\ occurs_at txt sub p.

(** The separators in priority order, the single space last. *)
Definition priority : list str := separators ++ [lit " "].

(** Indices are 0, 1, ..., n-1 in the order of the list. *)
Definition indices_sequential (cs : list TextChunk) : Prop :=
  forall (i : nat) c, cs !! i = Some c -> index c = Z.of_nat i.

(** Start offsets strictly increase along the list. *)
Definition starts_increasing (cs : list TextChunk) : Prop :=
  forall (i j : nat) c d,
    cs !! i = Some c -> cs !! j = Some d -> (i < j)%nat ->
    start_char c < start_char d.

Definition offsets_in_text (txt : str) (c : TextChunk) : Prop :=
  0 <= start_char c /\ start_char c < end_char c /\ end_char c <= len txt.

(** The chunk's text is the trimmed slice between its offsets, and that is
    not empty. *)
Definition text_trimmed (txt : str) (c : TextChunk) : Prop :=
  text c = strip (slice txt (start_char c) (end_char c)) /\
  strip (slice txt (start_char c) (end_char c)) <> [].

(** The chunk list is well-formed for [txt]. *)
Definition well_formed (txt : str) (cs : list TextChunk) : Prop :=
  indices_sequential cs /\ starts_increasing cs /\
  Forall (fun c => offsets_in_text txt c /\ text_trimmed txt c) cs.

(** What holds of the loop variables at the head of the [while] loop. *)
Definition loop_invariant (txt : str) (st : loop_state) : Prop :=
  0 <= start st /\
  next_index st = len (chunks st) /\
  indices_sequential (chunks st) /\
  starts_increasing (chunks st) /\
  Forall (fun c => offsets_in_text txt c /\ text_trimmed txt c /\
                   start_char c < start st) (chunks st).

End ChunkSpec.

(** ** Exceptions and state *)

Module Effects.
Import Py.

(** The exceptions the code tells apart: a [botocore] [ClientError], of which
    the code reads [e.response["Error"]["Code"]], and any other exception.
    Both carry the text that [str(e)] gives. *)
Inductive exn :=
| ClientError (code : str) (description : str)
| OtherError (description : str).

Definition str_of_exn (e : exn) : str :=
  match e with
  | ClientError _ description => description
  | OtherError description => description
  end.

(** A call either returns or raises. *)
Inductive result (A : Type) :=
| Ok (a : A)
| Raise (e : exn).
Arguments Ok {A} a.
Arguments Raise {A} e.

(** A computation over a state [W] that may raise. *)
Definition M (W A : Type) : Type := W -> result A * W.

Definition ret {W A} (a : A) : M W A := fun w => (Ok a, w).

Definition raise {W A} (e : exn) : M W A := fun w => (Raise e, w).

Definition bind {W A B} (m : M W A) (k : A -> M W B) : M W B :=
  fun w =>
    match m w with
    | (Ok a, w') => k a w'
    | (Raise e, w') => (Raise e, w')
    end.

(** [try: m except ...: handler]; the handler is [None] on an exception that
    no [except] clause matches, which then goes on to the caller. *)
Definition try_except {W A} (m : M W A) (handler : exn -> option (M W A))
    : M W A :=
  fun w =>
    match m w with
    | (Ok a, w') => (Ok a, w')
    | (Raise e, w') =>
        match handler e with
        | Some h => h w'
        | None => (Raise e, w')
        end
    end.

(** What an iteration of a [for] loop asks for: leave the function with a
    value, or go on with the next iteration. *)
Inductive flow (A : Type) :=
| Return (a : A)
| Continue.
Arguments Return {A} a.
Arguments Continue {A}.

Declare Scope py_scope.
Delimit Scope py_scope with py.
Notation "x <- m ;; k" := (bind m (fun x => k))
  (at level 20, m at level 99, k at level 200, only parsing) : py_scope.
Notation "m ;; k" := (bind m (fun _ => k))
  (at level 100, k at level 200, only parsing, right associativity) : py_scope.

(** [range(n)] and [range(0, stop, step)] for a positive step. *)
Definition range (n : Z) : list Z := map Z.of_nat (seq 0 (Z.to_nat n)).

Definition range_step (stop step : Z) : list Z :=
  map (fun k => Z.of_nat k * step)
      (seq 0 (Z.to_nat ((stop + step - 1) / step))).

(** [enumerate(l, start)] *)
Fixpoint enumerate_from {A} (start : Z) (l : list A) : list (Z * A) :=
  match l with
  | [] => []
  | x :: l' => (start, x) :: enumerate_from (start + 1) l'
  end.

Definition enumerate {A} (l : list A) : list (Z * A) := enumerate_from 0 l.

(** [max(a, b)] and [min(a, b)] on numbers: the first argument unless the
    second is strictly better. *)
Definition py_max (a b : Q) : Q := if Qlt_le_dec a b then b else a.
Definition py_min (a b : Q) : Q := if Qlt_le_dec b a then b else a.

(** [sep.join(parts)] *)
Fixpoint join (sep : str) (parts : list str) : str :=
  match parts with
  | [] => []
  | [p] => p
  | p :: rest => p ++ sep ++ join sep rest
  end.

End Effects.

(** ** tools/embeddings_client.py *)

Module EmbeddingsClient.
Import Py Effects.
Local Open Scope py_scope.

Definition MAX_RETRIES : Z := 5.
Definition EMBEDDING_INPUT_LIMIT_CHARS : Z := 30000.

(** An embedding vector, [list[float]]. *)
Definition embedding := list Q.

(** What the process has done so far: the [invoke_model] calls with the
    [inputText] sent and the answer received, the number of
    [random.uniform] draws, and the arguments of [time.sleep]; oldest
    first. *)
Record world := mkWorld {
  invocations : list (str * result embedding);
  draws : nat;
  sleeps : list Q
}.

Section Client.

(** The answer of Bedrock to its n-th [invoke_model] call, for the given
    [inputText] (model and dimensions are fixed by the settings); a
    successful answer is the embedding read from the response body. *)
Variable bedrock : nat -> str -> result embedding.

(** The n-th value of [random.uniform(0, 1)]. *)
Variable uniform : nat -> Q.

Definition invoke_model (inputText : str) : M world embedding :=
  fun w =>
    let answer := bedrock (length (invocations w)) inputText in
    (answer,
     mkWorld (invocations w ++ [(inputText, answer)]) (draws w) (sleeps w)).

Definition random_uniform : M world Q :=
  fun w =>
    (Ok (uniform (draws w)),
     mkWorld (invocations w) (S (draws w)) (sleeps w)).

Definition sleep (seconds : Q) : M world unit :=
  fun w => (Ok tt, mkWorld (invocations w) (draws w) (sleeps w ++ [seconds])).

Definition is_rate_limit (error_code : str) : bool :=
  bool_decide (error_code = lit "ThrottlingException")
  || bool_decide (error_code = lit "TooManyRequestsException").

(** [for attempt in range(MAX_RETRIES + 1): ...] over the attempts that are
    left.  When the loop is over the function returns [None]. *)
Fixpoint retry_loop (attempts : list Z) (body : str)
    : M world (option embedding) :=
  match attempts with
  | [] => ret None
  | attempt :: rest =>
      next <-
        try_except
          (v <- invoke_model body ;; ret (Return v))
          (fun e =>
             match e with
             | ClientError error_code _ =>
                 Some
                   (if is_rate_limit error_code && (attempt <? MAX_RETRIES)
                    then
                      jitter <- random_uniform ;;
                      sleep (py_min (inject_Z (2 ^ attempt) + jitter) 30) ;;
                      ret Continue
                    else raise e)
             | OtherError _ => None
             end) ;;
      match next with
      | Return v => ret (Some v)
      | Continue => retry_loop rest body
      end
  end.

(** [generate_embedding_vector(text)] *)
Definition generate_embedding_vector (text : str)
    : M world (option embedding) :=
  let text :=
    if EMBEDDING_INPUT_LIMIT_CHARS <? len text
    then slice text 0 EMBEDDING_INPUT_LIMIT_CHARS
    else text in
  retry_loop (range (MAX_RETRIES + 1)) text.

(** The [for i, text in enumerate(texts)] loop of
    [generate_embeddings_batch], with the list built so far. *)
Fixpoint batch_loop (items : list (Z * str))
    (embeddings : list (option embedding))
    : M world (list (option embedding)) :=
  match items with
  | [] => ret embeddings
  | (i, text) :: rest =>
      embedding <- generate_embedding_vector text ;;
      let embeddings := embeddings ++ [embedding] in
      (if (0 <? i) && (i mod 20 =? 0) then sleep (1 # 10) else ret tt) ;;
      batch_loop rest embeddings
  end.

(** [generate_embeddings_batch(texts)] *)
Definition generate_embeddings_batch (texts : list str)
    : M world (list (option embedding)) :=
  batch_loop (enumerate texts) [].

End Client.

End EmbeddingsClient.

(** ** Floats *)

Module Float64.

(** A finite Python float is a binary64 number; it is taken as the
    rational number it denotes.  What an operation on floats gives is the
    exact result rounded to the nearest number of 53 significant bits, a
    tie going to the one whose last bit is 0, and so is what a decimal
    literal denotes.  This is the result of IEEE 754 arithmetic as long as
    that is finite and not subnormal; a difference [1 - x] of binary64
    numbers that lies below [2^-1022] in absolute value is 0. *)

(** The nearest integer, an exact tie going to the even neighbour. *)
Definition round_half_even (q : Q) : Z :=
  let f := Qfloor q in
  match Qcompare (q - inject_Z f) (1 # 2) with
  | Lt => f
  | Gt => f + 1
  | Eq => if Z.even f then f else f + 1
  end.

(** [floor(log2(q))] for a positive [q]. *)
Definition exponent (q : Q) : Z :=
  let e := Z.log2 (Qnum q) - Z.log2 (Zpos (Qden q)) in
  if Qle_bool (Qpower 2 e) q then e else e - 1.

(** The nearest number of 53 significant bits to a positive [q]. *)
Definition binary64_positive (q : Q) : Q :=
  let ulp := Qpower 2 (exponent q - 52) in
  inject_Z (round_half_even (q / ulp)) * ulp.

Definition binary64 (q : Q) : Q :=
  match Qcompare q 0 with
  | Gt => binary64_positive q
  | Eq => 0
  | Lt => - binary64_positive (- q)
  end.

End Float64.

(** ** tools/vector_search.py *)

Module VectorSearch.
Import Py Effects Float64 EmbeddingsClient.
Local Open Scope py_scope.

Definition VECTORS_PER_BATCH : Z := 500.
Definition METADATA_TEXT_MAX_CHARS : Z := 500.

(** A record of the vector index, as [store_document_vectors] builds it. *)
Record Metadata := mkMetadata {
  document_id : str;
  document_filename : str;
  chunk_index : Z;
  chunk_text : str
}.

Record VectorRecord := mkVector {
  key : str;
  data : embedding;
  metadata : Metadata
}.

(** A match of a query response.  The code reads every field with
    [dict.get], so each may be missing.  The distance is a float, taken as
    the rational number it denotes. *)
Record Match := mkMatch {
  match_distance : option Q;
  match_chunk_text : option str;
  match_document_filename : option str;
  match_chunk_index : option Z
}.

(** The calls made to the S3 Vectors client. *)
Inductive s3_call :=
| PutVectors (vectors : list VectorRecord)
| DeleteVectors (keys : list str)
| QueryVectors (queryVector : option embedding) (topK : Z).

(** The vector index, a store of records by key, and the calls made so far,
    oldest first. *)
Record s3vectors := mkS3 {
  records : gmap str VectorRecord;
  calls : list s3_call
}.

Section Service.

(** The exception that the n-th call to the S3 Vectors client raises, if it
    raises one. *)
Variable s3_fault : nat -> option exn.

(** [response.get("vectors")] of the n-th call, when that call is a query
    that returns. *)
Variable s3_matches : nat -> option (list Match).

(** A call is recorded; it raises when the service says so, and has its
    effect on the index otherwise. *)
Definition s3_request {A : Type} (c : s3_call)
    (effect : gmap str VectorRecord -> gmap str VectorRecord)
    (answer : nat -> A) : M s3vectors A :=
  fun w =>
    let n := length (calls w) in
    match s3_fault n with
    | Some e => (Raise e, mkS3 (records w) (calls w ++ [c]))
    | None => (Ok (answer n), mkS3 (effect (records w)) (calls w ++ [c]))
    end.

(** [put_vectors] writes each record under its key. *)
Definition put_vectors (vectors : list VectorRecord) : M s3vectors unit :=
  s3_request (PutVectors vectors)
    (fun m => foldl (fun m v => <[key v := v]> m) m vectors)
    (fun _ => tt).

(** [delete_vectors] removes the records with the given keys. *)
Definition delete_vectors (keys : list str) : M s3vectors unit :=
  s3_request (DeleteVectors keys)
    (fun m => foldl (fun m k => delete k m) m keys)
    (fun _ => tt).

Definition query_vectors (queryVector : option embedding) (topK : Z)
    : M s3vectors (option (list Match)) :=
  s3_request (QueryVectors queryVector topK) (fun m => m) s3_matches.

(** [f"{document_id}#{i}"] *)
Definition vector_key (document_id : str) (i : Z) : str :=
  document_id ++ lit "#" ++ str_of_int i.

(** The body of the first loop of [store_document_vectors]: the record for
    the [i]-th pair of [zip(chunk_texts, embeddings)]. *)
Definition build_vector (document_id document_filename : str)
    (item : Z * (str * embedding)) : VectorRecord :=
  let '(i, (text, embedding)) := item in
  let truncated := slice text 0 METADATA_TEXT_MAX_CHARS in
  let truncated :=
    if METADATA_TEXT_MAX_CHARS <? len text then truncated ++ lit "..."
    else truncated in
  mkVector (vector_key document_id i) embedding
    (mkMetadata document_id document_filename i truncated).

(** [for batch_start in range(0, len(vectors), VECTORS_PER_BATCH)] of
    [store_document_vectors]. *)
Fixpoint store_batches (batch_starts : list Z) (vectors : list VectorRecord)
    (stored_count : Z) : M s3vectors Z :=
  match batch_starts with
  | [] => ret stored_count
  | batch_start :: rest =>
      let batch := slice vectors batch_start (batch_start + VECTORS_PER_BATCH) in
      put_vectors batch ;;
      store_batches rest vectors (stored_count + len batch)
  end.

(** [store_document_vectors(document_id, document_filename, chunk_texts,
    embeddings)] *)
Definition store_document_vectors (document_id document_filename : str)
    (chunk_texts : list str) (embeddings : list embedding) : M s3vectors Z :=
  let vectors :=
    map (build_vector document_id document_filename)
        (enumerate (zip chunk_texts embeddings)) in
  store_batches (range_step (len vectors) VECTORS_PER_BATCH) vectors 0.

(** [for batch_start in range(0, len(keys), VECTORS_PER_BATCH)] of
    [delete_document_vectors]; only a [ClientError] is caught. *)
Fixpoint delete_batches (batch_starts : list Z) (keys : list str)
    (deleted_count : Z) : M s3vectors Z :=
  match batch_starts with
  | [] => ret deleted_count
  | batch_start :: rest =>
      let batch := slice keys batch_start (batch_start + VECTORS_PER_BATCH) in
      deleted_count <-
        try_except
          (delete_vectors batch ;; ret (deleted_count + len batch))
          (fun e =>
             match e with
             | ClientError _ _ => Some (ret deleted_count)
             | OtherError _ => None
             end) ;;
      delete_batches rest keys deleted_count
  end.

(** [delete_document_vectors(document_id, chunk_count)] *)
Definition delete_document_vectors (document_id : str) (chunk_count : Z)
    : M s3vectors Z :=
  let keys := map (vector_key document_id) (range chunk_count) in
  delete_batches (range_step (len keys) VECTORS_PER_BATCH) keys 0.

(** One entry of the result list of [search_knowledge_base], before it is
    put into text. *)
Record scored := mkScored {
  rank : Z;
  quality : str;
  similarity : Q;
  filename : str;
  chunk : str;
  content : str
}.

(** The first half of the body of the result loop: the values computed for
    the [i]-th match.  The distance is a float, the difference
    [1 - distance] is the rounded one, and [0.7] and [0.5] are the floats
    that the literals denote. *)
Definition score (item : Z * Match) : scored :=
  let '(i, vector) := item in
  let distance := default 0%Q (match_distance vector) in
  let similarity := py_max 0 (binary64 (1 - distance)) in
  let chunk_text := default (lit "N/A") (match_chunk_text vector) in
  let filename := default (lit "Unknown") (match_document_filename vector) in
  let chunk_index :=
    match match_chunk_index vector with
    | Some n => str_of_int n
    | None => lit "?"
    end in
  let quality :=
    if Qle_bool (binary64 (7 # 10)) similarity then lit "High"
    else if Qle_bool (binary64 (1 # 2)) similarity then lit "Medium"
    else lit "Low" in
  mkScored i quality similarity filename chunk_index chunk_text.

(** [f"{x:.2f}"]: two decimals of the exact value, an exact tie going to
    the even neighbour. *)
Definition digit (d : Z) : char := Z.to_N (48 + d).

Definition format_2f (q : Q) : str :=
  let n := round_half_even (Qabs q * 100) in
  (if Qlt_le_dec q 0 then lit "-" else []) ++
  str_of_int (n / 100) ++ lit "." ++ [digit (n mod 100 / 10); digit (n mod 10)].

(** The second half of the body of the result loop: the text of an entry. *)
Definition render (r : scored) : str :=
  lit "--- Result " ++ str_of_int (rank r) ++ lit " [" ++ quality r ++
  lit " relevance: " ++ format_2f (similarity r) ++ lit "] ---" ++ [10%N] ++
  lit "Source: " ++ filename r ++ lit " (chunk " ++ chunk r ++ lit ")" ++ [10%N] ++
  lit "Content:" ++ [10%N] ++ content r ++ [10%N].

Definition KNOWLEDGE_BASE_EMPTY : str :=
  lit "The knowledge base is empty. No documents have been uploaded yet.".

Definition NO_RELEVANT_RESULTS : str :=
  lit "No relevant results found for your query. " ++
  lit "Try rephrasing your question or upload more documents.".

End Service.

(** The two services side by side. *)
Definition in_bedrock {A : Type} (m : M world A) : M (world * s3vectors) A :=
  fun w => let '(r, b) := m w.1 in (r, (b, w.2)).

Definition in_s3 {A : Type} (m : M s3vectors A) : M (world * s3vectors) A :=
  fun w => let '(r, s) := m w.2 in (r, (w.1, s)).

Section Search.

Variable bedrock : nat -> str -> result embedding.
Variable uniform : nat -> Q.
Variable s3_fault : nat -> option exn.
Variable s3_matches : nat -> option (list Match).

(** [search_knowledge_base(query, top_k)].  A [return] inside a [try] block
    or a handler is an [inl]; [inr] goes on with the rest of the function. *)
Definition search_knowledge_base (query : str) (top_k : Z)
    : M (world * s3vectors) str :=
  embedded <-
    try_except
      (v <- in_bedrock (generate_embedding_vector bedrock uniform query) ;;
       ret (inr v))
      (fun e =>
         Some (ret (inl (lit "Error generating query embedding: "
                         ++ str_of_exn e)))) ;;
  match embedded with
  | inl message => ret message
  | inr query_embedding =>
      answered <-
        try_except
          (response <-
             in_s3 (query_vectors s3_fault s3_matches query_embedding top_k) ;;
           ret (inr response))
          (fun e =>
             match e with
             | ClientError error_code _ =>
                 Some
                   (ret
                      (inl
                         (if bool_decide
                               (error_code = lit "ResourceNotFoundException")
                          then KNOWLEDGE_BASE_EMPTY
                          else lit "Error searching knowledge base: "
                               ++ str_of_exn e)))
             | OtherError _ => None
             end) ;;
      match answered with
      | inl message => ret message
      | inr response =>
          let vectors := default [] response in
          match vectors with
          | [] => ret NO_RELEVANT_RESULTS
          | _ :: _ =>
              let results := map render (map score (enumerate_from 1 vectors)) in
              let header :=
                lit "Found " ++ str_of_int (len results) ++
                lit " relevant passages for: " ++ [34%N] ++ query ++
                [34%N; 10%N; 10%N] in
              ret (header ++ join [10%N] results)
          end
      end
  end.

End Search.

End VectorSearch.

(** ** What the claims about the embeddings client say *)

Module EmbedSpec.
Import Py Effects EmbeddingsClient.

(** An answer of the service that signals a rate limit. *)
Definition rate_limited (answer : result embedding) : Prop :=
  exists code description,
    answer = Raise (ClientError code description) /\
    (code = lit "ThrottlingException" \/
     code = lit "TooManyRequestsException").

(** The first 30,000 characters of a text. *)
Definition truncated (text : str) : str :=
  take (Z.to_nat EMBEDDING_INPUT_LIMIT_CHARS) text.

(** The calls of a log that were answered with an embedding. *)
Definition successes (log : list (str * result embedding))
    : list (str * embedding) :=
  omap (fun entry =>
          match entry.2 with
          | Ok v => Some (entry.1, v)
          | Raise _ => None
          end) log.

End EmbedSpec.

(** ** What the claims about the vector index say *)

Module IndexSpec.
Import Py Effects EmbeddingsClient VectorSearch.

(** The keys [document_id#0], ..., [document_id#(n-1)]. *)
Definition document_keys (document_id : str) (n : nat) : list str :=
  map (fun i : nat => document_id ++ lit "#" ++ str_of_int (Z.of_nat i))
      (seq 0 n).

(** [k] lies under the key prefix of the document. *)
Definition under_prefix (document_id k : str) : Prop :=
  exists suffix, k = document_id ++ lit "#" ++ suffix.

(** The batches in which a list is submitted. *)
Definition batches_of {A : Type} (l : list A) : list (list A) :=
  map (fun batch_start => slice l batch_start (batch_start + VECTORS_PER_BATCH))
      (range_step (len l) VECTORS_PER_BATCH).

(** Of the batches submitted by the calls number [n], [n+1], ..., those
    whose call does not fail. *)
Fixpoint succeeded {A : Type} (s3_fault : nat -> option exn) (n : nat)
    (batches : list (list A)) : list (list A) :=
  match batches with
  | [] => []
  | batch :: rest =>
      match s3_fault n with
      | None => batch :: succeeded s3_fault (S n) rest
      | Some _ => succeeded s3_fault (S n) rest
      end
  end.

(** The index after the records have been written, and after the keys have
    been removed. *)
Definition put_all (m : gmap str VectorRecord) (vectors : list VectorRecord)
    : gmap str VectorRecord :=
  foldl (fun m v => <[key v := v]> m) m vectors.

Definition delete_all (m : gmap str VectorRecord) (keys : list str)
    : gmap str VectorRecord :=
  foldl (fun m k => delete k m) m keys.

(** The failures that [delete_document_vectors] catches. *)
Definition only_client_errors (s3_fault : nat -> option exn) : Prop :=
  forall n e, s3_fault n = Some e ->
    exists code description, e = ClientError code description.

End IndexSpec.

(** ** What the claims about [search_knowledge_base] say *)

Module SearchSpec.
Import Py Effects EmbeddingsClient VectorSearch.

(** The results by which [search_knowledge_base] reports an error. *)
Definition error_result (s : str) : Prop :=
  exists description,
    s = lit "Error searching knowledge base: " ++ description \/
    s = lit "Error generating query embedding: " ++ description.

(** The distance of a match, 0 when the service gives none. *)
Definition distance_of (vector : Match) : Q :=
  default 0%Q (match_distance vector).

End SearchSpec.

(** ** Services used in the examples *)

Module Examples.
Import Py Effects EmbeddingsClient VectorSearch.

Definition throttling : exn :=
  ClientError (lit "ThrottlingException") (lit "Too many requests").

(** Bedrock throttles its first two calls and then answers. *)
Definition throttled_twice (n : nat) (inputText : str) : result embedding :=
  match n with
  | 0%nat | 1%nat => Raise throttling
  | _ => Ok [1 # 2; inject_Z (len inputText)]%Q
  end.

(** Bedrock answers every call. *)
Definition always_answers (n : nat) (inputText : str) : result embedding :=
  Ok [inject_Z (len inputText)].

Definition quarter (n : nat) : Q := 1 # 4.

Definition fresh : world := mkWorld [] 0 [].

(** S3 Vectors never fails. *)
Definition no_fault (n : nat) : option exn := None.

(** The first call to S3 Vectors is answered with an error, the others
    go through. *)
Definition first_call_fails (n : nat) : option exn :=
  match n with
  | 0%nat => Some (ClientError (lit "InternalServerException") (lit "internal error"))
  | _ => None
  end.

Definition no_matches (n : nat) : option (list Match) := None.

Definition empty_index : s3vectors := mkS3 ∅ [].

End Examples.

(** ** Further notions about the chunks of [chunk_text] *)

Module ChunkCover.
Import Py TextProcessing.

(** Position [p] of the text lies between the offsets of some chunk. *)
Definition covered (cs : list TextChunk) (p : Z) : Prop :=
  exists c, c ∈ cs /\ start_char c <= p /\ p < end_char c.

(** The chunk was made from the window that starts at its [start_char]. *)
Definition from_window (txt : str) (chunk_size : Z) (c : TextChunk) : Prop :=
  0 <= start_char c /\ start_char c < len txt /\
  end_char c = window_end txt chunk_size (start_char c) /\
  text c = strip (slice txt (start_char c) (end_char c)).

(** The character at position [p] is not whitespace. *)
Definition visible_at (txt : str) (p : Z) : Prop :=
  exists c, 0 <= p /\ txt !! Z.to_nat p = Some c /\ is_space c = false.

End ChunkCover.

(** ** text_processing.py: file types and text extraction *)

Module Extraction.
Import Py Effects.

(** The exceptions of text extraction: [ValueError] (to which
    [UnicodeDecodeError] belongs) and any other exception. *)
Inductive raised :=
| ValueError (message : str)
| OtherException (description : str).

Inductive outcome (A : Type) :=
| Returns (a : A)
| Raises (e : raised).
Arguments Returns {A} a.
Arguments Raises {A} e.

(** The content of a file. *)
Definition bytes := list Byte.byte.

(** A dict with [str] keys, as the list of its items; [d.get(k)]. *)
Fixpoint dict_get {V : Type} (d : list (str * V)) (k : str) : option V :=
  match d with
  | [] => None
  | (k', v) :: d' => if bool_decide (k' = k) then Some v else dict_get d' k
  end.

Definition SUPPORTED_CONTENT_TYPES : list (str * str) :=
  [ (lit "application/pdf", lit "pdf");
    (lit "application/vnd.openxmlformats-officedocument.wordprocessingml.document",
     lit "docx");
    (lit "text/plain", lit "txt");
    (lit "text/markdown", lit "md") ].

Definition EXTENSION_TO_TYPE : list (str * str) :=
  [ (lit ".pdf", lit "pdf");
    (lit ".docx", lit "docx");
    (lit ".txt", lit "txt");
    (lit ".md", lit "md") ].

(** [c in s] for a character. *)
Definition contains (c : char) (s : str) : bool := existsb (N.eqb c) s.

(** The characters of [s] before the first [c]. *)
Fixpoint before_first (c : char) (s : str) : str :=
  match s with
  | [] => []
  | x :: s' => if (x =? c)%N then [] else x :: before_first c s'
  end.

(** [s.rsplit(c, 1)[-1]]: what follows the last [c], the whole of [s] when
    it holds no [c]. *)
Definition rsplit_last (c : char) (s : str) : str :=
  reverse (before_first c (reverse s)).

(** [f"{content_type}"] for a content type that may be [None]. *)
Definition str_of_content_type (content_type : option str) : str :=
  match content_type with
  | Some s => s
  | None => lit "None"
  end.

Section Extractors.

(** [str.lower] *)
Variable str_lower : str -> str.

(** [page.extract_text()] for the pages of [PdfReader(...)], [None] or a
    text each; the text of the paragraphs of [Document(...)]; and
    [bytes.decode("utf-8")]; each with the exception it may raise. *)
Variable pdf_pages : bytes -> outcome (list (option str)).
Variable docx_paragraphs : bytes -> outcome (list str).
Variable decode_utf8 : bytes -> outcome str.

(** [detect_file_type(filename, content_type)] *)
Definition detect_file_type (filename : str) (content_type : option str)
    : outcome str :=
  let by_content_type :=
    match content_type with
    | Some (c :: rest) => dict_get SUPPORTED_CONTENT_TYPES (c :: rest)
    | _ => None
    end in
  match by_content_type with
  | Some file_type => Returns file_type
  | None =>
      let ext :=
        if contains 46%N filename
        then lit "." ++ str_lower (rsplit_last 46%N filename)
        else [] in
      match dict_get EXTENSION_TO_TYPE ext with
      | Some file_type => Returns file_type
      | None =>
          Raises
            (ValueError
               (lit "Unsupported file type for '" ++ filename ++
                lit "' (content_type=" ++ str_of_content_type content_type ++
                lit "). " ++ lit "Supported: PDF, DOCX, TXT, MD"))
      end
  end.

(** [_extract_pdf]: the pages that have text, a blank line between them. *)
Definition _extract_pdf (file_content : bytes) : outcome str :=
  match pdf_pages file_content with
  | Raises e => Raises e
  | Returns page_texts =>
      let pages :=
        omap (fun page_text =>
                match page_text with
                | Some (c :: rest) => Some (c :: rest)
                | _ => None
                end) page_texts in
      Returns (join [10; 10]%N pages)
  end.

(** [_extract_docx]: the paragraphs that are not blank, a blank line
    between them. *)
Definition _extract_docx (file_content : bytes) : outcome str :=
  match docx_paragraphs file_content with
  | Raises e => Raises e
  | Returns paragraph_texts =>
      let paragraphs :=
        filter (fun paragraph_text => strip paragraph_text <> [])
               paragraph_texts in
      Returns (join [10; 10]%N paragraphs)
  end.

(** [_extract_plain_text] *)
Definition _extract_plain_text (file_content : bytes) : outcome str :=
  decode_utf8 file_content.

(** The dict [extractors] of [extract_text]. *)
Definition extractors : list (str * (bytes -> outcome str)) :=
  [ (lit "pdf", _extract_pdf);
    (lit "docx", _extract_docx);
    (lit "txt", _extract_plain_text);
    (lit "md", _extract_plain_text) ].

(** [extract_text(file_content, filename, content_type)]; a key missing
    from [extractors] would raise [KeyError]. *)
Definition extract_text (file_content : bytes) (filename : str)
    (content_type : option str) : outcome str :=
  match detect_file_type filename content_type with
  | Raises e => Raises e
  | Returns file_type =>
      match dict_get extractors file_type with
      | None => Raises (OtherException (lit "KeyError"))
      | Some extractor =>
          match extractor file_content with
          | Raises e => Raises e
          | Returns text =>
              let text := strip text in
              match text with
              | [] =>
                  Raises
                    (ValueError
                       (lit "No text content could be extracted from '" ++
                        filename ++ lit "'."))
              | _ :: _ => Returns text
              end
          end
      end
  end.

End Extractors.

(** [str.lower] on the ASCII letters, for the examples. *)
Definition ascii_lower (s : str) : str :=
  map (fun c => if ((65 <=? c) && (c <=? 90))%N then (c + 32)%N else c) s.

End Extraction.

(** ** Notions about file types *)

Module ExtractionSpec.
Import Py Extraction.

(** The content type is missing, empty, or not one of the supported ones. *)
Definition unsupported_content_type (content_type : option str) : Prop :=
  forall c rest,
    content_type = Some (c :: rest) ->
    dict_get SUPPORTED_CONTENT_TYPES (c :: rest) = None.

(** The four file types. *)
Definition file_types : list str :=
  [lit "pdf"; lit "docx"; lit "txt"; lit "md"].

(** The text does not start with whitespace. *)
Definition clean_head (s : str) : Prop :=
  match s with
  | c :: _ => is_space c = false
  | [] => True
  end.

End ExtractionSpec.

(** ** Computations that may have no outcome *)

Module Partial.
Import Py Effects.

(** A computation over a state [W] that may raise, and that may have no
    outcome at all ([None]): a loop that does not come to an end, or a
    value of a kind that the embedding does not follow further. *)
Definition P (W A : Type) : Type := W -> option (result A * W).

Definition lift {W A} (m : M W A) : P W A := fun w => Some (m w).

Definition defined {W A} (x : option A) : P W A :=
  fun w =>
    match x with
    | Some a => Some (Ok a, w)
    | None => None
    end.

Definition pbind {W A B} (m : P W A) (k : A -> P W B) : P W B :=
  fun w =>
    match m w with
    | Some (Ok a, w') => k a w'
    | Some (Raise e, w') => Some (Raise e, w')
    | None => None
    end.

Declare Scope partial_scope.
Delimit Scope partial_scope with partial.
Notation "x <- m ;; k" := (pbind m (fun x => k))
  (at level 20, m at level 99, k at level 200, only parsing) : partial_scope.
Notation "m ;; k" := (pbind m (fun _ => k))
  (at level 100, k at level 200, only parsing, right associativity)
  : partial_scope.

End Partial.

(** ** tools/document_manager.py *)

Module DocumentManager.
Import Py Effects Float64 Partial TextProcessing EmbeddingsClient VectorSearch
  Extraction.
Local Open Scope py_scope.

Definition MAX_FILE_SIZE : Z := 10 * 1024 * 1024.

(** [Settings.chunk_size] and [Settings.chunk_overlap]: [get_settings]
    builds the settings without them, so they are the defaults of the
    dataclass. *)
Definition settings_chunk_size : Z := 4000.
Definition settings_chunk_overlap : Z := 800.

(** [_s3_document_key(document_id, filename)] *)
Definition _s3_document_key (document_id filename : str) : str :=
  let ext :=
    if contains 46%N filename then rsplit_last 46%N filename else lit "txt" in
  lit "documents/" ++ document_id ++ lit "/original." ++ ext.

(** [_s3_metadata_key(document_id)] *)
Definition _s3_metadata_key (document_id : str) : str :=
  lit "documents/" ++ document_id ++ lit "/metadata.json".

(** What the code can tell of the JSON value under ["chunk_count"]: an
    integer; [true] or [false], which Python takes as the integers 1 and 0;
    a float, of which nothing but the comparison with 0 is used; or a
    value that is no number ([null], a string, a list, an object), with
    the name of its Python type. *)
Inductive json_count :=
| CountInt (n : Z)
| CountBool (b : bool)
| CountFloat (greater_than_zero : bool)
| CountOther (type_name : str).

(** What [delete_document] reads of the metadata of a document, after
    [json.loads]: the value under ["chunk_count"], and the text that an
    f-string gives of the value under ["filename"]; each of the two keys
    may be missing. *)
Record DocumentMetadata := mkDocumentMetadata {
  metadata_chunk_count : option json_count;
  metadata_filename : option str
}.

(** [chunk_count > 0]: a value that is no number cannot be compared with
    an integer, and a [TypeError] is raised. *)
Definition greater_than_zero {W : Type} (chunk_count : json_count) : M W bool :=
  match chunk_count with
  | CountInt n => ret (0 <? n)
  | CountBool b => ret b
  | CountFloat positive => ret positive
  | CountOther type_name =>
      raise
        (OtherError
           (lit "'>' not supported between instances of '" ++ type_name ++
            lit "' and 'int'"))
  end.

(** The dict [metadata] that [upload_document] saves. *)
Record UploadMetadata := mkUploadMetadata {
  upload_document_id : str;
  upload_filename : str;
  upload_timestamp : str;
  file_size_bytes : Z;
  upload_content_type : str;
  text_length : Z;
  upload_chunk_count : Z;
  embedding_model : str;
  upload_vector_dimensions : Z
}.

(** What is given to [json.dumps] for the [Body] of a [put_object]: the
    list [chunks_data] of index and text, or the metadata. *)
Inductive body :=
| ChunksData (chunks_data : list (Z * str))
| MetadataJson (metadata : UploadMetadata).

(** The calls made to the S3 client. *)
Inductive s3_call :=
| GetObject (Key : str)
| PutObject (Key : str) (Body : body)
| ListObjectsV2 (Prefix : str)
| DeleteObjects (Keys : list str).

(** The calls made to the S3 client so far, oldest first. *)
Record s3 := mkS3Client {
  object_calls : list s3_call
}.

Section Client.

(** The S3 client, by the number of the call: the exception the call
    raises, if any; for a [get_object] on a metadata file that returns,
    what is read of the body after [json.loads], or the exception that
    reading the body, [json.loads] or [metadata.get] raises; and
    for a listing begun at that call, the ["Contents"] keys of its first
    page and of the pages that follow, [None] for a page without
    ["Contents"]. *)
Variable s3_client_fault : nat -> option exn.
Variable s3_metadata : nat -> result DocumentMetadata.
Variable s3_pages : nat -> option (list str) * list (option (list str)).

(** The S3 Vectors service. *)
Variable s3_fault : nat -> option exn.

Definition s3_client_request {A : Type} (c : s3_call) (answer : nat -> M s3 A)
    : M s3 A :=
  fun w =>
    let n := length (object_calls w) in
    let w' := mkS3Client (object_calls w ++ [c]) in
    match s3_client_fault n with
    | Some e => (Raise e, w')
    | None => answer n w'
    end.

(** [json.loads(s3.get_object(...)["Body"].read())] *)
Definition get_metadata (Key : str) : M s3 DocumentMetadata :=
  s3_client_request (GetObject Key) (fun n w => (s3_metadata n, w)).

(** One page of the listing is fetched. *)
Definition list_page (Prefix : str) : M s3 unit :=
  s3_client_request (ListObjectsV2 Prefix) (fun _ => ret tt).

Definition delete_objects (Keys : list str) : M s3 unit :=
  s3_client_request (DeleteObjects Keys) (fun _ => ret tt).

(** [for page in paginator.paginate(...)]: each page is fetched when the
    loop comes to it, and its objects, if it has any, are deleted. *)
Fixpoint delete_pages (Prefix : str) (pages : list (option (list str)))
    : M s3 unit :=
  match pages with
  | [] => ret tt
  | page :: rest =>
      list_page Prefix ;;
      let objects := default [] page in
      (match objects with
       | [] => ret tt
       | _ :: _ => delete_objects objects
       end) ;;
      delete_pages Prefix rest
  end.

(** The S3 Vectors service and the S3 client side by side. *)
Definition in_vectors {A : Type} (m : M s3vectors A) : M (s3vectors * s3) A :=
  fun w => let '(r, v) := m w.1 in (r, (v, w.2)).

Definition in_objects {A : Type} (m : M s3 A) : M (s3vectors * s3) A :=
  fun w => let '(r, o) := m w.2 in (r, (w.1, o)).

(** [delete_document_vectors(document_id, chunk_count)] with the chunk
    count of the metadata: [range(chunk_count)] takes [True] as 1 and
    [False] as 0, and raises a [TypeError], before any call is made, for
    what is no integer. *)
Definition delete_vectors_of (document_id : str) (chunk_count : json_count)
    : M s3vectors Z :=
  match chunk_count with
  | CountInt n => delete_document_vectors s3_fault document_id n
  | CountBool b =>
      delete_document_vectors s3_fault document_id (if b then 1 else 0)
  | CountFloat _ =>
      raise (OtherError (lit "'float' object cannot be interpreted as an integer"))
  | CountOther type_name =>
      raise
        (OtherError
           (lit "'" ++ type_name ++
            lit "' object cannot be interpreted as an integer"))
  end.

(** [delete_document(document_id)].  A [return] inside a handler is an
    [inl]; [inr] goes on with the rest of the function.  The comparison
    [chunk_count > 0] stands outside every [try]. *)
Definition delete_document (document_id : str) : M (s3vectors * s3) str :=
  let metadata_key := _s3_metadata_key document_id in
  loaded <-
    try_except
      (metadata <- in_objects (get_metadata metadata_key) ;;
       ret (inr (default (CountInt 0) (metadata_chunk_count metadata),
                 default (lit "Unknown") (metadata_filename metadata))))
      (fun e =>
         match e with
         | ClientError error_code _ =>
             Some
               (ret
                  (inl
                     (if bool_decide (error_code = lit "NoSuchKey")
                      then lit "Error: Document with ID '" ++ document_id ++
                           lit "' not found."
                      else lit "Error reading document metadata: " ++
                           str_of_exn e)))
         | OtherError _ => None
         end) ;;
  match loaded with
  | inl message => ret message
  | inr (chunk_count, filename) =>
      let errors : list str := [] in
      positive <- greater_than_zero chunk_count ;;
      deleted <-
        (if positive then
           try_except
             (deleted_vectors <-
                in_vectors (delete_vectors_of document_id chunk_count) ;;
              ret (errors, deleted_vectors))
             (fun e =>
                Some (ret (errors ++ [lit "Vector deletion: " ++ str_of_exn e],
                           0)))
         else ret (errors, 0)) ;;
      let '(errors, deleted_vectors) := deleted in
      let prefix := lit "documents/" ++ document_id ++ lit "/" in
      errors <-
        try_except
          (fun w =>
             let pages := s3_pages (length (object_calls w.2)) in
             bind (in_objects (delete_pages prefix (pages.1 :: pages.2)))
                  (fun _ => ret errors) w)
          (fun e =>
             match e with
             | ClientError _ _ =>
                 Some (ret (errors ++ [lit "S3 deletion: " ++ str_of_exn e]))
             | OtherError _ => None
             end) ;;
      match errors with
      | _ :: _ =>
          ret (lit "Document '" ++ filename ++ lit "' (ID: " ++ document_id ++
               lit ") partially deleted." ++ [10%N] ++
               lit "Vectors removed: " ++ str_of_int deleted_vectors ++ [10%N] ++
               lit "Errors: " ++ join (lit "; ") errors)
      | [] =>
          ret (lit "Document '" ++ filename ++ lit "' (ID: " ++ document_id ++
               lit ") deleted successfully." ++ [10%N] ++
               lit "- Vectors removed: " ++ str_of_int deleted_vectors ++
               [10%N] ++ lit "- S3 files cleaned up")
      end
  end.

End Client.

(** [f"{n:,}"]: the digits in groups of three, from the right. *)
Fixpoint commas (reversed : str) (k : nat) : str :=
  match reversed with
  | [] => []
  | d :: rest =>
      match rest, k with
      | _ :: _, 2%nat => d :: 44%N :: commas rest 0
      | _, _ => d :: commas rest (S k)
      end
  end.

Definition format_thousands (n : Z) : str :=
  (if n <? 0 then lit "-" else []) ++
  reverse (commas (reverse (str_of_int (Z.abs n))) 0).

(** [f"{x:.1f}"] and [f"{x:.0f}"], an exact tie going to the even
    neighbour. *)
Definition format_1f (q : Q) : str :=
  let n := round_half_even (Qabs q * 10) in
  (if Qlt_le_dec q 0 then lit "-" else []) ++
  str_of_int (n / 10) ++ lit "." ++ [digit (n mod 10)].

Definition format_0f (q : Q) : str :=
  (if Qlt_le_dec q 0 then lit "-" else []) ++
  str_of_int (round_half_even (Qabs q)).

(** The S3 client, Bedrock and S3 Vectors side by side. *)
Record services := mkServices {
  s3_client : s3;
  bedrock_runtime : world;
  s3_vectors : s3vectors
}.

Definition on_s3 {A : Type} (m : M s3 A) : M services A :=
  fun w =>
    let '(r, o) := m (s3_client w) in
    (r, mkServices o (bedrock_runtime w) (s3_vectors w)).

Definition on_bedrock {A : Type} (m : M world A) : M services A :=
  fun w =>
    let '(r, b) := m (bedrock_runtime w) in
    (r, mkServices (s3_client w) b (s3_vectors w)).

Definition on_s3vectors {A : Type} (m : M s3vectors A) : M services A :=
  fun w =>
    let '(r, v) := m (s3_vectors w) in
    (r, mkServices (s3_client w) (bedrock_runtime w) v).

Section Upload.

(** The S3 client, by the number of the call: the exception that the call
    or the reading of its response raises, if any, and for a [get_object]
    that returns, the content read from ["Body"] and the ["ContentType"] of
    the response, if it has one. *)
Variable s3_client_fault : nat -> option exn.
Variable s3_object : nat -> bytes * option str.

(** What text extraction relies on. *)
Variable str_lower : str -> str.
Variable pdf_pages : bytes -> outcome (list (option str)).
Variable docx_paragraphs : bytes -> outcome (list str).
Variable decode_utf8 : bytes -> outcome str.

(** Bedrock, the random source and S3 Vectors. *)
Variable bedrock : nat -> str -> result embedding.
Variable uniform : nat -> Q.
Variable s3_fault : nat -> option exn.

(** [datetime.now(timezone.utc).isoformat()] when the metadata is built,
    and the two settings written into it. *)
Variable now : str.
Variable embedding_model_id : str.
Variable vector_dimensions : Z.

Definition get_object (Key : str) : M s3 (bytes * option str) :=
  s3_client_request s3_client_fault (GetObject Key)
    (fun n => ret (s3_object n)).

Definition put_object (Key : str) (Body : body) : M s3 unit :=
  s3_client_request s3_client_fault (PutObject Key Body) (fun _ => ret tt).

Local Open Scope partial_scope.

(** [upload_document(document_id, filename)].  A [return] inside a [try]
    block or a handler is an [inl]; [inr] goes on with the rest of the
    function.  An exception of [extract_text] that is not a [ValueError]
    goes on to the caller. *)
Definition upload_document (document_id filename : str) : P services str :=
  let s3_key := _s3_document_key document_id filename in
  downloaded <-
    lift
      (try_except
         (response <- on_s3 (get_object s3_key) ;;
          ret (inr (response.1, default [] response.2)))
         (fun e =>
            match e with
            | ClientError error_code _ =>
                Some
                  (ret
                     (inl
                        (if bool_decide (error_code = lit "NoSuchKey")
                         then lit "Error: Document '" ++ filename ++
                              lit "' (ID: " ++ document_id ++
                              lit ") not found in S3 " ++
                              lit "at key '" ++ s3_key ++
                              lit "'. Please ensure the file was uploaded first."
                         else lit "Error downloading document from S3: " ++
                              str_of_exn e)))
            | OtherError _ => None
            end))%py ;;
  match downloaded with
  | inl message => lift (ret message)
  | inr (file_content, content_type) =>
      if MAX_FILE_SIZE <? len file_content then
        lift
          (ret
             (lit "Error: File '" ++ filename ++ lit "' is " ++
              format_1f (inject_Z (len file_content) / 1024 / 1024) ++
              lit " MB, " ++ lit "which exceeds the " ++
              format_0f (inject_Z MAX_FILE_SIZE / 1024 / 1024) ++
              lit " MB limit."))
      else
        match
          extract_text str_lower pdf_pages docx_paragraphs decode_utf8
            file_content filename (Some content_type)
        with
        | Raises (ValueError message) =>
            lift
              (ret
                 (lit "Error extracting text from '" ++ filename ++ lit "': " ++
                  message))
        | Raises (OtherException description) =>
            lift (raise (OtherError description))
        | Returns text =>
            chunks <-
              defined
                (TextProcessing.chunk_text text settings_chunk_size
                   settings_chunk_overlap) ;;
            match chunks with
            | [] =>
                lift
                  (ret
                     (lit "Error: No text chunks could be created from '" ++
                      filename ++ lit "'."))
            | _ :: _ =>
                let chunk_texts := map TextProcessing.text chunks in
                embedded <-
                  lift
                    (try_except
                       (embeddings <-
                          on_bedrock
                            (generate_embeddings_batch bedrock uniform
                               chunk_texts) ;;
                        ret (inr embeddings))
                       (fun e =>
                          Some
                            (ret
                               (inl
                                  (lit "Error generating embeddings for '" ++
                                   filename ++ lit "': " ++ str_of_exn e)))))%py ;;
                match embedded with
                | inl message => lift (ret message)
                | inr embeddings =>
                    embeddings <- defined (mapM id embeddings) ;;
                    stored <-
                      lift
                        (try_except
                           (stored <-
                              on_s3vectors
                                (store_document_vectors s3_fault document_id
                                   filename chunk_texts embeddings) ;;
                            ret (inr stored))
                           (fun e =>
                              Some
                                (ret
                                   (inl
                                      (lit "Error storing vectors for '" ++
                                       filename ++ lit "': " ++
                                       str_of_exn e)))))%py ;;
                    match stored with
                    | inl message => lift (ret message)
                    | inr stored =>
                        let chunks_data := enumerate chunk_texts in
                        lift
                          (try_except
                             (on_s3
                                (put_object
                                   (lit "documents/" ++ document_id ++
                                    lit "/chunks.json")
                                   (ChunksData chunks_data)))
                             (fun e =>
                                match e with
                                | ClientError _ _ => Some (ret tt)
                                | OtherError _ => None
                                end)) ;;
                        let metadata :=
                          mkUploadMetadata document_id filename now
                            (len file_content) content_type (len text)
                            (len chunks) embedding_model_id
                            vector_dimensions in
                        saved <-
                          lift
                            (try_except
                               (on_s3
                                  (put_object (_s3_metadata_key document_id)
                                     (MetadataJson metadata)) ;;
                                ret (inr tt))
                               (fun e =>
                                  match e with
                                  | ClientError _ _ =>
                                      Some
                                        (ret
                                           (inl
                                              (lit "Warning: Document '" ++
                                               filename ++
                                               lit "' was indexed (" ++
                                               str_of_int stored ++
                                               lit " vectors stored) " ++
                                               lit "but metadata save failed: " ++
                                               str_of_exn e)))
                                  | OtherError _ => None
                                  end))%py ;;
                        match saved with
                        | inl message => lift (ret message)
                        | inr _ =>
                            lift
                              (ret
                                 (lit "Document '" ++ filename ++
                                  lit "' processed successfully." ++ [10%N] ++
                                  lit "- Document ID: " ++ document_id ++
                                  [10%N] ++
                                  lit "- Text extracted: " ++
                                  format_thousands (len text) ++
                                  lit " characters" ++ [10%N] ++
                                  lit "- Chunks created: " ++
                                  str_of_int (len chunks) ++ [10%N] ++
                                  lit "- Vectors stored: " ++
                                  str_of_int stored ++ [10%N] ++
                                  lit "- Embedding model: " ++
                                  embedding_model_id ++ [10%N] ++
                                  lit "The document is now searchable in the knowledge base."))
                        end
                    end
                end
            end
        end
  end.

End Upload.

End DocumentManager.

(** ** Notions about [delete_document] *)

Module DocumentSpec.
Import Py Effects VectorSearch DocumentManager.

(** The calls of the cleanup loop when none of them fails: every page is
    fetched, and the objects of a page that has any are deleted. *)
Definition cleanup_calls (Prefix : str) (pages : list (option (list str)))
    : list s3_call :=
  concat
    (map (fun page =>
            ListObjectsV2 Prefix ::
            match default [] page with
            | [] => []
            | k :: ks => [DeleteObjects (k :: ks)]
            end) pages).

(** The text returned after a deletion without errors. *)
Definition deleted_successfully (filename document_id : str)
    (deleted_vectors : Z) : str :=
  lit "Document '" ++ filename ++ lit "' (ID: " ++ document_id ++
  lit ") deleted successfully." ++ [10%N] ++
  lit "- Vectors removed: " ++ str_of_int deleted_vectors ++
  [10%N] ++ lit "- S3 files cleaned up".

(** The text returned after a deletion with errors. *)
Definition partially_deleted (filename document_id : str)
    (deleted_vectors : Z) (errors : list str) : str :=
  lit "Document '" ++ filename ++ lit "' (ID: " ++ document_id ++
  lit ") partially deleted." ++ [10%N] ++
  lit "Vectors removed: " ++ str_of_int deleted_vectors ++ [10%N] ++
  lit "Errors: " ++ join (lit "; ") errors.

(** What [delete_document] returns after the deletions. *)
Definition report (filename document_id : str) (deleted_vectors : Z)
    (errors : list str) : str :=
  match errors with
  | [] => deleted_successfully filename document_id deleted_vectors
  | _ :: _ => partially_deleted filename document_id deleted_vectors errors
  end.

(** The prefix under which the objects of a document are kept. *)
Definition document_prefix (document_id : str) : str :=
  lit "documents/" ++ document_id ++ lit "/".

(** What [delete_document] returns when the metadata cannot be fetched. *)
Definition metadata_error (document_id : str) (e : exn) : result str :=
  match e with
  | ClientError error_code description =>
      Ok (if bool_decide (error_code = lit "NoSuchKey")
          then lit "Error: Document with ID '" ++ document_id ++
               lit "' not found."
          else lit "Error reading document metadata: " ++ description)
  | OtherError _ => Raise e
  end.

(** The key under which [upload_document] saves the chunk texts. *)
Definition chunks_key (document_id : str) : str :=
  lit "documents/" ++ document_id ++ lit "/chunks.json".

(** The text [upload_document] would return for an empty chunk list. *)
Definition no_chunks_error (filename : str) : str :=
  lit "Error: No text chunks could be created from '" ++ filename ++ lit "'.".

(** The text [upload_document] returns after a complete upload. *)
Definition processed_successfully (filename document_id : str)
    (text_length chunk_count stored : Z) (embedding_model_id : str) : str :=
  lit "Document '" ++ filename ++ lit "' processed successfully." ++ [10%N] ++
  lit "- Document ID: " ++ document_id ++ [10%N] ++
  lit "- Text extracted: " ++ format_thousands text_length ++
  lit " characters" ++ [10%N] ++
  lit "- Chunks created: " ++ str_of_int chunk_count ++ [10%N] ++
  lit "- Vectors stored: " ++ str_of_int stored ++ [10%N] ++
  lit "- Embedding model: " ++ embedding_model_id ++ [10%N] ++
  lit "The document is now searchable in the knowledge base.".

End DocumentSpec.

(** ** Documents used in the examples *)

Module DocumentExamples.
Import Py Effects Partial EmbeddingsClient VectorSearch Extraction DocumentManager.

(** The S3 client answers every call. *)
Definition never_fails (n : nat) : option exn := None.

Definition access_denied : exn :=
  ClientError (lit "AccessDenied") (lit "Access Denied").

Definition no_such_key : exn :=
  ClientError (lit "NoSuchKey") (lit "The specified key does not exist.").

Definition connection_reset : exn := OtherError (lit "connection reset").

(** The first call fails, the others go through. *)
Definition first_fails (e : exn) (n : nat) : option exn :=
  match n with
  | 0%nat => Some e
  | _ => None
  end.

(** The second call fails, the others go through. *)
Definition second_fails (e : exn) (n : nat) : option exn :=
  match n with
  | 1%nat => Some e
  | _ => None
  end.

(** The metadata of a document of three chunks, and of one of 501. *)
Definition notes (n : nat) : result DocumentMetadata :=
  Ok (mkDocumentMetadata (Some (CountInt 3)) (Some (lit "notes.txt"))).

Definition long_notes (n : nat) : result DocumentMetadata :=
  Ok (mkDocumentMetadata (Some (CountInt 501)) (Some (lit "notes.txt"))).

(** A metadata file whose chunk count is [null]. *)
Definition null_count (n : nat) : result DocumentMetadata :=
  Ok (mkDocumentMetadata (Some (CountOther (lit "NoneType")))
        (Some (lit "notes.txt"))).

Definition unreadable (n : nat) : result DocumentMetadata :=
  Raise (OtherError (lit "Expecting value: line 1 column 1 (char 0)")).

(** A listing of one page that holds the two objects of the document. *)
Definition one_page (n : nat) : option (list str) * list (option (list str)) :=
  (Some [lit "documents/doc/original.txt"; lit "documents/doc/metadata.json"],
   []).

Definition no_calls : s3 := mkS3Client [].

(** An index that holds the first chunk of the document. *)
Definition indexed : s3vectors :=
  mkS3 {[ lit "doc#0" :=
            mkVector (lit "doc#0") [1 # 2]%Q
              (mkMetadata (lit "doc") (lit "notes.txt") 0 (lit "first chunk")) ]}
       [].

(** A text file of two bytes, which decode to a padded line. *)
Definition plain (n : nat) : bytes * option str :=
  ([Byte.x68; Byte.x69], Some (lit "text/plain")).

Definition greeting (file_content : bytes) : outcome str :=
  Returns (lit " hi there ").

Definition unused {A : Type} (file_content : bytes) : outcome (list A) :=
  Returns [].

Definition titan : str := lit "amazon.titan-embed-text-v2:0".

Definition idle : services := mkServices no_calls Examples.fresh Examples.empty_index.

(** Bedrock answers no call. *)
Definition timed_out (n : nat) (inputText : str) : result embedding :=
  Raise (OtherError (lit "timed out")).

(** The upload of [notes.txt] as document [doc], over the given S3 client,
    Bedrock and S3 Vectors. *)
Definition upload_notes (s3_client_fault : nat -> option exn)
    (bedrock : nat -> str -> result embedding) (s3_fault : nat -> option exn)
    : option (result str * services) :=
  upload_document s3_client_fault plain ascii_lower unused unused greeting
    bedrock Examples.quarter s3_fault (lit "2024-05-01T12:00:00+00:00") titan
    1024 (lit "doc") (lit "notes.txt") idle.

End DocumentExamples.

(** * Properties *)

(** ** Python built-ins *)

Section PyFacts.
Import Py.

Example slice_inside : slice (lit "abcdef") 1 3 = lit "bc".
Proof. reflexivity. Qed.
Example slice_negative : slice (lit "abcdef") 1 (-1) = lit "bcde".
Proof. reflexivity. Qed.
Example slice_crossed : slice (lit "abcdef") 4 2 = [].
Proof. reflexivity. Qed.
Example strip_both : strip (lit "  a b ") = lit "a b".
Proof. reflexivity. Qed.
Example rfind_last : rfind (lit "a. b. c") (lit ". ") = 4.
Proof. reflexivity. Qed.
Example rfind_none : rfind (lit "abc") (lit ". ") = -1.
Proof. reflexivity. Qed.
Example rfind_empty : rfind (lit "abc") [] = 3.
Proof. reflexivity. Qed.
Example str_of_int_12 : str_of_int 12 = lit "12".
Proof. reflexivity. Qed.
Example str_of_int_0 : str_of_int 0 = lit "0".
Proof. reflexivity. Qed.
Example str_of_int_neg : str_of_int (-305) = lit "-305".
Proof. reflexivity. Qed.

Lemma len_nonneg {A} (s : list A) : 0 <= len s.
Proof. unfold len. lia. Qed.

Lemma len_app {A} (s t : list A) : len (s ++ t) = len s + len t.
Proof. unfold len. rewrite length_app. lia. Qed.

(** Inside the bounds a slice is [take] after [drop]. *)
Lemma slice_take_drop {A} (s : list A) (a b : Z) :
  0 <= a -> a <= b -> b <= len s ->
  slice s a b = take (Z.to_nat (b - a)) (drop (Z.to_nat a) s).
Proof.
  intros Ha Hab Hb. unfold slice, adjust_index.
  destruct (Z.ltb_spec a 0), (Z.ltb_spec b 0); try lia.
  rewrite !Z.min_l by lia. reflexivity.
Qed.

Lemma slice_len {A} (s : list A) (a b : Z) :
  0 <= a -> a <= b -> b <= len s -> len (slice s a b) = b - a.
Proof.
  intros Ha Hab Hb. rewrite slice_take_drop by lia.
  unfold len in *. rewrite length_take, length_drop. lia.
Qed.

(** [startswith] decides whether [sub] is a prefix. *)
Lemma startswith_take (s sub : str) :
  startswith s sub = true <-> take (length sub) s = sub.
Proof.
  revert s. induction sub as [|x sub IH]; intros s; simpl.
  - split; [intros _; reflexivity | reflexivity].
  - destruct s as [|c s]; simpl.
    + split; discriminate.
    + rewrite andb_true_iff, N.eqb_eq, IH. split.
      * intros [-> ->]. reflexivity.
      * intros H. injection H as -> H. auto.
Qed.

Lemma take_eq_length {A} (n : nat) (s sub : list A) :
  take n s = sub -> n = length sub -> (length sub <= length s)%nat.
Proof.
  intros H Hn. apply (f_equal length) in H. rewrite length_take in H. lia.
Qed.

(** What [rfind_from] returns: -1 when [sub] occurs nowhere, and otherwise
    the offset of the last place where it occurs. *)
Lemma rfind_from_spec (s sub : str) : forall i, 0 <= i ->
  (rfind_from i s sub = -1 /\
   forall k : nat, (k <= length s)%nat -> startswith (drop k s) sub = false)
  \/
  (exists k : nat, rfind_from i s sub = i + Z.of_nat k /\
     (k <= length s)%nat /\ startswith (drop k s) sub = true /\
     forall k' : nat, (k < k')%nat -> (k' <= length s)%nat ->
       startswith (drop k' s) sub = false).
Proof.
  induction s as [|c s IH]; intros i Hi.
  - cbn [rfind_from]. destruct (startswith [] sub) eqn:E.
    + right. exists 0%nat. split; [lia|]. split; [simpl; lia|].
      split; [exact E|]. intros k' ? ?. simpl in *. lia.
    + left. split; auto. intros k Hk. simpl in Hk.
      assert (k = 0%nat) as -> by lia. exact E.
  - cbn [rfind_from].
    destruct (IH (i + 1) ltac:(lia)) as [[Hr Hno]|(k & Hr & Hk & Hat & Hlast)].
    + rewrite Hr. simpl (_ =? _). destruct (startswith (c :: s) sub) eqn:E.
      * right. exists 0%nat. split; [lia|]. split; [simpl; lia|].
        split; [exact E|].
        intros k' Hlt Hle. destruct k' as [|k']; [lia|].
        simpl. apply Hno. simpl in Hle. lia.
      * left. split; auto. intros k Hk. destruct k as [|k]; [exact E|].
        simpl. apply Hno. simpl in Hk. lia.
    + rewrite Hr. destruct (Z.eqb_spec (i + 1 + Z.of_nat k) (-1)); [lia|].
      right. exists (S k). split; [lia|]. split; [simpl; lia|].
      split; [exact Hat|].
      intros k' Hlt Hle. destruct k' as [|k']; [lia|].
      simpl. apply Hlast; simpl in Hle; lia.
Qed.

(** [rfind] never returns anything below -1, and a found index leaves room
    for [sub]. *)
Lemma rfind_bounds (s sub : str) :
  rfind s sub = -1 \/ (0 <= rfind s sub /\ rfind s sub + len sub <= len s).
Proof.
  unfold rfind.
  destruct (rfind_from_spec s sub 0 ltac:(lia)) as [[Hr _]|(k & Hr & Hk & Hat & _)].
  - left. exact Hr.
  - right. rewrite Hr. split; [lia|].
    apply startswith_take in Hat.
    apply take_eq_length in Hat; [|reflexivity].
    rewrite length_drop in Hat. unfold len. lia.
Qed.

End PyFacts.

(** ** Rounding to binary64 *)

Section Rounding.
Import Float64.
Local Open Scope Q_scope.

(** The three ways in which [round_half_even] rounds. *)
Lemma round_half_even_cases (q : Q) :
  let f := Qfloor q in
  (q - inject_Z f < 1 # 2 /\ round_half_even q = f) \/
  (1 # 2 < q - inject_Z f /\ round_half_even q = (f + 1)%Z) \/
  (q - inject_Z f == 1 # 2 /\
   round_half_even q = if Z.even f then f else (f + 1)%Z).
Proof.
  cbv zeta. unfold round_half_even.
  destruct (Qcompare_spec (q - inject_Z (Qfloor q)) (1 # 2)); auto.
Qed.

Lemma floor_bounds (q : Q) :
  inject_Z (Qfloor q) <= q /\ q < inject_Z (Qfloor q) + 1.
Proof.
  split; [apply Qfloor_le|].
  pose proof (Qlt_floor q) as H. rewrite inject_Z_plus in H. exact H.
Qed.

Lemma round_half_even_mono (x y : Q) :
  x <= y -> (round_half_even x <= round_half_even y)%Z.
Proof.
  intros Hle. pose proof (Qfloor_resp_le x y Hle) as Hfloor.
  destruct (floor_bounds x) as [Hx1 Hx2], (floor_bounds y) as [Hy1 Hy2].
  destruct (round_half_even_cases x) as [[Hx ->]|[[Hx ->]|[Hx ->]]];
    destruct (round_half_even_cases y) as [[Hy ->]|[[Hy ->]|[Hy ->]]];
    cbv zeta in *;
    destruct (Z.eq_dec (Qfloor x) (Qfloor y)) as [Heq|Hne];
    try rewrite Heq in *;
    repeat match goal with
           | |- context [Z.even ?f] => destruct (Z.even f)
           end;
    try lia; try (exfalso; lra).
Qed.

Lemma round_half_even_Z (n : Z) : round_half_even (inject_Z n) = n.
Proof.
  unfold round_half_even. rewrite Qfloor_Z.
  destruct (Qcompare_spec (inject_Z n - inject_Z n) (1 # 2)) as [H|H|H].
  - exfalso. lra.
  - reflexivity.
  - exfalso. lra.
Qed.

(** Powers of 2. *)
Lemma pow2_pos (e : Z) : 0 < Qpower 2 e.
Proof. apply Qpower_0_lt. reflexivity. Qed.

Lemma pow2_add (a b : Z) : Qpower 2 (a + b) == Qpower 2 a * Qpower 2 b.
Proof. apply Qpower_plus. discriminate. Qed.

Lemma pow2_le (a b : Z) : (a <= b)%Z -> Qpower 2 a <= Qpower 2 b.
Proof. intros H. apply Qpower_le_compat_l; [exact H|discriminate]. Qed.

Lemma pow2_lt_inv (a b : Z) : Qpower 2 a < Qpower 2 b -> (a < b)%Z.
Proof. intros H. apply (Qpower_lt_compat_l_inv 2); [exact H|reflexivity]. Qed.

Lemma pow2_Z (a : Z) : (0 <= a)%Z -> inject_Z (2 ^ a) == Qpower 2 a.
Proof. intros H. apply (Zpower_Qpower 2 a H). Qed.

(** [exponent] is the integer part of the binary logarithm. *)
Lemma exponent_spec (q : Q) :
  0 < q -> Qpower 2 (exponent q) <= q /\ q < Qpower 2 (exponent q + 1).
Proof.
  intros Hpos. unfold exponent.
  set (n := Qnum q). set (d := Zpos (Qden q)).
  assert (Hn : (0 < n)%Z).
  { unfold n. unfold Qlt in Hpos. cbn [Qnum Qden] in Hpos. lia. }
  assert (Hd : (0 < d)%Z) by (unfold d; lia).
  destruct (Z.log2_spec n Hn) as [Hn1 Hn2].
  destruct (Z.log2_spec d Hd) as [Hd1 Hd2].
  pose proof (Z.log2_nonneg n) as Ha. pose proof (Z.log2_nonneg d) as Hb.
  set (a := Z.log2 n) in *. set (b := Z.log2 d) in *.
  assert (Hq : q == inject_Z n / inject_Z d).
  { destruct q as [qn qd]. apply Qmake_Qdiv. }
  assert (Hdq : 0 < inject_Z d).
  { unfold Qlt. cbn [Qnum Qden inject_Z]. lia. }
  assert (Hlow : Qpower 2 (a - b - 1) <= q).
  { rewrite Hq. apply Qle_shift_div_l; [exact Hdq|].
    apply Qle_trans with (Qpower 2 (a - b - 1) * Qpower 2 (b + 1)).
    - apply Qmult_le_l; [apply pow2_pos|].
      rewrite <- pow2_Z by lia. rewrite <- Zle_Qle. lia.
    - rewrite <- pow2_add. replace (a - b - 1 + (b + 1))%Z with a by lia.
      rewrite <- pow2_Z by lia. rewrite <- Zle_Qle. exact Hn1. }
  assert (Hhigh : q < Qpower 2 (a - b + 1)).
  { rewrite Hq. apply Qlt_shift_div_r; [exact Hdq|].
    apply Qlt_le_trans with (Qpower 2 (a - b + 1) * Qpower 2 b).
    - rewrite <- pow2_add. replace (a - b + 1 + b)%Z with (Z.succ a) by lia.
      rewrite <- pow2_Z by lia. rewrite <- Zlt_Qlt. exact Hn2.
    - apply Qmult_le_l; [apply pow2_pos|].
      rewrite <- pow2_Z by lia. rewrite <- Zle_Qle. exact Hd1. }
  destruct (Qle_bool (Qpower 2 (a - b)) q) eqn:Htest.
  - apply Qle_bool_iff in Htest. split; [exact Htest|exact Hhigh].
  - assert (Hlt : q < Qpower 2 (a - b)).
    { apply Qnot_le_lt. intros Hle. apply Qle_bool_iff in Hle. congruence. }
    split; [exact Hlow|].
    replace (a - b - 1 + 1)%Z with (a - b)%Z by lia. exact Hlt.
Qed.

Lemma exponent_mono (x y : Q) :
  0 < x -> x <= y -> (exponent x <= exponent y)%Z.
Proof.
  intros Hx Hle.
  destruct (exponent_spec x Hx) as [Hx1 _].
  destruct (exponent_spec y) as [_ Hy2]; [lra|].
  assert (H : Qpower 2 (exponent x) < Qpower 2 (exponent y + 1)) by lra.
  apply pow2_lt_inv in H. lia.
Qed.

(** The rounded number lies in the binade of the number. *)
Lemma binary64_positive_bounds (q : Q) :
  0 < q ->
  Qpower 2 (exponent q) <= binary64_positive q /\
  binary64_positive q <= Qpower 2 (exponent q + 1).
Proof.
  intros Hpos. destruct (exponent_spec q Hpos) as [Hlow Hhigh].
  unfold binary64_positive. set (e := exponent q) in *.
  set (ulp := Qpower 2 (e - 52)).
  assert (Hulp : 0 < ulp) by apply pow2_pos.
  assert (H52 : inject_Z (2 ^ 52) * ulp == Qpower 2 e).
  { unfold ulp. rewrite pow2_Z by lia. rewrite <- pow2_add.
    replace (52 + (e - 52))%Z with e by lia. reflexivity. }
  assert (H53 : inject_Z (2 ^ 53) * ulp == Qpower 2 (e + 1)).
  { unfold ulp. rewrite pow2_Z by lia. rewrite <- pow2_add.
    replace (53 + (e - 52))%Z with (e + 1)%Z by lia. reflexivity. }
  assert (Hm1 : (2 ^ 52 <= round_half_even (q / ulp))%Z).
  { rewrite <- (round_half_even_Z (2 ^ 52)) at 1.
    apply round_half_even_mono. apply Qle_shift_div_l; [exact Hulp|].
    rewrite H52. exact Hlow. }
  assert (Hm2 : (round_half_even (q / ulp) <= 2 ^ 53)%Z).
  { rewrite <- (round_half_even_Z (2 ^ 53)) at 1.
    apply round_half_even_mono. apply Qle_shift_div_r; [exact Hulp|].
    rewrite H53. lra. }
  split.
  - rewrite <- H52. apply Qmult_le_compat_r; [|lra].
    rewrite <- Zle_Qle. exact Hm1.
  - rewrite <- H53. apply Qmult_le_compat_r; [|lra].
    rewrite <- Zle_Qle. exact Hm2.
Qed.

Lemma binary64_positive_mono (x y : Q) :
  0 < x -> x <= y -> binary64_positive x <= binary64_positive y.
Proof.
  intros Hx Hle. assert (Hy : 0 < y) by lra.
  pose proof (exponent_mono x y Hx Hle) as He.
  destruct (Z.eq_dec (exponent x) (exponent y)) as [Heq|Hne].
  - unfold binary64_positive. rewrite Heq.
    set (ulp := Qpower 2 (exponent y - 52)).
    assert (Hulp : 0 < ulp) by apply pow2_pos.
    apply Qmult_le_compat_r; [|lra].
    rewrite <- Zle_Qle. apply round_half_even_mono.
    apply Qle_shift_div_l; [exact Hulp|].
    unfold Qdiv. rewrite <- Qmult_assoc, (Qmult_comm (/ ulp)),
      Qmult_inv_r by lra. lra.
  - destruct (binary64_positive_bounds x Hx) as [_ Hx2].
    destruct (binary64_positive_bounds y Hy) as [Hy1 _].
    pose proof (pow2_le (exponent x + 1) (exponent y) ltac:(lia)). lra.
Qed.

Lemma binary64_positive_pos (q : Q) : 0 < q -> 0 < binary64_positive q.
Proof.
  intros Hpos. destruct (binary64_positive_bounds q Hpos) as [H _].
  pose proof (pow2_pos (exponent q)). lra.
Qed.

(** Rounding keeps the sign and the order. *)
Lemma binary64_cases (q : Q) :
  (0 < q /\ binary64 q = binary64_positive q) \/
  (q == 0 /\ binary64 q = 0) \/
  (q < 0 /\ binary64 q = - binary64_positive (- q)).
Proof.
  unfold binary64. destruct (Qcompare_spec q 0); auto.
Qed.

Lemma binary64_mono (x y : Q) : x <= y -> binary64 x <= binary64 y.
Proof.
  intros Hle.
  destruct (binary64_cases x) as [[Hx ->]|[[Hx ->]|[Hx ->]]];
    destruct (binary64_cases y) as [[Hy ->]|[[Hy ->]|[Hy ->]]];
    try (exfalso; lra).
  - apply binary64_positive_mono; assumption.
  - pose proof (binary64_positive_pos y Hy). lra.
  - lra.
  - pose proof (binary64_positive_pos (- x) ltac:(lra)).
    pose proof (binary64_positive_pos y Hy). lra.
  - pose proof (binary64_positive_pos (- x) ltac:(lra)). lra.
  - pose proof (binary64_positive_mono (- y) (- x) ltac:(lra) ltac:(lra)). lra.
Qed.

Lemma binary64_one : binary64 1 == 1.
Proof. vm_compute. reflexivity. Qed.

Lemma binary64_zero : binary64 0 == 0.
Proof. reflexivity. Qed.

End Rounding.

(** ** [chunk_text]: the window and its break point *)

Section WindowFacts.
Import Py TextProcessing ChunkSpec.

(** A break found by the separator loop lies after [search_start] and leaves
    the searched text on its left. *)
Lemma try_separators_bounds search_text search_start seps r :
  try_separators search_text search_start seps = Some r ->
  search_start <= r /\ r <= search_start + len search_text.
Proof.
  induction seps as [|sep seps IH]; simpl; [discriminate|].
  destruct (Z.eqb_spec (rfind search_text sep) (-1)) as [E|E]; simpl.
  - exact IH.
  - intros [= <-]. pose proof (len_nonneg sep).
    destruct (rfind_bounds search_text sep); lia.
Qed.

Lemma find_break_point_gt (txt : str) (start end_ : Z) :
  start < end_ -> start < _find_break_point txt start end_.
Proof.
  intros Hlt. unfold _find_break_point.
  destruct (try_separators _ _ separators) as [r|] eqn:E.
  - apply try_separators_bounds in E. lia.
  - destruct (Z.eqb_spec (rfind (slice txt (Z.max (start + 1) (end_ - 200)) end_)
                            (lit " ")) (-1)) as [F|F]; simpl; [lia|].
    destruct (rfind_bounds (slice txt (Z.max (start + 1) (end_ - 200)) end_)
                (lit " ")); lia.
Qed.

Lemma find_break_point_le (txt : str) (start end_ : Z) :
  0 <= start -> start < end_ -> end_ <= len txt ->
  _find_break_point txt start end_ <= end_.
Proof.
  intros H0 Hlt Hle. unfold _find_break_point.
  assert (Hlen : len (slice txt (Z.max (start + 1) (end_ - 200)) end_)
                 = end_ - Z.max (start + 1) (end_ - 200))
    by (apply slice_len; lia).
  destruct (try_separators _ _ separators) as [r|] eqn:E.
  - apply try_separators_bounds in E. lia.
  - destruct (Z.eqb_spec (rfind (slice txt (Z.max (start + 1) (end_ - 200)) end_)
                            (lit " ")) (-1)) as [F|F]; simpl; [lia|].
    destruct (rfind_bounds (slice txt (Z.max (start + 1) (end_ - 200)) end_)
                (lit " ")) as [|[? Hb]]; [lia|].
    change (len (lit " ")) with 1 in Hb. lia.
Qed.

(** The window ends strictly after its start. *)
Lemma window_end_gt (txt : str) (chunk_size start : Z) :
  1 <= chunk_size -> start < len txt ->
  start < window_end txt chunk_size start.
Proof.
  intros Hcs Hlt. unfold window_end.
  destruct (Z.ltb_spec (Z.min (start + chunk_size) (len txt)) (len txt)).
  - apply find_break_point_gt. lia.
  - lia.
Qed.

(** ... and inside the text. *)
Lemma window_end_le (txt : str) (chunk_size start : Z) :
  1 <= chunk_size -> 0 <= start -> start < len txt ->
  window_end txt chunk_size start <= len txt.
Proof.
  intros Hcs H0 Hlt. unfold window_end.
  destruct (Z.ltb_spec (Z.min (start + chunk_size) (len txt)) (len txt)).
  - etransitivity; [apply find_break_point_le; lia|lia].
  - lia.
Qed.

(** The start of the next window, as the last three lines of the loop body
    compute it. *)
Lemma loop_body_start (txt : str) (chunk_size chunk_overlap : Z) st :
  start (loop_body txt chunk_size chunk_overlap st) =
    let end_ := window_end txt chunk_size (start st) in
    if end_ - chunk_overlap <=? start st then end_ else end_ - chunk_overlap.
Proof. reflexivity. Qed.

Lemma loop_body_advances (txt : str) (chunk_size chunk_overlap : Z) st :
  1 <= chunk_size -> start st < len txt ->
  start st < start (loop_body txt chunk_size chunk_overlap st).
Proof.
  intros Hcs Hlt. rewrite loop_body_start. cbv zeta.
  pose proof (window_end_gt txt chunk_size (start st) Hcs Hlt).
  destruct (Z.leb_spec (window_end txt chunk_size (start st) - chunk_overlap)
              (start st)); lia.
Qed.

(** Fuel that covers the distance to the end of the text is enough. *)
Lemma while_loop_enough_fuel (txt : str) (chunk_size chunk_overlap : Z) :
  1 <= chunk_size ->
  forall (fuel : nat) st,
    len txt - start st <= Z.of_nat fuel ->
    exists result, while_loop fuel txt chunk_size chunk_overlap st = Some result.
Proof.
  intros Hcs. induction fuel as [|fuel IH]; intros st Hfuel; simpl.
  - destruct (Z.ltb_spec (start st) (len txt)); [lia|eauto].
  - destruct (Z.ltb_spec (start st) (len txt)); [|eauto].
    apply IH.
    pose proof (loop_body_advances txt chunk_size chunk_overlap st Hcs). lia.
Qed.

(** More fuel does not change a result. *)
Lemma while_loop_more_fuel (txt : str) (chunk_size chunk_overlap : Z) :
  forall (fuel extra : nat) st result,
    while_loop fuel txt chunk_size chunk_overlap st = Some result ->
    while_loop (fuel + extra) txt chunk_size chunk_overlap st = Some result.
Proof.
  induction fuel as [|fuel IH]; intros extra st result; simpl.
  - destruct (Z.ltb_spec (start st) (len txt)) as [Hlt|Hge]; [discriminate|].
    intros <-. destruct extra; simpl;
      destruct (Z.ltb_spec (start st) (len txt)); auto; lia.
  - destruct (Z.ltb_spec (start st) (len txt)); auto.
Qed.

(** A window of width 0 never advances: the loop does not end. *)
Lemma while_loop_zero_width_diverges (fuel : nat) :
  while_loop fuel (lit "a") 0 0 (mkLoop [] 0 0) = None.
Proof. induction fuel as [|fuel IH]; [reflexivity|exact IH]. Qed.

End WindowFacts.

Section Termination.
Import Py TextProcessing ChunkSpec.

(** C1.  With [chunk_size >= 1] and [chunk_overlap >= 0] (the overlap may
    exceed the size) segmentation terminates: every run of the loop body
    moves [start] strictly forward, the next start being the chosen end
    whenever the chosen end minus the overlap does not exceed the current
    start; the loop is over after at most [len(text)] iterations, and
    [chunk_text] returns a list. *)
Theorem chunk_text_terminates (txt : str) (chunk_size chunk_overlap : Z) :
  1 <= chunk_size -> 0 <= chunk_overlap ->
  (forall st, start st < len txt ->
     start st < start (loop_body txt chunk_size chunk_overlap st)) /\
  (forall st,
     window_end txt chunk_size (start st) - chunk_overlap <= start st ->
     start (loop_body txt chunk_size chunk_overlap st)
       = window_end txt chunk_size (start st)) /\
  (exists (n : nat) result,
     (n <= length txt)%nat /\
     while_loop n txt chunk_size chunk_overlap (mkLoop [] 0 0) = Some result) /\
  (exists result, chunk_text txt chunk_size chunk_overlap = Some result).
Proof.
  intros Hcs Hco. split; [|split; [|split]].
  - intros st Hlt. apply loop_body_advances; assumption.
  - intros st Hforced. rewrite loop_body_start. cbv zeta.
    destruct (Z.leb_spec (window_end txt chunk_size (start st) - chunk_overlap)
                (start st)); [reflexivity|lia].
  - destruct (while_loop_enough_fuel txt chunk_size chunk_overlap Hcs
                (length txt) (mkLoop [] 0 0)) as [result Hres].
    + cbn [start]. unfold len. lia.
    + exists (length txt), result. split; [lia|exact Hres].
  - unfold chunk_text. destruct txt as [|c txt']; [eauto|].
    destruct (len (c :: txt') <=? chunk_size); [eauto|].
    apply while_loop_enough_fuel; [assumption|].
    cbn [start]. unfold len. lia.
Qed.

(** An overlap larger than the chunk size: the loop still ends. *)
Lemma chunk_text_terminates_witness :
  1 <= 3 /\ 0 <= 5 /\
  exists result, chunk_text (lit "one two three four") 3 5 = Some result.
Proof.
  split; [lia|]. split; [lia|].
  apply (chunk_text_terminates (lit "one two three four") 3 5); lia.
Defined.

End Termination.

(** ** [chunk_text]: the chunks *)

Section Chunks.
Import Py TextProcessing ChunkSpec.

Lemma indices_sequential_snoc (cs : list TextChunk) c :
  indices_sequential cs -> index c = len cs ->
  indices_sequential (cs ++ [c]).
Proof.
  intros Hseq Hc i d Hi. apply lookup_app_Some in Hi as [Hi|[Hge Hi]].
  - apply Hseq, Hi.
  - apply list_lookup_singleton_Some in Hi as [Hi <-].
    rewrite Hc. unfold len. lia.
Qed.

Lemma starts_increasing_snoc (cs : list TextChunk) c :
  starts_increasing cs ->
  Forall (fun d => start_char d < start_char c) cs ->
  starts_increasing (cs ++ [c]).
Proof.
  intros Hinc Hall i j d e Hi Hj Hij.
  apply lookup_app_Some in Hj as [Hj|[Hge Hj]].
  - assert (Hi' : cs !! i = Some d).
    { apply lookup_lt_Some in Hj. rewrite lookup_app_l in Hi by lia. exact Hi. }
    eapply Hinc; eauto.
  - apply list_lookup_singleton_Some in Hj as [Hj <-].
    assert (Hi' : cs !! i = Some d).
    { rewrite lookup_app_l in Hi by lia. exact Hi. }
    rewrite Forall_forall in Hall. apply Hall.
    eapply list_elem_of_lookup_2, Hi'.
Qed.

(** The loop body keeps the invariant. *)
Lemma loop_body_invariant (txt : str) (chunk_size chunk_overlap : Z) st :
  1 <= chunk_size -> 0 <= chunk_overlap ->
  start st < len txt ->
  loop_invariant txt st ->
  loop_invariant txt (loop_body txt chunk_size chunk_overlap st).
Proof.
  intros Hcs Hco Hlt (H0 & Hidx & Hseq & Hinc & Hall).
  pose proof (loop_body_advances txt chunk_size chunk_overlap st Hcs Hlt) as Hadv.
  pose proof (window_end_gt txt chunk_size (start st) Hcs Hlt) as Hgt.
  pose proof (window_end_le txt chunk_size (start st) Hcs H0 Hlt) as Hle.
  unfold loop_body in *. cbv zeta in *.
  set (end_ := window_end txt chunk_size (start st)) in *.
  set (next := if end_ - chunk_overlap <=? start st then end_
               else end_ - chunk_overlap) in *.
  cbn [start] in Hadv.
  destruct (strip (slice txt (start st) end_)) as [|c content] eqn:Hstrip;
    cbn [fst snd chunks start next_index].
  - unfold loop_invariant. cbn [chunks start next_index].
    split; [lia|]. do 3 (split; [assumption|]).
    eapply Forall_impl; [exact Hall|]. cbn beta. intros d (? & ? & ?).
    split; [assumption|]. split; [assumption|lia].
  - unfold loop_invariant. cbn [chunks start next_index].
    split; [lia|]. split; [rewrite len_app, Hidx; reflexivity|].
    split; [apply indices_sequential_snoc; assumption|].
    split.
    + apply starts_increasing_snoc; [assumption|].
      eapply Forall_impl; [exact Hall|]. cbn beta. intros d (? & ? & ?).
      assumption.
    + apply Forall_app. split.
      * eapply Forall_impl; [exact Hall|]. cbn beta. intros d (? & ? & ?).
        split; [assumption|]. split; [assumption|lia].
      * apply Forall_singleton. unfold offsets_in_text, text_trimmed.
        cbn [text start_char end_char]. rewrite Hstrip.
        split; [lia|]. split; [|lia]. split; [reflexivity|discriminate].
Qed.

(** A result of the loop, started in the invariant, is well-formed. *)
Lemma while_loop_well_formed (txt : str) (chunk_size chunk_overlap : Z) :
  1 <= chunk_size -> 0 <= chunk_overlap ->
  forall (fuel : nat) st result,
    loop_invariant txt st ->
    while_loop fuel txt chunk_size chunk_overlap st = Some result ->
    well_formed txt result.
Proof.
  intros Hcs Hco. induction fuel as [|fuel IH]; intros st result Hinv; simpl;
    destruct (Z.ltb_spec (start st) (len txt)) as [Hlt|Hge];
    try discriminate.
  - intros [= <-]. destruct Hinv as (_ & _ & Hseq & Hinc & Hall).
    split; [assumption|]. split; [assumption|].
    eapply Forall_impl; [exact Hall|]. cbn beta. intros d (? & ? & ?). auto.
  - apply IH. apply loop_body_invariant; assumption.
  - intros [= <-]. destruct Hinv as (_ & _ & Hseq & Hinc & Hall).
    split; [assumption|]. split; [assumption|].
    eapply Forall_impl; [exact Hall|]. cbn beta. intros d (? & ? & ?). auto.
Qed.

Lemma loop_invariant_init (txt : str) : loop_invariant txt (mkLoop [] 0 0).
Proof.
  unfold loop_invariant. cbn [start chunks next_index].
  split; [lia|]. split; [reflexivity|]. split; [|split].
  - intros i c Hi. rewrite lookup_nil in Hi. discriminate.
  - intros i j c d Hi. rewrite lookup_nil in Hi. discriminate.
  - constructor.
Qed.

End Chunks.

Section ChunkList.
Import Py TextProcessing ChunkSpec.

(** C2, as stated, fails on a text that fits in one chunk: the text is
    returned as it is, with its leading blank, while the trimmed slice
    between the chunk's offsets is ["a"]. *)
Lemma short_text_chunk_not_trimmed :
  0 <= 0 /\ 0 < 10 /\
  ~ (exists result,
       chunk_text (lit " a") 10 0 = Some result /\
       well_formed (lit " a") result).
Proof.
  split; [lia|]. split; [lia|].
  intros (result & Hres & _ & _ & Hall).
  vm_compute in Hres. injection Hres as <-.
  apply Forall_inv in Hall. destruct Hall as [_ [Htext _]].
  vm_compute in Htext. discriminate.
Qed.

(** C2, amended.  For [0 <= chunk_overlap < chunk_size], [chunk_text] returns
    a list whose indices are 0..n-1 in order, whose start offsets strictly
    increase and whose chunks satisfy [0 <= start_char < end_char <= len(text)];
    when the text is longer than [chunk_size] every chunk's text is the
    trimmed slice between its offsets and is not empty; a non-empty text of
    at most [chunk_size] characters comes back as one chunk holding the text
    as it is, from 0 to [len(text)]. *)
Theorem chunk_text_well_formed (txt : str) (chunk_size chunk_overlap : Z) :
  0 <= chunk_overlap -> chunk_overlap < chunk_size ->
  exists result,
    chunk_text txt chunk_size chunk_overlap = Some result /\
    indices_sequential result /\
    starts_increasing result /\
    Forall (offsets_in_text txt) result /\
    (chunk_size < len txt -> Forall (text_trimmed txt) result) /\
    (txt <> [] -> len txt <= chunk_size ->
       result = [mkTextChunk txt 0 0 (len txt)]).
Proof.
  intros Hco Hlt. assert (Hcs : 1 <= chunk_size) by lia.
  unfold chunk_text. destruct txt as [|c txt'] eqn:Etxt.
  - exists []. split; [reflexivity|].
    split; [intros i d Hi; rewrite lookup_nil in Hi; discriminate|].
    split; [intros i j d e Hi; rewrite lookup_nil in Hi; discriminate|].
    split; [constructor|]. split; [constructor|]. intros H; contradiction.
  - rewrite <- Etxt.
    assert (Hpos : 0 < len txt) by (subst txt; unfold len; simpl; lia).
    destruct (Z.leb_spec (len txt) chunk_size) as [Hshort|Hlong].
    + exists [mkTextChunk txt 0 0 (len txt)]. split; [reflexivity|].
      split.
      { intros i d Hi. apply list_lookup_singleton_Some in Hi as [-> <-].
        reflexivity. }
      split.
      { intros i j d e Hi Hj Hij.
        apply list_lookup_singleton_Some in Hi as [-> _].
        apply list_lookup_singleton_Some in Hj as [-> _]. lia. }
      split.
      { apply Forall_singleton. unfold offsets_in_text.
        cbn [start_char end_char]. lia. }
      split; [lia|reflexivity].
    + destruct (while_loop_enough_fuel txt chunk_size chunk_overlap Hcs
                  (length txt) (mkLoop [] 0 0)) as [result Hres].
      { cbn [start]. unfold len. lia. }
      exists result. split; [exact Hres|].
      destruct (while_loop_well_formed txt chunk_size chunk_overlap Hcs Hco
                  (length txt) (mkLoop [] 0 0) result
                  (loop_invariant_init txt) Hres) as (Hseq & Hinc & Hall).
      split; [exact Hseq|]. split; [exact Hinc|].
      split; [eapply Forall_impl; [exact Hall|]; cbn beta; tauto|].
      split; [intros _; eapply Forall_impl; [exact Hall|]; cbn beta; tauto|].
      intros _ Hle. lia.
Qed.

Lemma chunk_text_well_formed_witness :
  0 <= 3 /\ 3 < 10 /\
  exists result,
    chunk_text (lit "hello world. this is a test! of the chunker") 10 3
      = Some result /\
    indices_sequential result.
Proof.
  split; [lia|]. split; [lia|].
  destruct (chunk_text_well_formed
              (lit "hello world. this is a test! of the chunker") 10 3)
    as (result & Hres & Hseq & _); [lia|lia|].
  exists result. split; assumption.
Defined.

End ChunkList.

(** ** [_find_break_point]: which break is chosen *)

Section BreakPoint.
Import Py TextProcessing ChunkSpec.

Lemma startswith_occurs (s sub : str) (k : nat) :
  (k <= length s)%nat ->
  startswith (drop k s) sub = true <-> occurs_at s sub (Z.of_nat k).
Proof.
  intros Hk. rewrite startswith_take. unfold occurs_at.
  rewrite Nat2Z.id. split.
  - intros H. split; [lia|]. split; [|exact H].
    apply take_eq_length in H; [|reflexivity].
    rewrite length_drop in H. unfold len. lia.
  - intros (_ & _ & H). exact H.
Qed.

(** [rfind] returns the last occurrence ... *)
Lemma rfind_last_occurrence (s sub : str) :
  rfind s sub <> -1 ->
  occurs_at s sub (rfind s sub) /\
  forall j, occurs_at s sub j -> j <= rfind s sub.
Proof.
  unfold rfind. intros Hfound.
  destruct (rfind_from_spec s sub 0 ltac:(lia))
    as [[Hr _]|(k & Hr & Hk & Hat & Hlast)]; [contradiction|].
  rewrite Hr, Z.add_0_l. split.
  - apply startswith_occurs; assumption.
  - intros j Hj. destruct (Z_le_gt_dec j (Z.of_nat k)) as [|Hgt]; [assumption|].
    pose proof Hj as (Hj0 & Hjlen & _). pose proof (len_nonneg sub).
    assert (Hj' : (Z.to_nat j <= length s)%nat) by (unfold len in *; lia).
    rewrite <- (Z2Nat.id j) in Hj by lia.
    apply startswith_occurs in Hj; [|assumption].
    rewrite Hlast in Hj by lia. discriminate.
Qed.

(** ... and -1 exactly when there is none. *)
Lemma rfind_no_occurrence (s sub : str) :
  rfind s sub = -1 -> forall j, ~ occurs_at s sub j.
Proof.
  unfold rfind. intros Hr j Hj.
  destruct (rfind_from_spec s sub 0 ltac:(lia))
    as [[_ Hno]|(k & Hr' & _)]; [|lia].
  pose proof Hj as (Hj0 & Hjlen & _). pose proof (len_nonneg sub).
  assert (Hj' : (Z.to_nat j <= length s)%nat) by (unfold len in *; lia).
  rewrite <- (Z2Nat.id j) in Hj by lia.
  apply startswith_occurs in Hj; [|assumption].
  rewrite Hno in Hj by assumption. discriminate.
Qed.

Lemma take_drop_take {A} (l : list A) (a i n : nat) :
  (i + a <= n)%nat -> take a (drop i (take n l)) = take a (drop i l).
Proof.
  intros H. rewrite !take_drop_commute, take_take. f_equal. f_equal. lia.
Qed.

(** An occurrence in the searched slice is an occurrence in the text, within
    the bounds of the slice. *)
Lemma occurs_at_slice (txt sub : str) (lo hi i : Z) :
  0 <= lo -> lo <= hi -> hi <= len txt ->
  occurs_at (slice txt lo hi) sub i <-> occurs_within txt sub lo hi (lo + i).
Proof.
  intros H0 Hlh Hhi. unfold occurs_within, occurs_at.
  rewrite slice_len by lia. rewrite slice_take_drop by lia.
  pose proof (len_nonneg sub) as Hsub. unfold len in *.
  split.
  - intros (Hi & Hfit & Heq). split; [lia|]. split; [lia|].
    split; [lia|]. split; [lia|].
    rewrite <- Heq at 2. rewrite take_drop_take by lia.
    rewrite drop_drop. f_equal. f_equal. lia.
  - intros (Hi & Hfit & _ & _ & Heq). split; [lia|]. split; [lia|].
    rewrite <- Heq at 2. rewrite take_drop_take by lia.
    rewrite drop_drop. f_equal. f_equal. lia.
Qed.

(** The separator loop stops at the first separator that [rfind] finds. *)
Lemma try_separators_first (search_text : str) (search_start : Z) seps :
  match try_separators search_text search_start seps with
  | Some r =>
      exists (k : nat) sep,
        seps !! k = Some sep /\ rfind search_text sep <> -1 /\
        r = search_start + rfind search_text sep + len sep /\
        forall (j : nat) sep', (j < k)%nat -> seps !! j = Some sep' ->
          rfind search_text sep' = -1
  | None => forall sep, sep ∈ seps -> rfind search_text sep = -1
  end.
Proof.
  induction seps as [|sep seps IH]; simpl.
  - intros sep Hin. inversion Hin.
  - destruct (Z.eqb_spec (rfind search_text sep) (-1)) as [E|E]; simpl.
    + destruct (try_separators search_text search_start seps) as [r|].
      * destruct IH as (k & sep0 & Hk & Hfound & Hr & Hfirst).
        exists (S k), sep0. split; [exact Hk|]. split; [exact Hfound|].
        split; [exact Hr|]. intros j sep' Hj Hlook.
        destruct j as [|j]; simpl in Hlook.
        -- injection Hlook as <-. exact E.
        -- eapply Hfirst; [|exact Hlook]. lia.
      * intros sep' Hin. apply elem_of_cons in Hin as [->|Hin]; auto.
    + exists 0%nat, sep. split; [reflexivity|]. split; [exact E|].
      split; [reflexivity|]. intros j sep' Hj. lia.
Qed.

(** The single space is tried as one more separator after the six of the
    loop. *)
Lemma find_break_point_priority (txt : str) (start end_ : Z) :
  _find_break_point txt start end_ =
    let search_start := Z.max (start + 1) (end_ - 200) in
    match try_separators (slice txt search_start end_) search_start priority with
    | Some r => r
    | None => end_
    end.
Proof.
  unfold _find_break_point. cbv zeta.
  set (search_start := Z.max (start + 1) (end_ - 200)).
  set (search_text := slice txt search_start end_).
  unfold priority, separators.
  cbn [try_separators app].
  repeat match goal with
  | |- context [negb (rfind search_text ?sep =? -1)] =>
      destruct (negb (rfind search_text sep =? -1)); [reflexivity|]
  end.
  reflexivity.
Qed.

End BreakPoint.

Section BreakPointChoice.
Import Py TextProcessing ChunkSpec.

(** C9.  For a window [start, start + chunk_size) that ends before the end
    of the text, the break is searched in the positions from
    [max(start + 1, start + chunk_size - 200)] up to [start + chunk_size]:
    the separators are tried in the order blank line, newline, [". "],
    ["! "], ["? "], ["; "], space; the break is the position just after the
    last occurrence of the first separator that occurs there, and
    [start + chunk_size] when none occurs. *)
Theorem window_end_break_point (txt : str) (chunk_size start : Z) :
  0 <= start -> 1 <= chunk_size -> start + chunk_size < len txt ->
  let hi := start + chunk_size in
  let lo := Z.max (start + 1) (hi - 200) in
  (forall (k : nat) sep p,
     priority !! k = Some sep ->
     (forall (j : nat) sep' q, (j < k)%nat -> priority !! j = Some sep' ->
        ~ occurs_within txt sep' lo hi q) ->
     occurs_within txt sep lo hi p ->
     (forall q, occurs_within txt sep lo hi q -> q <= p) ->
     window_end txt chunk_size start = p + len sep) /\
  ((forall sep q, sep ∈ priority -> ~ occurs_within txt sep lo hi q) ->
   window_end txt chunk_size start = hi).
Proof.
  intros H0 Hcs Hfit hi lo.
  assert (Hwin : window_end txt chunk_size start
                 = _find_break_point txt start hi).
  { unfold window_end. rewrite Z.min_l by lia. fold hi.
    destruct (Z.ltb_spec hi (len txt)); [reflexivity|lia]. }
  rewrite Hwin, find_break_point_priority. cbv zeta. fold lo.
  assert (Hslice : forall sub i,
            occurs_at (slice txt lo hi) sub i
            <-> occurs_within txt sub lo hi (lo + i))
    by (intros; apply occurs_at_slice; lia).
  pose proof (try_separators_first (slice txt lo hi) lo priority) as Hfirst.
  destruct (try_separators (slice txt lo hi) lo priority) as [r|]; split.
  - intros k sep p Hk Hbefore Hocc Hlast.
    destruct Hfirst as (k' & sep' & Hk' & Hfound & -> & Hnone).
    destruct (rfind_last_occurrence _ _ Hfound) as [Hat Hmax].
    destruct (lt_eq_lt_dec k k') as [[Hlt|Heq]|Hgt].
    + exfalso. pose proof (Hnone k sep Hlt Hk) as Hminus.
      apply (rfind_no_occurrence _ _ Hminus (p - lo)).
      apply Hslice. replace (lo + (p - lo)) with p by lia. exact Hocc.
    + subst k'. rewrite Hk in Hk'. injection Hk' as <-.
      apply Hslice in Hat. apply Hlast in Hat.
      assert (p - lo <= rfind (slice txt lo hi) sep).
      { apply Hmax, Hslice. replace (lo + (p - lo)) with p by lia. exact Hocc. }
      lia.
    + exfalso. apply Hslice in Hat. exact (Hbefore k' sep' _ Hgt Hk' Hat).
  - intros Hnever. exfalso.
    destruct Hfirst as (k' & sep' & Hk' & Hfound & _ & _).
    destruct (rfind_last_occurrence _ _ Hfound) as [Hat _].
    apply Hslice in Hat. eapply Hnever; [|exact Hat].
    eapply list_elem_of_lookup_2, Hk'.
  - intros k sep p Hk _ Hocc _. exfalso.
    assert (Hin : sep ∈ priority) by (eapply list_elem_of_lookup_2, Hk).
    apply (rfind_no_occurrence _ _ (Hfirst sep Hin) (p - lo)).
    apply Hslice. replace (lo + (p - lo)) with p by lia. exact Hocc.
  - intros _. reflexivity.
Qed.

(** In ["ab. cd ef gh"] with windows of 8 characters the sentence end wins
    over the later space: the first window ends after [". "]. *)
Lemma window_end_break_point_witness :
  0 <= 0 /\ 1 <= 8 /\ 0 + 8 < len (lit "ab. cd ef gh") /\
  window_end (lit "ab. cd ef gh") 8 0 = 2 + len (lit ". ").
Proof.
  split; [lia|]. split; [lia|]. split; [vm_compute; reflexivity|].
  apply (proj1 (window_end_break_point (lit "ab. cd ef gh") 8 0
                  ltac:(lia) ltac:(lia) ltac:(vm_compute; reflexivity))
           2%nat (lit ". ") 2).
  - reflexivity.
  - intros j sep' q Hj Hlook (Hlo & Hhi & _ & _ & Heq).
    destruct j as [|[|j]]; [| |lia]; injection Hlook as <-.
    + assert (Hq : q = 1 \/ q = 2 \/ q = 3 \/ q = 4 \/ q = 5 \/ q = 6)
        by (revert Hlo Hhi; unfold len; simpl; lia).
      destruct Hq as [->|[->|[->|[->|[->| ->]]]]]; vm_compute in Heq;
        discriminate.
    + assert (Hq : q = 1 \/ q = 2 \/ q = 3 \/ q = 4 \/ q = 5 \/ q = 6 \/ q = 7)
        by (revert Hlo Hhi; unfold len; simpl; lia).
      destruct Hq as [->|[->|[->|[->|[->|[->| ->]]]]]]; vm_compute in Heq;
        discriminate.
  - vm_compute. repeat split; congruence.
  - intros q (Hlo & Hhi & _ & _ & Heq).
    assert (Hq : q <= 2 \/ q = 3 \/ q = 4 \/ q = 5 \/ q = 6)
      by (revert Hlo Hhi; unfold len; simpl; lia).
    destruct Hq as [?|[->|[->|[->| ->]]]]; [assumption|..];
      vm_compute in Heq; discriminate.
Defined.

End BreakPointChoice.

(** ** [generate_embedding_vector]: truncation and retries *)

Section Retry.
Import Py Effects EmbeddingsClient EmbedSpec.

Variable bedrock : nat -> str -> result embedding.
Variable uniform : nat -> Q.

Lemma py_min_Qmin (a b : Q) : (py_min a b == Qmin a b)%Q.
Proof.
  unfold py_min. destruct (Qlt_le_dec b a) as [H|H].
  - symmetry. apply Q.min_r. apply Qlt_le_weak, H.
  - symmetry. apply Q.min_l, H.
Qed.

Lemma py_max_Qmax (a b : Q) : (py_max a b == Qmax a b)%Q.
Proof.
  unfold py_max. destruct (Qlt_le_dec a b) as [H|H].
  - symmetry. apply Q.max_r. apply Qlt_le_weak, H.
  - symmetry. apply Q.max_l, H.
Qed.

(** The text that is submitted is the first 30,000 characters. *)
Lemma generate_embedding_vector_truncates (text : str) :
  generate_embedding_vector bedrock uniform text
  = retry_loop bedrock uniform (range (MAX_RETRIES + 1)) (truncated text).
Proof.
  unfold generate_embedding_vector, truncated.
  destruct (Z.ltb_spec EMBEDDING_INPUT_LIMIT_CHARS (len text)) as [Hlong|Hshort].
  - rewrite slice_take_drop.
    + rewrite Z.sub_0_r. reflexivity.
    + lia.
    + unfold EMBEDDING_INPUT_LIMIT_CHARS. lia.
    + lia.
  - rewrite take_ge; [reflexivity|].
    unfold len in Hshort. lia.
Qed.

Lemma is_rate_limit_true (code : str) :
  is_rate_limit code = true <->
  code = lit "ThrottlingException" \/ code = lit "TooManyRequestsException".
Proof.
  unfold is_rate_limit. rewrite orb_true_iff, !bool_decide_eq_true.
  reflexivity.
Qed.

(** One iteration whose call is answered with an embedding. *)
Lemma retry_loop_ok (attempt : Z) rest (body : str) (w : world) v :
  bedrock (length (invocations w)) body = Ok v ->
  retry_loop bedrock uniform (attempt :: rest) body w
  = (Ok (Some v),
     mkWorld (invocations w ++ [(body, Ok v)]) (draws w) (sleeps w)).
Proof.
  intros Hans. cbn [retry_loop]. unfold bind, try_except, invoke_model, ret.
  rewrite Hans. reflexivity.
Qed.

(** One iteration whose call is rate limited, with retries left. *)
Lemma retry_loop_retry (attempt : Z) rest (body : str) (w : world) :
  attempt < MAX_RETRIES ->
  rate_limited (bedrock (length (invocations w)) body) ->
  retry_loop bedrock uniform (attempt :: rest) body w
  = retry_loop bedrock uniform rest body
      (mkWorld
         (invocations w ++ [(body, bedrock (length (invocations w)) body)])
         (S (draws w))
         (sleeps w ++
            [py_min (inject_Z (2 ^ attempt) + uniform (draws w)) 30])).
Proof.
  intros Hlt (code & description & Hans & Hcode).
  cbn [retry_loop].
  unfold bind, try_except, invoke_model, random_uniform, sleep, ret.
  rewrite Hans. cbn [invocations draws sleeps].
  apply is_rate_limit_true in Hcode. rewrite Hcode.
  destruct (Z.ltb_spec attempt MAX_RETRIES); [|lia].
  reflexivity.
Qed.

(** One iteration whose call fails and is not retried. *)
Lemma retry_loop_raise (attempt : Z) rest (body : str) (w : world) e :
  bedrock (length (invocations w)) body = Raise e ->
  ~ rate_limited (Raise e) \/ MAX_RETRIES <= attempt ->
  retry_loop bedrock uniform (attempt :: rest) body w
  = (Raise e,
     mkWorld (invocations w ++ [(body, Raise e)]) (draws w) (sleeps w)).
Proof.
  intros Hans Hstop. cbn [retry_loop].
  unfold bind, try_except, invoke_model, raise.
  rewrite Hans. destruct e as [code description|description]; [|reflexivity].
  destruct (is_rate_limit code && (attempt <? MAX_RETRIES)) eqn:E;
    [|reflexivity].
  exfalso. apply andb_true_iff in E as [Hcode Hlt].
  apply is_rate_limit_true in Hcode. apply Z.ltb_lt in Hlt.
  destruct Hstop as [Hnot|Hge]; [|lia].
  apply Hnot. exists code, description. auto.
Qed.

(** Either the failure is a rate limit with retries left, or it is raised. *)
Lemma classic_rate_limited (e : exn) (attempt : Z) :
  (rate_limited (Raise e) /\ attempt < MAX_RETRIES) \/
  (~ rate_limited (Raise e) \/ MAX_RETRIES <= attempt).
Proof.
  destruct (Z_lt_le_dec attempt MAX_RETRIES) as [Hlt|Hge]; [|auto].
  destruct e as [code description|description].
  - destruct (is_rate_limit code) eqn:E.
    + left. split; [|exact Hlt]. exists code, description.
      split; [reflexivity|]. apply is_rate_limit_true, E.
    + right. left. intros (code' & description' & [= <- <-] & Hcode).
      apply is_rate_limit_true in Hcode. congruence.
  - right. left. intros (code' & description' & [=] & _).
Qed.

(** The world after [k] rate-limited attempts, the first of them being
    attempt number [a]. *)
Lemma retry_loop_rate_limited (body : str) :
  forall (k a n : nat) (w : world),
    (a + k <= 5)%nat -> (k <= n)%nat ->
    (forall j, (j < k)%nat ->
       rate_limited (bedrock (length (invocations w) + j) body)) ->
    retry_loop bedrock uniform (map Z.of_nat (seq a n)) body w
    = retry_loop bedrock uniform (map Z.of_nat (seq (a + k) (n - k))) body
        (mkWorld
           (invocations w ++
              map (fun j => (body, bedrock (length (invocations w) + j) body))
                  (seq 0 k))
           (draws w + k)
           (sleeps w ++
              map (fun j => py_min (inject_Z (2 ^ Z.of_nat (a + j))
                                    + uniform (draws w + j)) 30)
                  (seq 0 k))).
Proof.
  induction k as [|k IH]; intros a n w Ha Hn Hrl.
  - cbn [seq map]. rewrite !app_nil_r, !Nat.add_0_r, Nat.sub_0_r.
    destruct w; reflexivity.
  - destruct n as [|n]; [lia|]. cbn [seq map].
    rewrite retry_loop_retry.
    + rewrite (IH (S a) n); [|lia|lia|].
      * cbn [invocations draws sleeps].
        replace (S a + k)%nat with (a + S k)%nat by lia.
        replace (S n - S k)%nat with (n - k)%nat by lia.
        f_equal. f_equal.
        -- rewrite <- app_assoc. f_equal. cbn [app]. rewrite Nat.add_0_r.
           f_equal. rewrite <- seq_shift, map_map. apply map_ext.
           intros j. rewrite length_app. cbn [length].
           replace (length (invocations w) + 1 + j)%nat
             with (length (invocations w) + S j)%nat by lia.
           reflexivity.
        -- lia.
        -- rewrite <- app_assoc. f_equal. cbn [app].
           rewrite !Nat.add_0_r. f_equal.
           rewrite <- seq_shift, map_map. apply map_ext.
           intros j.
           replace (S a + j)%nat with (a + S j)%nat by lia.
           replace (S (draws w) + j)%nat with (draws w + S j)%nat by lia.
           reflexivity.
      * intros j Hj. cbn [invocations]. rewrite length_app. cbn [length].
        replace (length (invocations w) + 1 + j)%nat
          with (length (invocations w) + S j)%nat by lia.
        apply Hrl. lia.
    + unfold MAX_RETRIES. lia.
    + specialize (Hrl 0%nat ltac:(lia)). rewrite Nat.add_0_r in Hrl. exact Hrl.
Qed.

End Retry.

Section RetryPolicy.
Import Py Effects EmbeddingsClient EmbedSpec.

Variable bedrock : nat -> str -> result embedding.
Variable uniform : nat -> Q.

(** C4.  [generate_embedding_vector] submits the first 30,000 characters of
    the text, on every attempt.  When the first [k <= 5] attempts are rate
    limited ([ThrottlingException] or [TooManyRequestsException]), it has
    waited [min(2^attempt + jitter, 30)] seconds after each of them, with
    the jitter drawn from [0, 1), and attempt [k] decides: an embedding is
    returned; a failure that is not a rate limit is raised at once; and the
    failure of the sixth attempt ([k = 5]) is raised whatever it is.  No
    further call or wait is made. *)
Theorem generate_embedding_vector_retries (text : str) (w : world) (k : nat) :
  (forall n, 0 <= uniform n /\ uniform n < 1)%Q ->
  let body := take (Z.to_nat EMBEDDING_INPUT_LIMIT_CHARS) text in
  let answer := fun j : nat => bedrock (length (invocations w) + j) body in
  let delay := fun j : nat =>
    py_min (inject_Z (2 ^ Z.of_nat j) + uniform (draws w + j)) 30 in
  let after :=
    mkWorld (invocations w ++ map (fun j => (body, answer j)) (seq 0 (S k)))
            (draws w + k)
            (sleeps w ++ map delay (seq 0 k)) in
  (k <= 5)%nat ->
  (forall j, (j < k)%nat -> rate_limited (answer j)) ->
  (forall v, answer k = Ok v ->
     generate_embedding_vector bedrock uniform text w = (Ok (Some v), after)) /\
  (forall e, answer k = Raise e ->
     ~ rate_limited (answer k) \/ k = 5%nat ->
     generate_embedding_vector bedrock uniform text w = (Raise e, after)) /\
  (forall j, (j < k)%nat ->
     (delay j == Qmin (inject_Z (2 ^ Z.of_nat j) + uniform (draws w + j)) 30
      /\ inject_Z (2 ^ Z.of_nat j) <= delay j
      /\ delay j < inject_Z (2 ^ Z.of_nat j) + 1
      /\ delay j <= 30)%Q).
Proof.
  intros Hjitter body answer delay after Hk Hrl.
  assert (Hrun :
    generate_embedding_vector bedrock uniform text w
    = retry_loop bedrock uniform (map Z.of_nat (seq k (6 - k))) body
        (mkWorld (invocations w ++ map (fun j => (body, answer j)) (seq 0 k))
                 (draws w + k) (sleeps w ++ map delay (seq 0 k)))).
  { rewrite generate_embedding_vector_truncates. unfold truncated. fold body.
    change (range (MAX_RETRIES + 1)) with (map Z.of_nat (seq 0 6)).
    rewrite (retry_loop_rate_limited bedrock uniform body k 0 6 w);
      [reflexivity|lia|lia|exact Hrl]. }
  assert (Hseq : seq k (6 - k) = k :: seq (S k) (5 - k)).
  { replace (6 - k)%nat with (S (5 - k)) by lia. reflexivity. }
  assert (Hnow : forall x,
    answer k = x ->
    bedrock (length (invocations
       (mkWorld (invocations w ++ map (fun j => (body, answer j)) (seq 0 k))
                (draws w + k) (sleeps w ++ map delay (seq 0 k))))) body = x).
  { intros x <-. cbn [invocations].
    rewrite length_app, length_map, length_seq. reflexivity. }
  assert (Hafter : forall x,
    answer k = x ->
    mkWorld ((invocations w ++ map (fun j => (body, answer j)) (seq 0 k))
             ++ [(body, x)]) (draws w + k) (sleeps w ++ map delay (seq 0 k))
    = after).
  { intros x <-. unfold after. f_equal.
    rewrite seq_S, map_app, app_assoc. reflexivity. }
  split; [|split].
  - intros v Hv. rewrite Hrun, Hseq. cbn [map].
    rewrite (retry_loop_ok _ _ _ _ _ _ v (Hnow _ Hv)).
    f_equal. exact (Hafter _ Hv).
  - intros e He Hstop. rewrite Hrun, Hseq. cbn [map].
    rewrite (retry_loop_raise _ _ _ _ _ _ e (Hnow _ He)).
    + f_equal. exact (Hafter _ He).
    + destruct Hstop as [Hnot| ->].
      * left. rewrite He in Hnot. exact Hnot.
      * right. unfold MAX_RETRIES. lia.
  - intros j Hj. unfold delay.
    destruct (Hjitter (draws w + j)%nat) as [Hlo Hhi].
    set (u := uniform (draws w + j)) in *.
    assert (Hpow : (inject_Z (2 ^ Z.of_nat j) <= 16)%Q).
    { change 16%Q with (inject_Z 16). rewrite <- Zle_Qle.
      change 16 with (2 ^ 4). apply Z.pow_le_mono_r; lia. }
    assert (Hsmall : (inject_Z (2 ^ Z.of_nat j) + u <= 30)%Q).
    { apply Qle_trans with (16 + 1)%Q; [|discriminate].
      apply Qplus_le_compat; [exact Hpow|apply Qlt_le_weak, Hhi]. }
    split; [apply py_min_Qmin|].
    assert (Hmin : py_min (inject_Z (2 ^ Z.of_nat j) + u) 30
                   = (inject_Z (2 ^ Z.of_nat j) + u)%Q).
    { unfold py_min. destruct (Qlt_le_dec 30 (inject_Z (2 ^ Z.of_nat j) + u))
        as [Hbig|_]; [|reflexivity].
      exfalso. exact (Qlt_not_le _ _ Hbig Hsmall). }
    rewrite Hmin. split; [|split].
    + rewrite <- (Qplus_0_r (inject_Z (2 ^ Z.of_nat j))) at 1.
      apply Qplus_le_compat; [apply Qle_refl|exact Hlo].
    + apply Qplus_lt_r. exact Hhi.
    + exact Hsmall.
Qed.

End RetryPolicy.

(** Two throttled attempts, then an answer: two waits, of 1.25 s and
    2.25 s, and three calls. *)
Lemma generate_embedding_vector_retries_witness :
  EmbeddingsClient.generate_embedding_vector
    Examples.throttled_twice Examples.quarter (Py.lit "hello") Examples.fresh
  = (Effects.Ok (Some [1 # 2; 5]%Q),
     EmbeddingsClient.mkWorld
       [(Py.lit "hello", Effects.Raise Examples.throttling);
        (Py.lit "hello", Effects.Raise Examples.throttling);
        (Py.lit "hello", Effects.Ok [1 # 2; 5]%Q)]
       2 [5 # 4; 9 # 4]%Q).
Proof.
  assert (Hjitter : forall n, (0 <= Examples.quarter n /\ Examples.quarter n < 1)%Q)
    by (intros n; split; [discriminate|reflexivity]).
  assert (Hlimited : forall j, (j < 2)%nat ->
            EmbedSpec.rate_limited
              (Examples.throttled_twice
                 (length (EmbeddingsClient.invocations Examples.fresh) + j)
                 (take (Z.to_nat EmbeddingsClient.EMBEDDING_INPUT_LIMIT_CHARS)
                       (Py.lit "hello")))).
  { intros j Hj. exists (Py.lit "ThrottlingException"), (Py.lit "Too many requests").
    split; [|left; reflexivity].
    destruct j as [|[|j]]; [reflexivity|reflexivity|lia]. }
  apply (proj1 (generate_embedding_vector_retries
                  Examples.throttled_twice Examples.quarter
                  (Py.lit "hello") Examples.fresh 2
                  Hjitter ltac:(lia) Hlimited)).
  reflexivity.
Defined.


(** ** [generate_embeddings_batch]: order and failure *)

Section Batch.
Import Py Effects EmbeddingsClient EmbedSpec.

Variable bedrock : nat -> str -> result embedding.
Variable uniform : nat -> Q.

Lemma successes_app (l1 l2 : list (str * result embedding)) :
  successes (l1 ++ l2) = successes l1 ++ successes l2.
Proof. unfold successes. apply omap_app. Qed.

(** The calls of one run of the retry loop: at most one is answered, and it
    is the last one. *)
Lemma retry_loop_log (body : str) :
  forall attempts (w : world) r w',
    retry_loop bedrock uniform attempts body w = (r, w') ->
    exists new,
      invocations w' = invocations w ++ new /\
      match r with
      | Ok (Some v) => successes new = [(body, v)]
      | Ok None => successes new = [] /\
                   Forall (fun a => a < MAX_RETRIES) attempts
      | Raise _ => successes new = []
      end.
Proof.
  induction attempts as [|attempt rest IH]; intros w r w' Hrun.
  - cbn in Hrun. injection Hrun as <- <-. exists []. rewrite app_nil_r.
    repeat split. constructor.
  - destruct (bedrock (length (invocations w)) body) as [v|e] eqn:Hans.
    + rewrite (retry_loop_ok _ _ _ _ _ _ v Hans) in Hrun.
      injection Hrun as <- <-. exists [(body, Ok v)]. split; reflexivity.
    + destruct (classic_rate_limited e attempt) as [[Hrl Hlt]|Hstop].
      * rewrite retry_loop_retry in Hrun; [|exact Hlt|rewrite Hans; exact Hrl].
        apply IH in Hrun as (new & Hinv & Hres). cbn [invocations] in Hinv.
        exists ((body, bedrock (length (invocations w)) body) :: new).
        split; [rewrite Hinv, <- app_assoc; reflexivity|].
        rewrite Hans.
        change ((body, Raise e) :: new) with ([(body, @Raise embedding e)] ++ new).
        rewrite successes_app. cbn [successes omap app]. 
        destruct r as [[v|]|e']; [exact Hres| |exact Hres].
        destruct Hres as [Hres Hall]. split; [exact Hres|].
        constructor; assumption.
      * rewrite (retry_loop_raise _ _ _ _ _ _ e Hans Hstop) in Hrun.
        injection Hrun as <- <-. exists [(body, Raise e)]. split; reflexivity.
Qed.

(** A call of [generate_embedding_vector] that returns has obtained exactly
    one answer, for the truncated text, and returns it. *)
Lemma generate_embedding_vector_ok (text : str) (w : world) r w' :
  generate_embedding_vector bedrock uniform text w = (Ok r, w') ->
  exists v new,
    r = Some v /\ invocations w' = invocations w ++ new /\
    successes new = [(truncated text, v)].
Proof.
  rewrite generate_embedding_vector_truncates. intros Hrun.
  apply retry_loop_log in Hrun as (new & Hinv & Hres).
  destruct r as [v|].
  - exists v, new. auto.
  - exfalso. destruct Hres as [_ Hall].
    rewrite Forall_forall in Hall.
    specialize (Hall 5). unfold MAX_RETRIES in Hall.
    assert (5 < 5); [|lia]. apply Hall.
    change (range (5 + 1)) with [0; 1; 2; 3; 4; 5].
    set_solver.
Qed.

(** The pause taken every twenty texts leaves the calls as they are. *)
Lemma pause_invocations (i : Z) (w : world) :
  exists w',
    (if (0 <? i) && (i mod 20 =? 0) then sleep (1 # 10) else ret tt) w
    = (Ok tt, w') /\
    invocations w' = invocations w.
Proof.
  destruct ((0 <? i) && (i mod 20 =? 0)); eexists; split; reflexivity.
Qed.

(** A batch that returns has one embedding for each text, obtained in the
    order of the texts. *)
Lemma batch_loop_ok :
  forall (texts : list str) (i : Z) acc (w : world) vs w',
    batch_loop bedrock uniform (enumerate_from i texts) acc w = (Ok vs, w') ->
    exists es new,
      vs = acc ++ map Some es /\ length es = length texts /\
      invocations w' = invocations w ++ new /\
      successes new = zip (map truncated texts) es.
Proof.
  induction texts as [|text texts IH]; intros i acc w vs w' Hrun.
  - cbn in Hrun. injection Hrun as <- <-. exists [], [].
    rewrite !app_nil_r. auto.
  - cbn [enumerate_from batch_loop] in Hrun. unfold bind at 1 in Hrun.
    destruct (generate_embedding_vector bedrock uniform text w)
      as [[r|e] w1] eqn:Hone; [|discriminate].
    apply generate_embedding_vector_ok in Hone as (v & new1 & -> & Hinv1 & Hsucc1).
    unfold bind at 1 in Hrun.
    destruct (pause_invocations i w1) as (w2 & Hpause & Hinv2).
    rewrite Hpause in Hrun.
    apply IH in Hrun as (es & new2 & -> & Hlen & Hinv & Hsucc).
    exists (v :: es), (new1 ++ new2). split; [|split; [|split]].
    + rewrite <- app_assoc. reflexivity.
    + cbn [length]. lia.
    + rewrite Hinv, Hinv2, Hinv1, app_assoc. reflexivity.
    + rewrite successes_app, Hsucc1, Hsucc. reflexivity.
Qed.

Lemma enumerate_from_app {A} (l1 l2 : list A) (i : Z) :
  enumerate_from i (l1 ++ l2)
  = enumerate_from i l1 ++ enumerate_from (i + len l1) l2.
Proof.
  revert i. induction l1 as [|x l1 IH]; intros i; cbn [enumerate_from app].
  - unfold len. cbn [length]. rewrite Z.add_0_r. reflexivity.
  - rewrite IH. do 3 f_equal. unfold len. cbn [length]. lia.
Qed.

(** The loop over a list in two parts is the loop over the first part, and
    then, unless that has raised, the loop over the second. *)
Lemma batch_loop_app :
  forall (items1 items2 : list (Z * str)) acc (w : world),
    batch_loop bedrock uniform (items1 ++ items2) acc w
    = match batch_loop bedrock uniform items1 acc w with
      | (Ok vs, w1) => batch_loop bedrock uniform items2 vs w1
      | (Raise e, w1) => (Raise e, w1)
      end.
Proof.
  induction items1 as [|[i text] items1 IH]; intros items2 acc w.
  - reflexivity.
  - cbn [app batch_loop]. unfold bind.
    destruct (generate_embedding_vector bedrock uniform text w)
      as [[r|e] w1]; [|reflexivity].
    destruct (pause_invocations i w1) as (w2 & Hpause & _).
    rewrite Hpause. apply IH.
Qed.

(** Every text is embedded when Bedrock answers every call with an
    embedding. *)
Lemma batch_loop_returns :
  (forall k t, exists v, bedrock k t = Ok v) ->
  forall (items : list (Z * str)) acc (w : world),
    exists vs w', batch_loop bedrock uniform items acc w = (Ok vs, w').
Proof.
  intros Hanswers. induction items as [|[i text] items IH]; intros acc w;
    cbn [batch_loop].
  - eexists _, _. reflexivity.
  - unfold bind at 1. rewrite generate_embedding_vector_truncates.
    change (range (MAX_RETRIES + 1)) with [0; 1; 2; 3; 4; 5].
    destruct (Hanswers (length (invocations w)) (truncated text)) as [v Hv].
    rewrite (retry_loop_ok bedrock uniform _ _ _ _ v Hv).
    unfold bind at 1.
    destruct (pause_invocations i
                (mkWorld (invocations w ++ [(truncated text, Ok v)])
                   (draws w) (sleeps w))) as (w2 & Hpause & _).
    rewrite Hpause. apply IH.
Qed.

End Batch.

Section BatchFailFast.
Import Py Effects EmbeddingsClient EmbedSpec.

Variable bedrock : nat -> str -> result embedding.
Variable uniform : nat -> Q.

(** C5.  [generate_embeddings_batch] embeds the texts one after the other
    in input order and returns one embedding for each.  The batch of no
    text returns the empty list; and when the batch of the texts [before]
    returns, and the embedding of the next text returns in the state that
    batch has left, then the batch of [before] and that text returns the
    list extended by that embedding.  So the batch returns whenever every
    embedding succeeds in its turn; in particular, when Bedrock answers
    every call with an embedding, it returns one embedding for each text.
    Whenever it returns, the calls that Bedrock answered during the batch
    are, in the order they were made, the (truncated) texts in input
    order, each with the embedding that stands at its place in the result.
    When the embedding of some text raises, the texts before it having
    been embedded, the batch raises that exception: no list is returned. *)
Theorem generate_embeddings_batch_all_or_nothing (texts : list str) (w : world) :
  (forall vs w',
     generate_embeddings_batch bedrock uniform texts w = (Ok vs, w') ->
     exists es new,
       vs = map Some es /\ length es = length texts /\
       invocations w' = invocations w ++ new /\
       successes new = zip (map truncated texts) es) /\
  (forall before text after_ vs w1 e w2,
     texts = before ++ text :: after_ ->
     generate_embeddings_batch bedrock uniform before w = (Ok vs, w1) ->
     generate_embedding_vector bedrock uniform text w1 = (Raise e, w2) ->
     generate_embeddings_batch bedrock uniform texts w = (Raise e, w2)) /\
  generate_embeddings_batch bedrock uniform [] w = (Ok [], w) /\
  (forall before text vs w1 r w2,
     generate_embeddings_batch bedrock uniform before w = (Ok vs, w1) ->
     generate_embedding_vector bedrock uniform text w1 = (Ok r, w2) ->
     exists w3,
       generate_embeddings_batch bedrock uniform (before ++ [text]) w
       = (Ok (vs ++ [r]), w3) /\
       invocations w3 = invocations w2) /\
  ((forall k t, exists v, bedrock k t = Ok v) ->
   exists es new w',
     generate_embeddings_batch bedrock uniform texts w = (Ok (map Some es), w') /\
     length es = length texts /\
     invocations w' = invocations w ++ new /\
     successes new = zip (map truncated texts) es).
Proof.
  assert (Hreturned :
    forall vs w',
      generate_embeddings_batch bedrock uniform texts w = (Ok vs, w') ->
      exists es new,
        vs = map Some es /\ length es = length texts /\
        invocations w' = invocations w ++ new /\
        successes new = zip (map truncated texts) es).
  { intros vs w' Hrun. unfold generate_embeddings_batch, enumerate in Hrun.
    apply batch_loop_ok in Hrun as (es & new & -> & Hlen & Hinv & Hsucc).
    exists es, new. auto. }
  split; [exact Hreturned|]. split; [|split; [|split]].
  - intros before text after_ vs w1 e w2 -> Hbefore Hfail.
    unfold generate_embeddings_batch, enumerate in *.
    rewrite enumerate_from_app, batch_loop_app, Hbefore.
    cbn [enumerate_from batch_loop]. unfold bind at 1.
    rewrite Hfail. reflexivity.
  - reflexivity.
  - intros before text vs w1 r w2 Hbefore Hone.
    unfold generate_embeddings_batch, enumerate in *.
    rewrite enumerate_from_app, batch_loop_app, Hbefore.
    cbn [enumerate_from batch_loop]. unfold bind at 1. rewrite Hone.
    unfold bind at 1.
    destruct (pause_invocations (0 + len before) w2) as (w3 & Hpause & Hinv).
    rewrite Hpause. exists w3. split; [reflexivity|exact Hinv].
  - intros Hanswers.
    destruct (batch_loop_returns bedrock uniform Hanswers (enumerate texts) [] w)
      as (vs & w' & Hrun).
    fold (generate_embeddings_batch bedrock uniform texts) in Hrun.
    destruct (Hreturned vs w' Hrun) as (es & new & -> & Hlen & Hinv & Hsucc).
    exists es, new, w'. auto.
Qed.

End BatchFailFast.

(** The second of three texts cannot be embedded: the batch raises, after
    the first text has been embedded.  With a service that answers every
    call, the batch of the three texts returns three embeddings. *)
Lemma generate_embeddings_batch_all_or_nothing_witness :
  EmbeddingsClient.generate_embeddings_batch
    (fun n _ => match n with
                | 1%nat => Effects.Raise (Effects.OtherError (Py.lit "timed out"))
                | _ => Effects.Ok [1%Q]
                end)
    Examples.quarter [Py.lit "a"; Py.lit "b"; Py.lit "c"] Examples.fresh
  = (Effects.Raise (Effects.OtherError (Py.lit "timed out")),
     EmbeddingsClient.mkWorld
       [(Py.lit "a", Effects.Ok [1%Q]);
        (Py.lit "b", Effects.Raise (Effects.OtherError (Py.lit "timed out")))]
       0 []) /\
  exists es new w',
    EmbeddingsClient.generate_embeddings_batch Examples.always_answers
      Examples.quarter [Py.lit "a"; Py.lit "b"; Py.lit "c"] Examples.fresh
    = (Effects.Ok (map Some es), w') /\
    length es = 3%nat /\
    EmbeddingsClient.invocations w'
    = EmbeddingsClient.invocations Examples.fresh ++ new /\
    EmbedSpec.successes new
    = zip (map EmbedSpec.truncated [Py.lit "a"; Py.lit "b"; Py.lit "c"]) es.
Proof.
  split.
  - eapply (proj1 (proj2 (generate_embeddings_batch_all_or_nothing _ _ _ _))
              [Py.lit "a"] (Py.lit "b") [Py.lit "c"]); reflexivity.
  - apply (proj2 (proj2 (proj2 (proj2
             (generate_embeddings_batch_all_or_nothing
                Examples.always_answers Examples.quarter
                [Py.lit "a"; Py.lit "b"; Py.lit "c"] Examples.fresh))))).
    intros k t. eexists. reflexivity.
Defined.

(** ** Batches of at most 500 *)

Section Batches.
Import Py Effects EmbeddingsClient VectorSearch IndexSpec.

Lemma slice_from_nat {A} (l : list A) (a b : nat) :
  (a <= b)%nat ->
  slice l (Z.of_nat a) (Z.of_nat b) = take (b - a) (drop a l).
Proof.
  intros Hab. unfold slice, adjust_index, len.
  destruct (Z.ltb_spec (Z.of_nat a) 0); [lia|].
  destruct (Z.ltb_spec (Z.of_nat b) 0); [lia|].
  destruct (Nat.le_gt_cases a (length l)) as [Ha|Ha].
  - rewrite (Z.min_l (Z.of_nat a)) by lia. rewrite Nat2Z.id.
    destruct (Nat.le_gt_cases b (length l)) as [Hb|Hb].
    + rewrite Z.min_l by lia. f_equal. lia.
    + rewrite Z.min_r by lia.
      rewrite !take_ge; [reflexivity|rewrite length_drop; lia..].
  - rewrite !drop_ge by lia. rewrite !take_nil. reflexivity.
Qed.

(** The first [c] slices of width [w], put together, are the first [c * w]
    elements. *)
Lemma concat_slices {A} (l : list A) (w : nat) (c : nat) :
  concat (map (fun k : nat => slice l (Z.of_nat k * Z.of_nat w)
                                (Z.of_nat k * Z.of_nat w + Z.of_nat w))
              (seq 0 c))
  = take (c * w) l.
Proof.
  induction c as [|c IH].
  - reflexivity.
  - rewrite seq_S, map_app, concat_app, IH. cbn [map concat plus].
    rewrite app_nil_r.
    replace (Z.of_nat c * Z.of_nat w) with (Z.of_nat (c * w)) by lia.
    replace (Z.of_nat (c * w) + Z.of_nat w) with (Z.of_nat (c * w + w)) by lia.
    rewrite slice_from_nat by lia.
    replace (c * w + w - c * w)%nat with w by lia.
    rewrite take_take_drop. f_equal. lia.
Qed.

Lemma range_step_seq (n : nat) :
  range_step (Z.of_nat n) VECTORS_PER_BATCH
  = map (fun k : nat => Z.of_nat k * 500)
        (seq 0 (Z.to_nat ((Z.of_nat n + 499) / 500))).
Proof.
  unfold range_step, VECTORS_PER_BATCH.
  replace (Z.of_nat n + 500 - 1) with (Z.of_nat n + 499) by lia.
  reflexivity.
Qed.

(** The number of batches covers the list and no batch starts beyond it. *)
Lemma batch_count_bounds (n : nat) :
  let c := Z.to_nat ((Z.of_nat n + 499) / 500) in
  (n <= c * 500)%nat /\ (forall k : nat, (k < c)%nat -> (k * 500 < n)%nat).
Proof.
  cbv zeta.
  pose proof (Z.div_mod (Z.of_nat n + 499) 500 ltac:(lia)) as Hdm.
  pose proof (Z.mod_pos_bound (Z.of_nat n + 499) 500 ltac:(lia)) as Hmod.
  assert (0 <= (Z.of_nat n + 499) / 500) by (apply Z.div_pos; lia).
  split; [lia|]. intros k Hk. lia.
Qed.

(** The batches, put together, are the list. *)
Lemma concat_batches_of {A} (l : list A) : concat (batches_of l) = l.
Proof.
  unfold batches_of, len. rewrite range_step_seq, map_map.
  unfold VECTORS_PER_BATCH.
  change 500 with (Z.of_nat 500).
  rewrite (concat_slices l 500).
  apply take_ge. apply (batch_count_bounds (length l)).
Qed.

(** Every batch has between 1 and 500 elements. *)
Lemma batches_of_size {A} (l : list A) :
  Forall (fun batch => 1 <= len batch /\ len batch <= VECTORS_PER_BATCH)
         (batches_of l).
Proof.
  unfold batches_of, len. rewrite range_step_seq, map_map.
  apply Forall_forall. intros batch Hin.
  apply list_elem_of_fmap in Hin as (k & -> & Hk).
  apply elem_of_seq in Hk as [_ Hk]. cbn [plus] in Hk.
  apply (batch_count_bounds (length l)) in Hk.
  unfold VECTORS_PER_BATCH.
  replace (Z.of_nat k * 500) with (Z.of_nat (k * 500)) by lia.
  replace (Z.of_nat (k * 500) + 500) with (Z.of_nat (k * 500 + 500)) by lia.
  rewrite slice_from_nat by lia.
  rewrite length_take, length_drop. lia.
Qed.

End Batches.

(** ** The loops of [store_document_vectors] and [delete_document_vectors] *)

Section IndexLoops.
Import Py Effects EmbeddingsClient VectorSearch IndexSpec.

Variable s3_fault : nat -> option exn.

Lemma put_all_app m (l1 l2 : list VectorRecord) :
  put_all m (l1 ++ l2) = put_all (put_all m l1) l2.
Proof. apply foldl_app. Qed.

Lemma delete_all_app m (l1 l2 : list str) :
  delete_all m (l1 ++ l2) = delete_all (delete_all m l1) l2.
Proof. apply foldl_app. Qed.

(** A store loop that returns has submitted every batch, in order, and
    counted every record. *)
Lemma store_batches_run (vectors : list VectorRecord) :
  forall (batch_starts : list Z) (stored_count : Z) (w : s3vectors) c w',
    store_batches s3_fault batch_starts vectors stored_count w = (Ok c, w') ->
    let batches :=
      map (fun s => slice vectors s (s + VECTORS_PER_BATCH)) batch_starts in
    c = stored_count + len (concat batches) /\
    records w' = put_all (records w) (concat batches) /\
    calls w' = calls w ++ map PutVectors batches.
Proof.
  induction batch_starts as [|s rest IH]; intros stored_count w c w' Hrun;
    cbv zeta.
  - cbn in Hrun. injection Hrun as <- <-. cbn [map concat].
    rewrite app_nil_r. unfold len. cbn [length]. split; [lia|]. split; reflexivity.
  - cbn [store_batches] in Hrun.
    unfold bind, put_vectors, s3_request in Hrun.
    destruct (s3_fault (length (calls w))) as [e|]; [discriminate|].
    apply IH in Hrun as (-> & Hrec & Hcalls). cbn [records calls] in *.
    cbn [map concat]. rewrite len_app, put_all_app, Hrec, Hcalls, <- app_assoc.
    split; [lia|]. split; reflexivity.
Qed.

(** Without a failure of the service the store loop returns. *)
Lemma store_batches_returns (vectors : list VectorRecord) :
  (forall n, s3_fault n = None) ->
  forall (batch_starts : list Z) (stored_count : Z) (w : s3vectors),
    exists c w',
      store_batches s3_fault batch_starts vectors stored_count w = (Ok c, w').
Proof.
  intros Hnone. induction batch_starts as [|s rest IH]; intros stored_count w.
  - eexists _, _. reflexivity.
  - cbn [store_batches]. unfold bind, put_vectors, s3_request.
    rewrite Hnone. apply IH.
Qed.

Lemma succeeded_app {A} (n : nat) (l1 l2 : list (list A)) :
  succeeded s3_fault n (l1 ++ l2)
  = succeeded s3_fault n l1 ++ succeeded s3_fault (n + length l1) l2.
Proof.
  revert n. induction l1 as [|b l1 IH]; intros n; cbn [succeeded app length].
  - rewrite Nat.add_0_r. reflexivity.
  - rewrite IH. replace (S n + length l1)%nat with (n + S (length l1))%nat by lia.
    destruct (s3_fault n); reflexivity.
Qed.

(** The delete loop, when the service fails with [ClientError]s only:
    every batch is submitted, and the batches that went through are
    counted. *)
Lemma delete_batches_run (keys : list str) :
  only_client_errors s3_fault ->
  forall (batch_starts : list Z) (deleted_count : Z) (w : s3vectors),
    let batches :=
      map (fun s => slice keys s (s + VECTORS_PER_BATCH)) batch_starts in
    let done := succeeded s3_fault (length (calls w)) batches in
    delete_batches s3_fault batch_starts keys deleted_count w
    = (Ok (deleted_count + len (concat done)),
       mkS3 (delete_all (records w) (concat done))
            (calls w ++ map DeleteVectors batches)).
Proof.
  intros Honly. induction batch_starts as [|s rest IH];
    intros deleted_count w; cbv zeta.
  - cbn. rewrite app_nil_r, Z.add_0_r. destruct w; reflexivity.
  - cbn [delete_batches map succeeded].
    unfold bind, try_except, delete_vectors, s3_request, ret.
    destruct (s3_fault (length (calls w))) as [e|] eqn:Hfault.
    + destruct (Honly _ _ Hfault) as (code & description & ->).
      rewrite IH. cbn [records calls]. rewrite length_app. cbn [length].
      replace (length (calls w) + 1)%nat with (S (length (calls w))) by lia.
      rewrite <- app_assoc. reflexivity.
    + rewrite IH. cbn [records calls]. rewrite length_app. cbn [length].
      replace (length (calls w) + 1)%nat with (S (length (calls w))) by lia.
      cbn [concat]. rewrite len_app, delete_all_app, <- app_assoc.
      f_equal. f_equal. lia.
Qed.

(** An exception that is not a [ClientError] leaves the delete loop at the
    batch that raised it. *)
Lemma delete_batches_other_error (keys : list str) s rest deleted_count w d :
  s3_fault (length (calls w)) = Some (OtherError d) ->
  delete_batches s3_fault (s :: rest) keys deleted_count w
  = (Raise (OtherError d),
     mkS3 (records w)
          (calls w ++ [DeleteVectors (slice keys s (s + VECTORS_PER_BATCH))])).
Proof.
  intros Hfault. cbn [delete_batches].
  unfold bind, try_except, delete_vectors, s3_request.
  rewrite Hfault. reflexivity.
Qed.

Lemma succeeded_no_fault {A} (batches : list (list A)) :
  (forall n, s3_fault n = None) ->
  forall n, succeeded s3_fault n batches = batches.
Proof.
  intros Hnone. induction batches as [|b rest IH]; intros n; cbn [succeeded].
  - reflexivity.
  - rewrite Hnone, IH. reflexivity.
Qed.

End IndexLoops.

(** ** Keys *)

Section Keys.
Import Py Effects EmbeddingsClient VectorSearch IndexSpec.

Lemma length_enumerate_from {A} (l : list A) :
  forall i, length (enumerate_from i l) = length l.
Proof.
  induction l as [|x l IH]; intros i; cbn [enumerate_from length];
    [reflexivity|]. rewrite IH. reflexivity.
Qed.

Lemma range_keys (document_id : str) (chunk_count : Z) :
  map (vector_key document_id) (range chunk_count)
  = document_keys document_id (Z.to_nat chunk_count).
Proof. unfold range, document_keys. rewrite map_map. reflexivity. Qed.

Lemma enumerate_from_keys (document_id document_filename : str) :
  forall (pairs : list (str * embedding)) (i : nat),
    map key (map (build_vector document_id document_filename)
               (enumerate_from (Z.of_nat i) pairs))
    = map (fun j : nat => document_id ++ lit "#" ++ str_of_int (Z.of_nat j))
          (seq i (length pairs)).
Proof.
  induction pairs as [|[text e] pairs IH]; intros i; cbn [enumerate_from map length seq].
  - reflexivity.
  - f_equal. replace (Z.of_nat i + 1) with (Z.of_nat (S i)) by lia. apply IH.
Qed.

Lemma build_vector_keys (document_id document_filename : str)
    (chunk_texts : list str) (embeddings : list embedding) :
  map key (map (build_vector document_id document_filename)
             (enumerate (zip chunk_texts embeddings)))
  = document_keys document_id (min (length chunk_texts) (length embeddings)).
Proof.
  unfold enumerate. change 0 with (Z.of_nat 0).
  rewrite enumerate_from_keys, length_zip. reflexivity.
Qed.

Lemma length_document_keys (document_id : str) (n : nat) :
  length (document_keys document_id n) = n.
Proof. unfold document_keys. rewrite length_map, length_seq. reflexivity. Qed.

Lemma document_keys_under_prefix (document_id : str) (n : nat) k :
  k ∈ document_keys document_id n -> under_prefix document_id k.
Proof.
  intros Hin. apply list_elem_of_fmap in Hin as (i & -> & _).
  eexists. reflexivity.
Qed.

(** Looking up a key after removals and after writes. *)
Lemma delete_all_lookup (keys : list str) :
  forall (m : gmap str VectorRecord) (k : str),
    delete_all m keys !! k = if decide (k ∈ keys) then None else m !! k.
Proof.
  induction keys as [|k0 keys IH]; intros m k; cbn [delete_all foldl].
  - destruct (decide (k ∈ [])) as [Hin|_]; [inversion Hin|reflexivity].
  - fold (delete_all (delete k0 m) keys). rewrite IH.
    destruct (decide (k ∈ keys)) as [Hin|Hnot].
    + rewrite decide_True by (right; exact Hin). reflexivity.
    + destruct (decide (k = k0)) as [->|Hne].
      * rewrite decide_True by left. apply lookup_delete_eq.
      * rewrite decide_False by (intros Hin; apply elem_of_cons in Hin as [?|?]; auto).
        apply lookup_delete_ne. congruence.
Qed.

Lemma put_all_lookup_other (vectors : list VectorRecord) :
  forall (m : gmap str VectorRecord) (k : str),
    k ∉ map key vectors -> put_all m vectors !! k = m !! k.
Proof.
  induction vectors as [|v vectors IH]; intros m k Hnot; cbn [put_all foldl].
  - reflexivity.
  - fold (put_all (<[key v := v]> m) vectors). cbn [map] in Hnot.
    rewrite IH by (intros Hin; apply Hnot; right; exact Hin).
    apply lookup_insert_ne. intros Heq. apply Hnot. rewrite <- Heq. left.
Qed.

Lemma put_all_lookup_written (vectors : list VectorRecord) :
  forall (m : gmap str VectorRecord) (k : str),
    k ∈ map key vectors -> is_Some (put_all m vectors !! k).
Proof.
  induction vectors as [|v vectors IH]; intros m k Hin; cbn [put_all foldl].
  - inversion Hin.
  - fold (put_all (<[key v := v]> m) vectors). cbn [map] in Hin.
    destruct (decide (k ∈ map key vectors)) as [Hlater|Hnot].
    + apply IH, Hlater.
    + rewrite put_all_lookup_other by exact Hnot.
      apply elem_of_cons in Hin as [->|?]; [|contradiction].
      rewrite lookup_insert_eq. eauto.
Qed.

End Keys.

(** ** [store_document_vectors] and [delete_document_vectors] *)

Section StoreDelete.
Import Py Effects EmbeddingsClient VectorSearch IndexSpec.

Variable s3_fault : nat -> option exn.

(** What a call of [store_document_vectors] that returns has done. *)
Lemma store_document_vectors_run (document_id document_filename : str)
    (chunk_texts : list str) (embeddings : list embedding) (w : s3vectors) c w' :
  store_document_vectors s3_fault document_id document_filename
    chunk_texts embeddings w = (Ok c, w') ->
  let vectors := map (build_vector document_id document_filename)
                     (enumerate (zip chunk_texts embeddings)) in
  c = len vectors /\
  records w' = put_all (records w) vectors /\
  calls w' = calls w ++ map PutVectors (batches_of vectors).
Proof.
  intros Hrun. cbv zeta. unfold store_document_vectors in Hrun.
  apply store_batches_run in Hrun as (-> & Hrec & Hcalls).
  fold (batches_of (map (build_vector document_id document_filename)
                        (enumerate (zip chunk_texts embeddings)))) in *.
  rewrite concat_batches_of in *. auto.
Qed.

(** Without a failure of the service [store_document_vectors] returns. *)
Lemma store_document_vectors_returns (document_id document_filename : str)
    (chunk_texts : list str) (embeddings : list embedding) (w : s3vectors) :
  (forall n, s3_fault n = None) ->
  exists c w',
    store_document_vectors s3_fault document_id document_filename
      chunk_texts embeddings w = (Ok c, w').
Proof.
  intros Hnone. unfold store_document_vectors.
  apply store_batches_returns, Hnone.
Qed.

(** C10.  When [chunk_texts] and [embeddings] differ in length,
    [store_document_vectors] raises nothing of its own: it returns whenever
    the service does not fail.  What it returns is the smaller of the two
    lengths, and the records it has submitted are those of the first that
    many texts and embeddings, paired by position; the rest of the longer
    list is not used. *)
Theorem store_document_vectors_zips (document_id document_filename : str)
    (chunk_texts : list str) (embeddings : list embedding) (w : s3vectors) :
  let m := min (length chunk_texts) (length embeddings) in
  (forall c w',
     store_document_vectors s3_fault document_id document_filename
       chunk_texts embeddings w = (Ok c, w') ->
     c = Z.of_nat m /\
     exists batches,
       calls w' = calls w ++ map PutVectors batches /\
       concat batches
       = map (build_vector document_id document_filename)
           (enumerate (zip (take m chunk_texts) (take m embeddings))) /\
       map key (concat batches) = document_keys document_id m) /\
  ((forall n, s3_fault n = None) ->
   exists c w',
     store_document_vectors s3_fault document_id document_filename
       chunk_texts embeddings w = (Ok c, w')).
Proof.
  cbv zeta. split.
  - intros c w' Hrun. apply store_document_vectors_run in Hrun as (-> & _ & Hcalls).
    split.
    + unfold len, enumerate.
      rewrite length_map, length_enumerate_from, length_zip. reflexivity.
    + eexists. split; [exact Hcalls|]. rewrite concat_batches_of. split.
      * rewrite <- zip_with_take. rewrite take_ge; [reflexivity|].
        rewrite length_zip. lia.
      * apply build_vector_keys.
  - apply store_document_vectors_returns.
Qed.

(** C3.  When the service does not fail and there are as many embeddings as
    texts, [n] of each: [store_document_vectors] writes exactly the keys
    [document_id#0 .. document_id#(n-1)], a following
    [delete_document_vectors(document_id, n)] submits exactly these keys,
    and afterwards none of them is in the index, which is otherwise as it
    was before the store; an index that had no record under the prefix
    [document_id#] has none afterwards. *)
Theorem store_delete_round_trip (document_id document_filename : str)
    (chunk_texts : list str) (embeddings : list embedding) (w : s3vectors) :
  (forall n, s3_fault n = None) ->
  length chunk_texts = length embeddings ->
  let n := length chunk_texts in
  let keys := document_keys document_id n in
  exists w1 w2 put_batches delete_batches,
    store_document_vectors s3_fault document_id document_filename
      chunk_texts embeddings w = (Ok (Z.of_nat n), w1) /\
    delete_document_vectors s3_fault document_id (Z.of_nat n) w1
      = (Ok (Z.of_nat n), w2) /\
    calls w1 = calls w ++ map PutVectors put_batches /\
    map key (concat put_batches) = keys /\
    calls w2 = calls w1 ++ map DeleteVectors delete_batches /\
    concat delete_batches = keys /\
    (forall k, k ∈ keys -> is_Some (records w1 !! k)) /\
    (forall k, k ∈ keys -> records w2 !! k = None) /\
    (forall k, k ∉ keys -> records w2 !! k = records w !! k) /\
    ((forall k, under_prefix document_id k -> records w !! k = None) ->
     forall k, under_prefix document_id k -> records w2 !! k = None).
Proof.
  intros Hnone Hlen n keys.
  set (vectors := map (build_vector document_id document_filename)
                      (enumerate (zip chunk_texts embeddings))).
  assert (Hkeys : map key vectors = keys).
  { unfold vectors, keys, n. rewrite build_vector_keys, <- Hlen, Nat.min_id.
    reflexivity. }
  destruct (store_document_vectors_returns document_id document_filename
              chunk_texts embeddings w Hnone) as (c & w1 & Hstore).
  pose proof (store_document_vectors_run _ _ _ _ _ _ _ Hstore) as Hrun.
  cbv zeta in Hrun. fold vectors in Hrun.
  destruct Hrun as (Hc & Hrec1 & Hcalls1).
  assert (Hcn : c = Z.of_nat n).
  { rewrite Hc. unfold len. rewrite <- (length_map key), Hkeys.
    unfold keys. rewrite length_document_keys. reflexivity. }
  clear Hc. subst c.
  assert (Hdelete :
    delete_document_vectors s3_fault document_id (Z.of_nat n) w1
    = (Ok (Z.of_nat n),
       mkS3 (delete_all (records w1) keys)
            (calls w1 ++ map DeleteVectors (batches_of keys)))).
  { unfold delete_document_vectors. rewrite range_keys, Nat2Z.id. fold keys.
    rewrite delete_batches_run
      by (intros i e He; rewrite Hnone in He; discriminate).
    cbv zeta. fold (batches_of keys).
    rewrite succeeded_no_fault by exact Hnone.
    rewrite concat_batches_of. f_equal. f_equal.
    unfold len, keys. rewrite length_document_keys. lia. }
  exists w1, (mkS3 (delete_all (records w1) keys)
                   (calls w1 ++ map DeleteVectors (batches_of keys))),
         (batches_of vectors), (batches_of keys).
  cbn [records calls]. rewrite !concat_batches_of.
  split; [exact Hstore|]. split; [exact Hdelete|].
  split; [exact Hcalls1|]. split; [exact Hkeys|].
  split; [reflexivity|]. split; [reflexivity|].
  assert (Hgone : forall k, k ∈ keys -> delete_all (records w1) keys !! k = None).
  { intros k Hin. rewrite delete_all_lookup, decide_True by exact Hin.
    reflexivity. }
  assert (Hkept : forall k, k ∉ keys ->
                    delete_all (records w1) keys !! k = records w !! k).
  { intros k Hnot. rewrite delete_all_lookup, decide_False by exact Hnot.
    rewrite Hrec1. apply put_all_lookup_other. rewrite Hkeys. exact Hnot. }
  split.
  { intros k Hin. rewrite Hrec1. apply put_all_lookup_written.
    rewrite Hkeys. exact Hin. }
  split; [exact Hgone|]. split; [exact Hkept|].
  intros Hclean k Hk. destruct (decide (k ∈ keys)) as [Hin|Hnot].
  - apply Hgone, Hin.
  - rewrite Hkept by exact Hnot. apply Hclean, Hk.
Qed.

(** C6, as stated, fails when a batch fails with an exception that is not a
    [ClientError]: the exception reaches the caller. *)
Lemma delete_document_vectors_other_error_raised :
  0 <= 3 /\
  delete_document_vectors
    (fun _ => Some (OtherError (lit "connection reset")))
    (lit "doc") 3 Examples.empty_index
  = (Raise (OtherError (lit "connection reset")),
     mkS3 ∅ [DeleteVectors [lit "doc#0"; lit "doc#1"; lit "doc#2"]]).
Proof. split; [lia|reflexivity]. Qed.

(** C6, amended.  For [chunk_count >= 0], [delete_document_vectors] derives
    the [chunk_count] keys [document_id#0 .. document_id#(chunk_count-1)]
    and submits all of them, in order, in [delete_vectors] calls of at most
    500 keys each, and makes no other call.  When the service fails with
    [ClientError]s only, no failure is raised: every batch is submitted,
    also after a failed one, and the count returned is the number of keys
    in the batches whose call did not fail. *)
Theorem delete_document_vectors_best_effort (document_id : str)
    (chunk_count : Z) (w : s3vectors) :
  0 <= chunk_count ->
  only_client_errors s3_fault ->
  let keys := document_keys document_id (Z.to_nat chunk_count) in
  let batches := batches_of keys in
  let done := succeeded s3_fault (length (calls w)) batches in
  len keys = chunk_count /\
  concat batches = keys /\
  Forall (fun batch => 1 <= len batch /\ len batch <= 500) batches /\
  delete_document_vectors s3_fault document_id chunk_count w
  = (Ok (len (concat done)),
     mkS3 (delete_all (records w) (concat done))
          (calls w ++ map DeleteVectors batches)).
Proof.
  intros Hcount Honly keys batches done.
  split; [unfold len, keys; rewrite length_document_keys; lia|].
  split; [apply concat_batches_of|].
  split; [apply batches_of_size|].
  unfold delete_document_vectors. rewrite range_keys. fold keys.
  rewrite delete_batches_run by exact Honly. reflexivity.
Qed.

End StoreDelete.

(** Texts and embeddings of equal number, stored and deleted again. *)
Lemma store_delete_round_trip_witness :
  exists w1 w2,
    VectorSearch.store_document_vectors Examples.no_fault
      (Py.lit "doc") (Py.lit "notes.txt")
      [Py.lit "first chunk"; Py.lit "second chunk"] [[1 # 2]; [1 # 3]]%Q
      Examples.empty_index = (Effects.Ok 2, w1) /\
    VectorSearch.delete_document_vectors Examples.no_fault (Py.lit "doc") 2 w1
      = (Effects.Ok 2, w2) /\
    VectorSearch.records w2 !! Py.lit "doc#1" = None.
Proof.
  destruct (store_delete_round_trip Examples.no_fault
              (Py.lit "doc") (Py.lit "notes.txt")
              [Py.lit "first chunk"; Py.lit "second chunk"] [[1 # 2]; [1 # 3]]%Q
              Examples.empty_index (fun _ => eq_refl) eq_refl)
    as (w1 & w2 & _ & _ & Hstore & Hdelete & _ & _ & _ & _ & _ & Hgone & _).
  exists w1, w2. split; [exact Hstore|]. split; [exact Hdelete|].
  apply Hgone. right. left.
Defined.

(** Three texts and two embeddings: two records are stored. *)
Lemma store_document_vectors_zips_witness :
  (VectorSearch.store_document_vectors Examples.no_fault
     (Py.lit "doc") (Py.lit "notes.txt")
     [Py.lit "one"; Py.lit "two"; Py.lit "three"] [[1 # 2]; [1 # 3]]%Q
     Examples.empty_index).1 = Effects.Ok 2.
Proof.
  destruct (store_document_vectors_zips Examples.no_fault
              (Py.lit "doc") (Py.lit "notes.txt")
              [Py.lit "one"; Py.lit "two"; Py.lit "three"] [[1 # 2]; [1 # 3]]%Q
              Examples.empty_index) as [Hcount Hreturns].
  destruct (Hreturns (fun _ => eq_refl)) as (c & w' & Hrun).
  destruct (Hcount c w' Hrun) as [-> _].
  rewrite Hrun. reflexivity.
Defined.

(** 501 keys, the batch of the first 500 fails with a [ClientError]: the
    second batch is still submitted, and the count is 1. *)
Lemma delete_document_vectors_best_effort_witness :
  (VectorSearch.delete_document_vectors Examples.first_call_fails
     (Py.lit "doc") 501 Examples.empty_index).1 = Effects.Ok 1.
Proof.
  assert (Honly : IndexSpec.only_client_errors Examples.first_call_fails).
  { intros [|n] e; [|discriminate]. intros [= <-]. eexists _, _. reflexivity. }
  destruct (delete_document_vectors_best_effort Examples.first_call_fails
              (Py.lit "doc") 501 Examples.empty_index ltac:(lia) Honly)
    as (_ & _ & _ & Hrun).
  rewrite Hrun. cbn [fst]. vm_compute. reflexivity.
Defined.

(** ** [search_knowledge_base] *)

Section SearchOutcomes.
Import Py Effects EmbeddingsClient VectorSearch SearchSpec.

Variable bedrock : nat -> str -> result embedding.
Variable uniform : nat -> Q.
Variable s3_fault : nat -> option exn.
Variable s3_matches : nat -> option (list Match).

Lemma knowledge_base_empty_no_error : ~ error_result KNOWLEDGE_BASE_EMPTY.
Proof. intros (description & [H|H]); vm_compute in H; discriminate. Qed.

Lemma no_relevant_results_no_error : ~ error_result NO_RELEVANT_RESULTS.
Proof. intros (description & [H|H]); vm_compute in H; discriminate. Qed.

(** C7.  Once the query is embedded, [search_knowledge_base] makes the
    similarity call.  When that call fails with a [ClientError] whose code
    is [ResourceNotFoundException], the search returns the text saying
    that the knowledge base is empty; when the call returns no match, it
    returns the text saying that nothing relevant was found.  Both are
    returned, not raised; they differ from each other and neither is one
    of the error results. *)
Theorem search_knowledge_base_empty_outcomes (query : str) (top_k : Z)
    (b : world) (s : s3vectors) query_embedding b' :
  generate_embedding_vector bedrock uniform query b = (Ok query_embedding, b') ->
  let asked :=
    (b', mkS3 (records s) (calls s ++ [QueryVectors query_embedding top_k])) in
  (forall description,
     s3_fault (length (calls s))
       = Some (ClientError (lit "ResourceNotFoundException") description) ->
     search_knowledge_base bedrock uniform s3_fault s3_matches query top_k (b, s)
     = (Ok KNOWLEDGE_BASE_EMPTY, asked)) /\
  (s3_fault (length (calls s)) = None ->
   default [] (s3_matches (length (calls s))) = [] ->
   search_knowledge_base bedrock uniform s3_fault s3_matches query top_k (b, s)
   = (Ok NO_RELEVANT_RESULTS, asked)) /\
  KNOWLEDGE_BASE_EMPTY <> NO_RELEVANT_RESULTS /\
  ~ error_result KNOWLEDGE_BASE_EMPTY /\
  ~ error_result NO_RELEVANT_RESULTS.
Proof.
  intros Hembed asked. split; [|split; [|split; [|split]]].
  - intros description Hfault.
    unfold search_knowledge_base, bind, try_except, in_bedrock, in_s3,
      query_vectors, s3_request, ret.
    cbn [fst snd]. rewrite Hembed. cbn [fst snd]. rewrite Hfault.
    reflexivity.
  - intros Hfault Hnone.
    unfold search_knowledge_base, bind, try_except, in_bedrock, in_s3,
      query_vectors, s3_request, ret.
    cbn [fst snd]. rewrite Hembed. cbn [fst snd]. rewrite Hfault.
    rewrite Hnone. reflexivity.
  - intros H. vm_compute in H. discriminate.
  - apply knowledge_base_empty_no_error.
  - apply no_relevant_results_no_error.
Qed.

End SearchOutcomes.

(** A query against an index that does not exist. *)
Lemma search_knowledge_base_empty_outcomes_witness :
  (VectorSearch.search_knowledge_base
     Examples.always_answers Examples.quarter
     (fun _ => Some (Effects.ClientError
                       (Py.lit "ResourceNotFoundException")
                       (Py.lit "index not found")))
     Examples.no_matches (Py.lit "what is a chunk?") 5
     (Examples.fresh, Examples.empty_index)).1
  = Effects.Ok VectorSearch.KNOWLEDGE_BASE_EMPTY.
Proof.
  rewrite (proj1 (search_knowledge_base_empty_outcomes
                    Examples.always_answers Examples.quarter
                    (fun _ => Some (Effects.ClientError
                                      (Py.lit "ResourceNotFoundException")
                                      (Py.lit "index not found")))
                    Examples.no_matches (Py.lit "what is a chunk?") 5
                    Examples.fresh Examples.empty_index _ _ eq_refl)
             (Py.lit "index not found") eq_refl).
  reflexivity.
Defined.

Section Scores.
Import Py Effects Float64 EmbeddingsClient VectorSearch SearchSpec.

Variable bedrock : nat -> str -> result embedding.
Variable uniform : nat -> Q.
Variable s3_fault : nat -> option exn.
Variable s3_matches : nat -> option (list Match).

Lemma enumerate_from_lookup {A} (l : list A) :
  forall (i : Z) (k : nat) x,
    l !! k = Some x -> enumerate_from i l !! k = Some (i + Z.of_nat k, x).
Proof.
  induction l as [|y l IH]; intros i k x Hk; [discriminate|].
  destruct k as [|k]; cbn [enumerate_from].
  - injection Hk as ->. change (Some (i, x) = Some (i + 0, x)).
    rewrite Z.add_0_r. reflexivity.
  - change (l !! k = Some x) in Hk.
    change (enumerate_from (i + 1) l !! k = Some (i + Z.of_nat (S k), x)).
    rewrite (IH (i + 1) k x Hk). do 2 f_equal. lia.
Qed.

Lemma similarity_score (i : Z) (vector : Match) :
  similarity (score (i, vector))
  = py_max 0 (binary64 (1 - distance_of vector)).
Proof. reflexivity. Qed.

Lemma py_max_0_cases (x : Q) :
  (0 < x /\ py_max 0 x = x)%Q \/ (x <= 0 /\ py_max 0 x = 0)%Q.
Proof. unfold py_max. destruct (Qlt_le_dec 0 x); auto. Qed.

(** The floats that the literals [0.7] and [0.5] denote. *)
Lemma float_literals :
  (binary64 (7 # 10) == 3152519739159347 # 4503599627370496)%Q /\
  (binary64 (1 # 2) == 1 # 2)%Q.
Proof. split; vm_compute; reflexivity. Qed.

Lemma quality_score (i : Z) (vector : Match) :
  let r := score (i, vector) in
  ((binary64 (7 # 10) <= similarity r)%Q -> quality r = lit "High") /\
  ((binary64 (1 # 2) <= similarity r)%Q ->
   (similarity r < binary64 (7 # 10))%Q ->
     quality r = lit "Medium") /\
  ((similarity r < binary64 (1 # 2))%Q -> quality r = lit "Low").
Proof.
  cbv zeta. rewrite similarity_score. unfold score. cbn [quality].
  fold (distance_of vector).
  set (sim := py_max 0 (binary64 (1 - distance_of vector))).
  destruct float_literals as [H7 H5].
  set (high := binary64 (7 # 10)) in *. set (medium := binary64 (1 # 2)) in *.
  destruct (Qle_bool high sim) eqn:Ehigh;
    [|destruct (Qle_bool medium sim) eqn:Emedium].
  - apply Qle_bool_iff in Ehigh. repeat split; intros; auto; lra.
  - apply Qle_bool_iff in Emedium.
    assert (~ (high <= sim)%Q)
      by (rewrite <- Qle_bool_iff, Ehigh; discriminate).
    repeat split; intros; auto; lra.
  - assert (~ (high <= sim)%Q)
      by (rewrite <- Qle_bool_iff, Ehigh; discriminate).
    assert (~ (medium <= sim)%Q)
      by (rewrite <- Qle_bool_iff, Emedium; discriminate).
    repeat split; intros; auto; lra.
Qed.

(** C8.  The entries of the result list stand in the order of the matches
    the service returned, entry [k] being made from match [k] alone.  Its
    similarity is [max(0, 1 - distance)], the difference being the one of
    floats: it is not below 0, it is not above 1 for a distance that is
    not negative, as the distance of a bounded dissimilarity is, and it
    does not increase when the distance increases.  Its tier is High when
    the similarity is at least the float [0.7], Medium when it is at least
    [0.5] and below the float [0.7], and Low when it is below [0.5]; the
    float [0.7] is 3152519739159347 / 2^52, the binary64 number nearest to
    7/10.  The text returned is the header followed by the entries in that
    order. *)
Theorem search_knowledge_base_scores (vectors : list Match) :
  let results := map score (enumerate_from 1 vectors) in
  length results = length vectors /\
  (forall (k : nat) vector,
     vectors !! k = Some vector ->
     exists r,
       results !! k = Some r /\
       r = score (Z.of_nat k + 1, vector) /\
       rank r = Z.of_nat k + 1 /\
       similarity r = py_max 0 (binary64 (1 - distance_of vector)) /\
       (similarity r == Qmax 0 (binary64 (1 - distance_of vector)))%Q /\
       (0 <= similarity r)%Q /\
       ((0 <= distance_of vector)%Q -> (similarity r <= 1)%Q) /\
       ((binary64 (7 # 10) <= similarity r)%Q -> quality r = lit "High") /\
       ((binary64 (1 # 2) <= similarity r)%Q ->
        (similarity r < binary64 (7 # 10))%Q ->
          quality r = lit "Medium") /\
       ((similarity r < binary64 (1 # 2))%Q -> quality r = lit "Low")) /\
  (forall i j v1 v2,
     (distance_of v1 <= distance_of v2)%Q ->
     (similarity (score (j, v2)) <= similarity (score (i, v1)))%Q) /\
  ((binary64 (7 # 10) == 3152519739159347 # 4503599627370496)%Q /\
   (binary64 (1 # 2) == 1 # 2)%Q) /\
  (forall query top_k b s query_embedding b',
     generate_embedding_vector bedrock uniform query b
       = (Ok query_embedding, b') ->
     s3_fault (length (calls s)) = None ->
     s3_matches (length (calls s)) = Some vectors ->
     vectors <> [] ->
     search_knowledge_base bedrock uniform s3_fault s3_matches query top_k (b, s)
     = (Ok (lit "Found " ++ str_of_int (len vectors) ++
            lit " relevant passages for: " ++ [34%N] ++ query ++
            [34%N; 10%N; 10%N] ++ join [10%N] (map render results)),
        (b', mkS3 (records s)
                  (calls s ++ [QueryVectors query_embedding top_k])))).
Proof.
  cbv zeta. split; [|split; [|split; [|split]]].
  - rewrite length_map, length_enumerate_from. reflexivity.
  - intros k vector Hk. exists (score (Z.of_nat k + 1, vector)).
    split.
    { rewrite list_lookup_fmap, (enumerate_from_lookup _ _ _ _ Hk).
      replace (1 + Z.of_nat k) with (Z.of_nat k + 1) by lia. reflexivity. }
    split; [reflexivity|]. split; [reflexivity|].
    split; [apply similarity_score|].
    pose proof (quality_score (Z.of_nat k + 1) vector) as Hq.
    cbv zeta in Hq. rewrite similarity_score in *.
    split; [apply py_max_Qmax|].
    assert (Hone : (0 <= distance_of vector ->
                    binary64 (1 - distance_of vector) <= 1)%Q).
    { intros Hd. pose proof binary64_one as H1.
      pose proof (binary64_mono (1 - distance_of vector) 1 ltac:(lra)). lra. }
    destruct (py_max_0_cases (binary64 (1 - distance_of vector)))
      as [[Hpos E]|[Hneg E]]; rewrite E in *.
    + split; [lra|]. split; [exact Hone|exact Hq].
    + split; [lra|]. split; [intros; lra|exact Hq].
  - intros i j v1 v2 Hle. rewrite !similarity_score.
    assert (Hmono : (binary64 (1 - distance_of v2)
                     <= binary64 (1 - distance_of v1))%Q)
      by (apply binary64_mono; lra).
    destruct (py_max_0_cases (binary64 (1 - distance_of v1))) as [[? ->]|[? ->]],
             (py_max_0_cases (binary64 (1 - distance_of v2))) as [[? ->]|[? ->]];
      lra.
  - exact float_literals.
  - intros query top_k b s query_embedding b' Hembed Hfault Hmatches Hne.
    unfold search_knowledge_base, bind, try_except, in_bedrock, in_s3,
      query_vectors, s3_request, ret.
    cbn [fst snd]. rewrite Hembed. cbn [fst snd]. rewrite Hfault, Hmatches.
    cbn [default]. destruct vectors as [|v vs]; [contradiction|].
    unfold len. rewrite !length_map, length_enumerate_from.
    rewrite <- !app_assoc. reflexivity.
Qed.

End Scores.

(** A match at the distance that the float 0.30000000000000004 denotes:
    the similarity is the float 0.7, and the tier is High. *)
Lemma search_knowledge_base_scores_witness :
  exists r,
    map VectorSearch.score
      (Effects.enumerate_from 1
         [VectorSearch.mkMatch
            (Some (1351079888211149 # 4503599627370496)%Q) None None None])
      !! 0%nat
    = Some r /\
    (VectorSearch.similarity r == 3152519739159347 # 4503599627370496)%Q /\
    VectorSearch.quality r = Py.lit "High".
Proof.
  destruct (proj1 (proj2 (search_knowledge_base_scores
                            Examples.always_answers Examples.quarter
                            Examples.no_fault Examples.no_matches
                            [VectorSearch.mkMatch
                               (Some (1351079888211149 # 4503599627370496)%Q)
                               None None None]))
              0%nat _ eq_refl)
    as (r & Hr & _ & _ & Hsim & _ & _ & _ & Hhigh & _).
  assert (Hvalue :
    (VectorSearch.similarity r == 3152519739159347 # 4503599627370496)%Q)
    by (rewrite Hsim; vm_compute; reflexivity).
  exists r. split; [exact Hr|]. split; [exact Hvalue|].
  apply Hhigh. rewrite Hvalue. vm_compute. discriminate.
Defined.

(** ** More on [chunk_text]: size, coverage, the last chunk *)

Section Strip.
Import Py.

Lemma lstrip_length (s : str) : (length (lstrip s) <= length s)%nat.
Proof.
  induction s as [|c s IH]; cbn [lstrip]; [lia|].
  destruct (is_space c); cbn [length]; lia.
Qed.

Lemma strip_length (s : str) : (length (strip s) <= length s)%nat.
Proof.
  unfold strip, rstrip. rewrite length_reverse.
  etransitivity; [apply lstrip_length|]. rewrite length_reverse.
  apply lstrip_length.
Qed.

Lemma lstrip_nil (s : str) : lstrip s = [] -> Forall (fun c => is_space c = true) s.
Proof.
  induction s as [|c s IH]; cbn [lstrip]; [constructor|].
  destruct (is_space c) eqn:E; [|discriminate].
  intros H. constructor; auto.
Qed.

(** What [lstrip] leaves is a suffix that does not start with whitespace. *)
Lemma lstrip_suffix (s : str) :
  exists blanks, s = blanks ++ lstrip s /\
    Forall (fun c => is_space c = true) blanks /\
    match lstrip s with
    | c :: _ => is_space c = false
    | [] => True
    end.
Proof.
  induction s as [|c s IH]; cbn [lstrip].
  - exists []. repeat split; constructor.
  - destruct (is_space c) eqn:E.
    + destruct IH as (blanks & Heq & Hall & Hhead).
      exists (c :: blanks). split; [cbn; f_equal; exact Heq|].
      split; [constructor; assumption|exact Hhead].
    + exists []. repeat split; [constructor|exact E].
Qed.

(** A text whose trim is empty is made of whitespace. *)
Lemma strip_nil (s : str) : strip s = [] -> Forall (fun c => is_space c = true) s.
Proof.
  unfold strip, rstrip. intros H.
  apply (f_equal reverse) in H. rewrite reverse_involutive in H.
  change (reverse []) with (@nil char) in H.
  apply lstrip_nil in H. rewrite Forall_reverse in H.
  destruct (lstrip_suffix s) as (blanks & Heq & Hall & Hhead).
  destruct (lstrip s) as [|c rest].
  - rewrite app_nil_r in Heq. subst blanks. exact Hall.
  - apply Forall_inv in H. congruence.
Qed.

(** A trimmed text does not start with whitespace. *)
Lemma strip_fixed_head (s : str) c rest :
  strip s = s -> s = c :: rest -> is_space c = false.
Proof.
  intros Hfix ->. destruct (is_space c) eqn:E; [|reflexivity]. exfalso.
  pose proof (strip_length (lstrip (c :: rest))) as H1.
  assert (H2 : (length (strip (c :: rest)) <= length (lstrip (c :: rest)))%nat).
  { unfold strip, rstrip. rewrite length_reverse.
    etransitivity; [apply lstrip_length|]. rewrite length_reverse. lia. }
  rewrite Hfix in H2. cbn [lstrip] in H2. rewrite E in H2.
  pose proof (lstrip_length rest). cbn [length] in H2. lia.
Qed.

(** The characters of a slice are those at the positions of the slice. *)
Lemma slice_lookup {A} (l : list A) (a b p : Z) x :
  0 <= a -> a <= p -> p < b -> b <= len l ->
  l !! Z.to_nat p = Some x -> x ∈ slice l a b.
Proof.
  intros Ha Hap Hpb Hb Hx. rewrite slice_take_drop by lia.
  apply list_elem_of_lookup. exists (Z.to_nat (p - a)).
  rewrite lookup_take_lt by lia. rewrite lookup_drop.
  replace (Z.to_nat a + Z.to_nat (p - a))%nat with (Z.to_nat p) by lia.
  exact Hx.
Qed.

End Strip.

Section Windows.
Import Py TextProcessing ChunkSpec ChunkCover.

Variable txt : str.
Variables chunk_size chunk_overlap : Z.
Hypothesis Hsize : 1 <= chunk_size.
Hypothesis Hoverlap : 0 <= chunk_overlap.

(** The chunks after one run of the loop body: the old ones, and the chunk
    of the window when its trim is not empty. *)
Lemma loop_body_chunks st :
  let end_ := window_end txt chunk_size (start st) in
  let content := strip (slice txt (start st) end_) in
  chunks (loop_body txt chunk_size chunk_overlap st) =
    match content with
    | [] => chunks st
    | _ :: _ =>
        chunks st ++ [mkTextChunk content (next_index st) (start st) end_]
    end.
Proof.
  cbv zeta. unfold loop_body. cbn [chunks].
  destruct (strip (slice txt (start st) (window_end txt chunk_size (start st))));
    reflexivity.
Qed.

(** The window never ends beyond [start + chunk_size]. *)
Lemma window_end_width (s : Z) :
  0 <= s -> s < len txt -> window_end txt chunk_size s <= s + chunk_size.
Proof.
  intros H0 Hlt. unfold window_end.
  destruct (Z.ltb_spec (Z.min (s + chunk_size) (len txt)) (len txt)).
  - etransitivity; [apply find_break_point_le; lia|lia].
  - lia.
Qed.

(** Every chunk of a result of the loop was made from a window. *)
Lemma while_loop_from_windows :
  forall (fuel : nat) st result,
    0 <= start st ->
    Forall (from_window txt chunk_size) (chunks st) ->
    while_loop fuel txt chunk_size chunk_overlap st = Some result ->
    Forall (from_window txt chunk_size) result.
Proof.
  induction fuel as [|fuel IH]; intros st result H0 Hall; simpl;
    destruct (Z.ltb_spec (start st) (len txt)) as [Hlt|Hge];
    try discriminate; try (intros [= <-]; exact Hall).
  apply IH.
  - pose proof (loop_body_advances txt chunk_size chunk_overlap st Hsize Hlt).
    lia.
  - rewrite loop_body_chunks. cbv zeta.
    destruct (strip (slice txt (start st)
                       (window_end txt chunk_size (start st)))) eqn:E;
      [exact Hall|].
    apply Forall_app. split; [exact Hall|]. apply Forall_singleton.
    unfold from_window. cbn [start_char end_char text]. rewrite E.
    repeat split; try assumption; reflexivity.
Qed.

(** What the loop has covered when it is at [start]: the visible positions
    up to some position that [start] has not passed. *)
Lemma while_loop_covers :
  forall (fuel : nat) st result (reach : Z),
    0 <= start st -> start st <= reach -> reach <= len txt ->
    (forall p, p < reach -> visible_at txt p -> covered (chunks st) p) ->
    while_loop fuel txt chunk_size chunk_overlap st = Some result ->
    forall p, p < len txt -> visible_at txt p -> covered result p.
Proof.
  induction fuel as [|fuel IH]; intros st result reach H0 Hreach Hlen Hcov; simpl;
    destruct (Z.ltb_spec (start st) (len txt)) as [Hlt|Hge];
    try discriminate;
    try (intros [= <-] p Hp Hvis; apply Hcov; [lia|exact Hvis]).
  pose proof (window_end_gt txt chunk_size (start st) Hsize Hlt) as Hgt.
  pose proof (window_end_le txt chunk_size (start st) Hsize H0 Hlt) as Hle.
  pose proof (loop_body_advances txt chunk_size chunk_overlap st Hsize Hlt) as Hadv.
  apply (IH _ _ (Z.max reach (window_end txt chunk_size (start st)))).
  - lia.
  - rewrite loop_body_start. cbv zeta.
    destruct (Z.leb_spec (window_end txt chunk_size (start st) - chunk_overlap)
                (start st)); lia.
  - lia.
  - intros p Hp Hvis. rewrite loop_body_chunks. cbv zeta.
    destruct (Z_lt_le_dec p reach) as [Hold|Hnew].
    + destruct (Hcov p Hold Hvis) as (c & Hin & Hc).
      exists c. split; [|exact Hc].
      destruct (strip _); [exact Hin|]. apply elem_of_app. left. exact Hin.
    + destruct Hvis as (c & Hp0 & Hc & Hvisible).
      assert (Hin : c ∈ slice txt (start st)
                           (window_end txt chunk_size (start st)))
        by (apply (slice_lookup txt _ _ p); [lia..|exact Hc]).
      destruct (strip (slice txt (start st)
                         (window_end txt chunk_size (start st)))) eqn:E.
      * apply strip_nil in E. rewrite Forall_forall in E.
        rewrite (E c Hin) in Hvisible. discriminate.
      * eexists. split; [apply elem_of_app; right; apply list_elem_of_singleton;
                         reflexivity|].
        cbn [start_char end_char]. lia.
Qed.

Lemma while_loop_finished (fuel : nat) st :
  len txt <= start st ->
  while_loop fuel txt chunk_size chunk_overlap st = Some (chunks st).
Proof.
  intros Hge. destruct fuel; simpl;
    destruct (Z.ltb_spec (start st) (len txt)); try lia; reflexivity.
Qed.

(** The last window of the loop, for an overlap of at least 1: it starts
    within the last [chunk_overlap] characters and ends with the text. *)
Lemma while_loop_last_window :
  1 <= chunk_overlap ->
  forall (fuel : nat) st result,
    0 <= start st -> start st < len txt ->
    while_loop fuel txt chunk_size chunk_overlap st = Some result ->
    exists s,
      len txt - chunk_overlap <= s /\ 0 <= s /\ s < len txt /\
      (strip (slice txt s (len txt)) <> [] ->
       exists before i,
         result = before ++ [mkTextChunk (strip (slice txt s (len txt))) i s (len txt)]).
Proof.
  intros Hone. induction fuel as [|fuel IH]; intros st result H0 Hlt; simpl;
    destruct (Z.ltb_spec (start st) (len txt)) as [_|Hge];
    try discriminate; try lia.
  pose proof (window_end_gt txt chunk_size (start st) Hsize Hlt) as Hgt.
  pose proof (window_end_le txt chunk_size (start st) Hsize H0 Hlt) as Hle.
  pose proof (loop_body_advances txt chunk_size chunk_overlap st Hsize Hlt) as Hadv.
  destruct (Z_lt_le_dec (start (loop_body txt chunk_size chunk_overlap st))
              (len txt)) as [Hmore|Hdone].
  - apply IH; [lia|exact Hmore].
  - rewrite while_loop_finished by exact Hdone. intros [= <-].
    rewrite loop_body_start in Hdone. cbv zeta in Hdone.
    destruct (Z.leb_spec (window_end txt chunk_size (start st) - chunk_overlap)
                (start st)) as [Hforced|Hfree]; [|lia].
    assert (Hend : window_end txt chunk_size (start st) = len txt) by lia.
    pose proof (loop_body_chunks st) as Hchunks. cbv zeta in Hchunks.
    rewrite Hend in Hchunks.
    exists (start st). split; [lia|]. split; [lia|]. split; [lia|].
    intros Hvisible.
    destruct (strip (slice txt (start st) (len txt))); [contradiction|].
    eexists _, _. exact Hchunks.
Qed.

End Windows.

Section ChunkProperties.
Import Py TextProcessing ChunkSpec ChunkCover.

Lemma slice_whole {A} (l : list A) : slice l 0 (len l) = l.
Proof.
  rewrite slice_take_drop by (pose proof (len_nonneg l); lia).
  cbn [Z.to_nat drop]. apply take_ge. unfold len. lia.
Qed.

(** The three ways in which [chunk_text] returns. *)
Lemma chunk_text_cases (txt : str) (chunk_size chunk_overlap : Z) result :
  chunk_text txt chunk_size chunk_overlap = Some result ->
  (txt = [] /\ result = []) \/
  (0 < len txt /\ len txt <= chunk_size /\
   result = [mkTextChunk txt 0 0 (len txt)]) \/
  (0 < len txt /\ chunk_size < len txt /\
   while_loop (length txt) txt chunk_size chunk_overlap (mkLoop [] 0 0)
   = Some result).
Proof.
  unfold chunk_text. destruct txt as [|c0 txt'] eqn:Etxt.
  - intros [= <-]. left. auto.
  - rewrite <- Etxt.
    assert (Hpos : 0 < len txt) by (subst txt; unfold len; cbn [length]; lia).
    destruct (Z.leb_spec (len txt) chunk_size) as [Hshort|Hlong].
    + intros [= <-]. right. left. auto.
    + intros Hrun. right. right. auto.
Qed.

Lemma chunk_text_short (txt : str) (chunk_size chunk_overlap : Z) :
  txt <> [] -> len txt <= chunk_size ->
  chunk_text txt chunk_size chunk_overlap
  = Some [mkTextChunk txt 0 0 (len txt)].
Proof.
  intros Hne Hshort. unfold chunk_text. destruct txt as [|c0 txt'] eqn:Etxt;
    [contradiction|]. rewrite <- Etxt in *.
  destruct (Z.leb_spec (len txt) chunk_size); [reflexivity|lia].
Qed.

Lemma chunk_text_long (txt : str) (chunk_size chunk_overlap : Z) :
  0 <= chunk_size -> chunk_size < len txt ->
  chunk_text txt chunk_size chunk_overlap
  = while_loop (length txt) txt chunk_size chunk_overlap (mkLoop [] 0 0).
Proof.
  intros Hsize Hlong. unfold chunk_text. destruct txt as [|c0 txt'] eqn:Etxt.
  - unfold len in Hlong. cbn [length] in Hlong. lia.
  - rewrite <- Etxt in *.
    destruct (Z.leb_spec (len txt) chunk_size); [lia|reflexivity].
Qed.

(** X1.  With [chunk_size >= 1] and [chunk_overlap >= 0], no chunk spans
    more than [chunk_size] characters of the text, and the text of a chunk
    is never longer than the span between its offsets. *)
Theorem chunk_text_chunk_size (txt : str) (chunk_size chunk_overlap : Z) result :
  1 <= chunk_size -> 0 <= chunk_overlap ->
  chunk_text txt chunk_size chunk_overlap = Some result ->
  Forall (fun c => end_char c - start_char c <= chunk_size /\
                   len (text c) <= end_char c - start_char c) result.
Proof.
  intros Hsize Hoverlap Hrun.
  apply chunk_text_cases in Hrun
    as [[_ ->]|[(Hpos & Hshort & ->)|(Hpos & Hlong & Hrun)]].
  - constructor.
  - apply Forall_singleton. cbn [start_char end_char text]. lia.
  - apply (while_loop_from_windows txt chunk_size chunk_overlap Hsize) in Hrun;
      [|cbn [start]; lia|constructor].
    eapply Forall_impl; [exact Hrun|]. cbn beta.
    intros c (H0 & Hlt & Hend & Htext).
    pose proof (window_end_width txt chunk_size Hsize (start_char c) H0 Hlt).
    pose proof (window_end_gt txt chunk_size (start_char c) Hsize Hlt).
    pose proof (window_end_le txt chunk_size (start_char c) Hsize H0 Hlt).
    split; [lia|]. rewrite Htext.
    rewrite <- (slice_len txt (start_char c) (end_char c)) by lia.
    unfold len. pose proof (strip_length (slice txt (start_char c) (end_char c))).
    lia.
Qed.

Lemma chunk_text_chunk_size_witness :
  exists result,
    chunk_text (lit "one two three four") 7 2 = Some result /\
    Forall (fun c => end_char c - start_char c <= 7 /\
                     len (text c) <= end_char c - start_char c) result.
Proof.
  destruct (chunk_text (lit "one two three four") 7 2) as [result|] eqn:E;
    [|vm_compute in E; discriminate].
  exists result. split; [reflexivity|].
  apply (chunk_text_chunk_size (lit "one two three four") 7 2);
    [lia|lia|exact E].
Defined.

(** X2.  With [chunk_size >= 1] and [chunk_overlap >= 0], nothing but
    whitespace is left out: every position of the text that holds a
    character other than whitespace lies between the offsets of some
    chunk. *)
Theorem chunk_text_covers (txt : str) (chunk_size chunk_overlap : Z) result :
  1 <= chunk_size -> 0 <= chunk_overlap ->
  chunk_text txt chunk_size chunk_overlap = Some result ->
  forall p, visible_at txt p -> covered result p.
Proof.
  intros Hsize Hoverlap Hrun p Hvis.
  assert (Hp : 0 <= p /\ p < len txt).
  { destruct Hvis as (c & Hp0 & Hc & _). apply lookup_lt_Some in Hc.
    unfold len. lia. }
  apply chunk_text_cases in Hrun
    as [[-> _]|[(Hpos & Hshort & ->)|(Hpos & Hlong & Hrun)]].
  - unfold len in Hp. cbn [length] in Hp. lia.
  - eexists. split; [apply list_elem_of_singleton; reflexivity|].
    cbn [start_char end_char]. lia.
  - apply (while_loop_covers txt chunk_size chunk_overlap Hsize Hoverlap
             (length txt) (mkLoop [] 0 0) result 0); cbn [start];
      try lia; try assumption.
    intros q Hq (? & ? & _). lia.
Qed.

Lemma chunk_text_covers_witness :
  exists result,
    chunk_text (lit "one two three four") 7 2 = Some result /\
    covered result 14.
Proof.
  destruct (chunk_text (lit "one two three four") 7 2) as [result|] eqn:E;
    [|vm_compute in E; discriminate].
  exists result. split; [reflexivity|].
  apply (chunk_text_covers (lit "one two three four") 7 2);
    [lia|lia|exact E|].
  exists 102%N. split; [lia|]. split; vm_compute; reflexivity.
Defined.

(** X3.  For a non-empty text without leading or trailing whitespace, as
    [extract_text] returns it, and with [chunk_size >= 1] and
    [chunk_overlap >= 0], [chunk_text] returns at least one chunk, and
    every chunk, also the single chunk of a short text, holds the trimmed
    slice between its offsets. *)
Theorem chunk_text_of_trimmed_text (txt : str) (chunk_size chunk_overlap : Z) :
  1 <= chunk_size -> 0 <= chunk_overlap ->
  txt <> [] -> strip txt = txt ->
  exists result,
    chunk_text txt chunk_size chunk_overlap = Some result /\
    result <> [] /\
    well_formed txt result.
Proof.
  intros Hsize Hoverlap Hne Hfix.
  destruct (Z.leb_spec (len txt) chunk_size) as [Hshort|Hlong].
  - rewrite chunk_text_short by assumption.
    assert (Hpos : 0 < len txt)
      by (destruct txt; [contradiction|unfold len; cbn [length]; lia]).
    eexists. split; [reflexivity|]. split; [discriminate|].
    split; [|split].
    + intros i d Hi. apply list_lookup_singleton_Some in Hi as [-> <-]. reflexivity.
    + intros i j d e Hi Hj Hij.
      apply list_lookup_singleton_Some in Hi as [-> _].
      apply list_lookup_singleton_Some in Hj as [-> _]. lia.
    + apply Forall_singleton. unfold offsets_in_text, text_trimmed.
      cbn [start_char end_char text]. rewrite slice_whole, Hfix.
      split; [lia|]. split; [reflexivity|exact Hne].
  - rewrite chunk_text_long by lia.
    destruct (while_loop_enough_fuel txt chunk_size chunk_overlap Hsize
                (length txt) (mkLoop [] 0 0)) as [result Hrun].
    { cbn [start]. unfold len. lia. }
    exists result. split; [exact Hrun|]. split.
    + assert (Hcov : covered result 0).
      { destruct txt as [|c0 txt'] eqn:Etxt; [contradiction|].
        rewrite <- Etxt in *.
        apply (while_loop_covers txt chunk_size chunk_overlap Hsize Hoverlap
                 (length txt) (mkLoop [] 0 0) result 0); cbn [start];
          try lia; try assumption.
        - intros q Hq (? & ? & _). lia.
        - exists c0. split; [lia|]. split; [rewrite Etxt; reflexivity|].
          eapply strip_fixed_head; [exact Hfix|exact Etxt]. }
      destruct Hcov as (c & Hin & _). intros ->. inversion Hin.
    + eapply while_loop_well_formed; [exact Hsize|exact Hoverlap| |exact Hrun].
      apply loop_invariant_init.
Qed.

Lemma chunk_text_of_trimmed_text_witness :
  exists result,
    chunk_text (lit "a b") 10 2 = Some result /\
    result <> [] /\ well_formed (lit "a b") result.
Proof.
  apply (chunk_text_of_trimmed_text (lit "a b") 10 2);
    [lia|lia|discriminate|vm_compute; reflexivity].
Defined.

(** X4.  For a text longer than [chunk_size] that ends in a character other
    than whitespace, and with [chunk_overlap >= 1], the last chunk ends with
    the text and starts within its last [chunk_overlap] characters: it
    spans at most [chunk_overlap] characters. *)
Theorem chunk_text_last_chunk (txt : str) (chunk_size chunk_overlap : Z) result :
  1 <= chunk_size -> 1 <= chunk_overlap ->
  chunk_size < len txt ->
  visible_at txt (len txt - 1) ->
  chunk_text txt chunk_size chunk_overlap = Some result ->
  exists before last_chunk,
    result = before ++ [last_chunk] /\
    end_char last_chunk = len txt /\
    len txt - chunk_overlap <= start_char last_chunk /\
    start_char last_chunk < len txt /\
    text last_chunk = strip (slice txt (start_char last_chunk) (len txt)).
Proof.
  intros Hsize Hoverlap Hlong Hvis Hrun.
  apply chunk_text_cases in Hrun
    as [[-> _]|[(_ & Hshort & _)|(Hpos & _ & Hrun)]].
  - unfold len in Hlong. cbn [length] in Hlong. lia.
  - lia.
  - destruct (while_loop_last_window txt chunk_size chunk_overlap Hsize
                Hoverlap (length txt) (mkLoop [] 0 0) result)
      as (s & Hs & Hs0 & Hslt & Hlast); cbn [start]; try lia; try assumption.
    destruct Hlast as (before & i & ->).
    + intros Hempty. apply strip_nil in Hempty. rewrite Forall_forall in Hempty.
      destruct Hvis as (c & _ & Hc & Hvisible).
      rewrite (Hempty c) in Hvisible; [discriminate|].
      apply (slice_lookup txt s (len txt) (len txt - 1)); [lia..|exact Hc].
    + eexists _, _. split; [reflexivity|]. cbn [start_char end_char text].
      repeat split; try lia.
Qed.

Lemma chunk_text_last_chunk_witness :
  exists before last_chunk,
    chunk_text (lit "abcdefghijk") 10 3 = Some (before ++ [last_chunk]) /\
    end_char last_chunk = 11 /\ 11 - 3 <= start_char last_chunk.
Proof.
  destruct (chunk_text (lit "abcdefghijk") 10 3) as [result|] eqn:E;
    [|vm_compute in E; discriminate].
  assert (Hlong : 10 < len (lit "abcdefghijk")) by (vm_compute; reflexivity).
  assert (Hvis : visible_at (lit "abcdefghijk") (len (lit "abcdefghijk") - 1))
    by (exists 107%N; split; [vm_compute; discriminate|];
        split; vm_compute; reflexivity).
  destruct (chunk_text_last_chunk (lit "abcdefghijk") 10 3 result
              ltac:(lia) ltac:(lia) Hlong Hvis E)
    as (before & last_chunk & Heq & Hend & Hstart & _).
  exists before, last_chunk. rewrite <- Heq. auto.
Defined.

End ChunkProperties.

(** ** More on [generate_embedding_vector]: how much it calls and waits *)

Section RetryBounds.
Import Py Effects EmbeddingsClient EmbedSpec.

Variable bedrock : nat -> str -> result embedding.
Variable uniform : nat -> Q.

Lemma py_min_cap (a b : Q) : (py_min a b <= b)%Q.
Proof.
  unfold py_min. destruct (Qlt_le_dec b a); [apply Qle_refl|assumption].
Qed.

Lemma retry_loop_bounded (body : str) :
  forall attempts (w : world) r w',
    retry_loop bedrock uniform attempts body w = (r, w') ->
    exists called waits,
      invocations w' = invocations w ++ called /\
      sleeps w' = sleeps w ++ waits /\
      draws w' = (draws w + length waits)%nat /\
      (length called <= length attempts)%nat /\
      (r <> Ok None -> length called = S (length waits)) /\
      Forall (fun d => (d <= 30)%Q) waits /\
      Forall (fun entry => entry.1 = body) called.
Proof.
  induction attempts as [|attempt rest IH]; intros w r w' Hrun.
  - cbn in Hrun. injection Hrun as <- <-. exists [], [].
    rewrite !app_nil_r, Nat.add_0_r. cbn [length].
    split; [reflexivity|]. split; [reflexivity|]. split; [reflexivity|].
    split; [lia|]. split; [intros H; contradiction|].
    split; constructor.
  - destruct (bedrock (length (invocations w)) body) as [v|e] eqn:Hans.
    + rewrite (retry_loop_ok _ _ _ _ _ _ v Hans) in Hrun.
      injection Hrun as <- <-. exists [(body, Ok v)], [].
      cbn [invocations sleeps draws length]. rewrite app_nil_r, Nat.add_0_r.
      split; [reflexivity|]. split; [reflexivity|]. split; [reflexivity|].
      split; [lia|]. split; [reflexivity|].
      split; [constructor|]. apply Forall_singleton. reflexivity.
    + destruct (classic_rate_limited e attempt) as [[Hrl Hlt]|Hstop].
      * rewrite retry_loop_retry in Hrun; [|exact Hlt|rewrite Hans; exact Hrl].
        apply IH in Hrun
          as (called & waits & Hinv & Hsl & Hdr & Hlen & Hcount & Hcap & Hbody).
        cbn [invocations sleeps draws] in Hinv, Hsl, Hdr.
        exists ((body, bedrock (length (invocations w)) body) :: called),
               (py_min (inject_Z (2 ^ attempt) + uniform (draws w)) 30 :: waits).
        cbn [length].
        split; [rewrite Hinv, <- app_assoc; reflexivity|].
        split; [rewrite Hsl, <- app_assoc; reflexivity|].
        split; [lia|]. split; [lia|].
        split; [intros Hr; rewrite (Hcount Hr); reflexivity|].
        split; [constructor; [apply py_min_cap|exact Hcap]|].
        constructor; [reflexivity|exact Hbody].
      * rewrite (retry_loop_raise _ _ _ _ _ _ e Hans Hstop) in Hrun.
        injection Hrun as <- <-. exists [(body, Raise e)], [].
        cbn [invocations sleeps draws length]. rewrite app_nil_r, Nat.add_0_r.
        split; [reflexivity|]. split; [reflexivity|]. split; [reflexivity|].
        split; [lia|]. split; [reflexivity|].
        split; [constructor|]. apply Forall_singleton. reflexivity.
Qed.

(** X5.  Whatever Bedrock answers and whatever the random source gives, one
    call of [generate_embedding_vector] makes between 1 and 6 [invoke_model]
    calls, all with the first 30,000 characters of the text, waits once
    between two consecutive calls and not otherwise, never longer than 30
    seconds at a time, and does not return [None]. *)
Theorem generate_embedding_vector_bounded (text : str) (w : world) r w' :
  generate_embedding_vector bedrock uniform text w = (r, w') ->
  r <> Ok None /\
  exists called waits,
    invocations w' = invocations w ++ called /\
    sleeps w' = sleeps w ++ waits /\
    (1 <= length called <= 6)%nat /\
    length called = S (length waits) /\
    Forall (fun d => (d <= 30)%Q) waits /\
    Forall (fun entry => entry.1 = truncated text) called.
Proof.
  intros Hrun.
  assert (Hsome : r <> Ok None).
  { intros ->. apply generate_embedding_vector_ok in Hrun
      as (v & new & Hv & _). discriminate. }
  split; [exact Hsome|].
  rewrite generate_embedding_vector_truncates in Hrun.
  apply retry_loop_bounded in Hrun
    as (called & waits & Hinv & Hsl & _ & Hlen & Hcount & Hcap & Hbody).
  exists called, waits. specialize (Hcount Hsome).
  change (length (range (MAX_RETRIES + 1))) with 6%nat in Hlen.
  split; [exact Hinv|]. split; [exact Hsl|]. split; [lia|].
  split; [exact Hcount|]. split; [exact Hcap|exact Hbody].
Qed.

End RetryBounds.

(** Two throttled attempts before the answer: three calls, two waits. *)
Lemma generate_embedding_vector_bounded_witness :
  exists called (waits : list Q),
    EmbeddingsClient.invocations
      (EmbeddingsClient.generate_embedding_vector Examples.throttled_twice
         Examples.quarter (Py.lit "hello") Examples.fresh).2
    = called /\
    length called = S (length waits) /\ (length called <= 6)%nat.
Proof.
  destruct (generate_embedding_vector_bounded
              Examples.throttled_twice Examples.quarter
              (Py.lit "hello") Examples.fresh _ _ (surjective_pairing _))
    as (_ & called & waits & Hinv & _ & Hlen & Hcount & _).
  exists called, waits. split; [exact Hinv|]. split; [exact Hcount|lia].
Defined.

(** ** More on the keys of the vector index *)

Section KeyFormat.
Import Py Effects EmbeddingsClient VectorSearch IndexSpec.

Lemma lit_cons (a : ascii) (s : string) :
  lit (String a s) = N_of_ascii a :: lit s.
Proof. reflexivity. Qed.

Lemma lit_inj (s t : string) : lit s = lit t -> s = t.
Proof.
  revert t. induction s as [|a s IH]; intros [|b t]; try discriminate.
  - reflexivity.
  - rewrite !lit_cons. intros [= Hab Hst]. f_equal; [|apply IH, Hst].
    rewrite <- (ascii_N_embedding a), <- (ascii_N_embedding b), Hab.
    reflexivity.
Qed.

Lemma to_int_not_nil (z : Z) :
  Z.to_int z <> Decimal.Pos Decimal.Nil /\ Z.to_int z <> Decimal.Neg Decimal.Nil.
Proof.
  destruct z as [|p|p]; cbn; split; try discriminate;
    intros [= H]; exact (Unsigned.to_uint_nonnil p H).
Qed.

(** [str(i)] tells the integers apart. *)
Lemma str_of_int_inj (i j : Z) : str_of_int i = str_of_int j -> i = j.
Proof.
  unfold str_of_int. intros H. apply lit_inj in H.
  apply (f_equal NilZero.int_of_string) in H.
  destruct (to_int_not_nil i), (to_int_not_nil j).
  rewrite !NilZero.isi in H by assumption.
  injection H as H. apply DecimalZ.to_int_inj, H.
Qed.

Lemma uint_digits (d : Decimal.uint) :
  Forall (fun c => c <> 35%N) (lit (NilEmpty.string_of_uint d)).
Proof.
  induction d; cbn [NilEmpty.string_of_uint]; [constructor|..];
    rewrite lit_cons; (constructor; [discriminate|assumption]).
Qed.

(** [str(i)] holds no ['#']. *)
Lemma str_of_int_no_hash (i : Z) : Forall (fun c => c <> 35%N) (str_of_int i).
Proof.
  unfold str_of_int. destruct (Z.to_int i) as [d|d];
    cbn [NilZero.string_of_int].
  - destruct d; try apply (uint_digits _).
    cbn. constructor; [discriminate|constructor].
  - rewrite lit_cons. constructor; [discriminate|].
    destruct d; try apply (uint_digits _).
    cbn. constructor; [discriminate|constructor].
Qed.

(** Two texts cut at a character that the parts after the cut do not hold
    are cut at the same place. *)
Lemma split_at_last {A} (x : A) (l1 l2 r1 r2 : list A) :
  l1 ++ x :: r1 = l2 ++ x :: r2 ->
  Forall (fun c => c <> x) r1 -> Forall (fun c => c <> x) r2 ->
  l1 = l2 /\ r1 = r2.
Proof.
  intros Heq Hr1 Hr2. revert l2 Heq.
  induction l1 as [|a l1 IH]; intros [|b l2] Heq; cbn in Heq.
  - injection Heq as ->. auto.
  - injection Heq as <- ->. exfalso.
    rewrite Forall_app, Forall_cons in Hr1. tauto.
  - injection Heq as -> <-. exfalso.
    rewrite Forall_app, Forall_cons in Hr2. tauto.
  - injection Heq as -> Heq. destruct (IH l2 Heq) as [-> ->]. auto.
Qed.

(** X6.  The key [document_id#i] determines both the document and the chunk
    index: two keys are equal only for the same document id and the same
    index, also when a document id itself holds a ['#']. *)
Theorem vector_key_inj (d1 d2 : str) (i j : Z) :
  vector_key d1 i = vector_key d2 j <-> d1 = d2 /\ i = j.
Proof.
  split; [|intros [-> ->]; reflexivity].
  unfold vector_key. change (lit "#") with [35%N]. cbn [app].
  intros Heq.
  apply split_at_last in Heq as [-> Hij]; try apply str_of_int_no_hash.
  split; [reflexivity|]. apply str_of_int_inj, Hij.
Qed.

Lemma document_keys_NoDup (document_id : str) (n : nat) :
  NoDup (document_keys document_id n).
Proof.
  unfold document_keys. apply NoDup_fmap_2_strong; [|apply NoDup_seq].
  intros i j _ _ Heq.
  assert (vector_key document_id (Z.of_nat i) = vector_key document_id (Z.of_nat j))
    as Hkey by exact Heq.
  apply split_at_last in Hkey as [_ Hij]; try apply str_of_int_no_hash.
  - apply str_of_int_inj in Hij. lia.
Qed.

End KeyFormat.

(** ** More on [store_document_vectors] and [delete_document_vectors] *)

Section StoreFacts.
Import Py Effects EmbeddingsClient VectorSearch IndexSpec.

Variable s3_fault : nat -> option exn.

Lemma put_all_lookup_nodup (vectors : list VectorRecord) :
  forall (m : gmap str VectorRecord) (k : nat) v,
    NoDup (map key vectors) -> vectors !! k = Some v ->
    put_all m vectors !! key v = Some v.
Proof.
  induction vectors as [|v0 vectors IH]; intros m k v Hnodup Hk;
    [discriminate|].
  cbn [map] in Hnodup. apply NoDup_cons in Hnodup as [Hfresh Hnodup].
  cbn [put_all foldl]. fold (put_all (<[key v0 := v0]> m) vectors).
  destruct k as [|k].
  - injection Hk as <-. rewrite put_all_lookup_other by exact Hfresh.
    apply lookup_insert_eq.
  - eapply IH; [exact Hnodup|exact Hk].
Qed.

Lemma put_all_size (vectors : list VectorRecord) :
  forall (m : gmap str VectorRecord),
    NoDup (map key vectors) ->
    (forall k, k ∈ map key vectors -> m !! k = None) ->
    size (put_all m vectors) = (size m + length vectors)%nat.
Proof.
  induction vectors as [|v0 vectors IH]; intros m Hnodup Hnew.
  - cbn. lia.
  - cbn [map] in Hnodup, Hnew. apply NoDup_cons in Hnodup as [Hfresh Hnodup].
    cbn [put_all foldl length]. fold (put_all (<[key v0 := v0]> m) vectors).
    rewrite IH; [| exact Hnodup |].
    + rewrite map_size_insert_None by (apply Hnew; left). lia.
    + intros k Hk. rewrite lookup_insert_ne.
      * apply Hnew. right. exact Hk.
      * intros Heq. apply Hfresh. rewrite Heq. exact Hk.
Qed.

Lemma enumerate_from_zip_lookup (document_id document_filename : str)
    (pairs : list (str * embedding)) (k : nat) pair :
  pairs !! k = Some pair ->
  map (build_vector document_id document_filename) (enumerate pairs) !! k
  = Some (build_vector document_id document_filename (Z.of_nat k, pair)).
Proof.
  intros Hk. rewrite list_lookup_fmap. unfold enumerate.
  rewrite (enumerate_from_lookup _ _ _ _ Hk). reflexivity.
Qed.

(** X7.  After a call of [store_document_vectors] that returns, the record
    of every pair of a text and an embedding at one position [k] is in the
    index under the key [document_id#k]; it names the document and carries
    the index [k].  When the index held no record under the keys of the
    document before, it holds exactly [min(len(chunk_texts),
    len(embeddings))] records more. *)
Theorem store_document_vectors_lookup (document_id document_filename : str)
    (chunk_texts : list str) (embeddings : list embedding) (w : s3vectors) c w' :
  store_document_vectors s3_fault document_id document_filename
    chunk_texts embeddings w = (Ok c, w') ->
  (forall (k : nat) text e,
     chunk_texts !! k = Some text -> embeddings !! k = Some e ->
     exists v,
       records w' !! vector_key document_id (Z.of_nat k) = Some v /\
       v = build_vector document_id document_filename (Z.of_nat k, (text, e)) /\
       data v = e /\
       VectorSearch.document_id (metadata v) = document_id /\
       chunk_index (metadata v) = Z.of_nat k) /\
  ((forall k, under_prefix document_id k -> records w !! k = None) ->
   size (records w')
   = (size (records w) + min (length chunk_texts) (length embeddings))%nat).
Proof.
  intros Hrun. apply store_document_vectors_run in Hrun as (_ & Hrec & _).
  set (vectors := map (build_vector document_id document_filename)
                      (enumerate (zip chunk_texts embeddings))) in *.
  assert (Hkeys : map key vectors
                  = document_keys document_id
                      (min (length chunk_texts) (length embeddings)))
    by apply build_vector_keys.
  assert (Hnodup : NoDup (map key vectors))
    by (rewrite Hkeys; apply document_keys_NoDup).
  split.
  - intros k text e Htext He.
    assert (Hpair : zip chunk_texts embeddings !! k = Some (text, e)).
    { rewrite lookup_zip_with, Htext. cbn. rewrite He. reflexivity. }
    pose proof (enumerate_from_zip_lookup document_id document_filename
                  _ _ _ Hpair) as Hv.
    fold vectors in Hv.
    eexists. split; [|repeat split].
    rewrite Hrec.
    apply (put_all_lookup_nodup vectors (records w) k _ Hnodup Hv).
  - intros Hclean. rewrite Hrec, put_all_size.
    + f_equal. rewrite <- (length_map key), Hkeys, length_document_keys.
      reflexivity.
    + exact Hnodup.
    + intros k Hk. rewrite Hkeys in Hk.
      apply Hclean. eapply document_keys_under_prefix, Hk.
Qed.

(** The store loop where the call of one batch fails. *)
Lemma store_batches_fail (vectors : list VectorRecord) e :
  forall (done : list Z) (s : Z) (rest : list Z) (stored_count : Z) (w : s3vectors),
    (forall i, (i < length done)%nat ->
       s3_fault (length (calls w) + i) = None) ->
    s3_fault (length (calls w) + length done) = Some e ->
    let batch := fun s => slice vectors s (s + VECTORS_PER_BATCH) in
    store_batches s3_fault (done ++ s :: rest) vectors stored_count w
    = (Raise e,
       mkS3 (put_all (records w) (concat (map batch done)))
            (calls w ++ map PutVectors (map batch (done ++ [s])))).
Proof.
  induction done as [|s0 done IH]; intros s rest stored_count w Hok Hfail;
    cbv zeta.
  - cbn [app length] in *. rewrite Nat.add_0_r in Hfail.
    cbn [store_batches]. unfold bind, put_vectors, s3_request.
    rewrite Hfail. reflexivity.
  - cbn [app store_batches]. unfold bind, put_vectors, s3_request.
    pose proof (Hok 0%nat ltac:(cbn; lia)) as H0. rewrite Nat.add_0_r in H0.
    rewrite H0. rewrite IH.
    + cbn [records calls map concat]. rewrite put_all_app, <- app_assoc.
      reflexivity.
    + intros i Hi. cbn [calls]. rewrite length_app. cbn [length].
      replace (length (calls w) + 1 + i)%nat
        with (length (calls w) + S i)%nat by lia.
      apply Hok. cbn [length]. lia.
    + cbn [calls]. rewrite length_app. cbn [length].
      replace (length (calls w) + 1 + length done)%nat
        with (length (calls w) + S (length done))%nat by lia.
      exact Hfail.
Qed.

(** X8.  When the call for batch [j] of [store_document_vectors] is the
    first that fails, the exception is raised at once: the batches up to
    [j] have been submitted and no later one, and the records of the
    batches before [j] stay in the index. *)
Theorem store_document_vectors_partial (document_id document_filename : str)
    (chunk_texts : list str) (embeddings : list embedding) (w : s3vectors)
    (j : nat) e :
  let vectors := map (build_vector document_id document_filename)
                     (enumerate (zip chunk_texts embeddings)) in
  (j < length (batches_of vectors))%nat ->
  (forall i, (i < j)%nat -> s3_fault (length (calls w) + i) = None) ->
  s3_fault (length (calls w) + j) = Some e ->
  store_document_vectors s3_fault document_id document_filename
    chunk_texts embeddings w
  = (Raise e,
     mkS3 (put_all (records w) (concat (take j (batches_of vectors))))
          (calls w ++ map PutVectors (take (S j) (batches_of vectors)))).
Proof.
  intros vectors Hj Hok Hfail. unfold store_document_vectors. fold vectors.
  unfold batches_of in *. rewrite length_map in Hj.
  set (starts := range_step (len vectors) VECTORS_PER_BATCH) in *.
  destruct (lookup_lt_is_Some_2 starts j Hj) as [s Hs].
  rewrite <- (take_drop_middle starts j s Hs) at 1.
  rewrite (store_batches_fail vectors e (take j starts) s
             (drop (S j) starts) 0 w).
  - cbv zeta. rewrite <- !fmap_take.
    rewrite (take_S_r starts j s Hs). reflexivity.
  - intros i Hi. apply Hok. rewrite length_take in Hi. lia.
  - rewrite length_take, Nat.min_l by lia. exact Hfail.
Qed.

Lemma succeeded_count {A} (batches : list (list A)) :
  Forall (fun batch => 1 <= len batch) batches ->
  forall n,
    len (concat (succeeded s3_fault n batches)) <= len (concat batches) /\
    (len (concat (succeeded s3_fault n batches)) = len (concat batches) <->
     forall i, (i < length batches)%nat -> s3_fault (n + i) = None).
Proof.
  induction 1 as [|batch batches Hbatch Hall IH]; intros n.
  - cbn. split; [lia|]. split; [intros _ i Hi; lia|reflexivity].
  - destruct (IH (S n)) as [Hle Hiff]. cbn [succeeded concat length].
    rewrite len_app.
    destruct (s3_fault n) eqn:Hn.
    + split; [lia|]. split; [lia|].
      intros Hnone. specialize (Hnone 0%nat ltac:(lia)).
      rewrite Nat.add_0_r in Hnone. congruence.
    + cbn [concat]. rewrite len_app. split; [lia|]. split.
      * intros Heq i Hi. destruct i as [|i].
        -- rewrite Nat.add_0_r. exact Hn.
        -- replace (n + S i)%nat with (S n + i)%nat by lia.
           apply Hiff; lia.
      * intros Hnone. f_equal. apply Hiff. intros i Hi.
        replace (S n + i)%nat with (n + S i)%nat by lia. apply Hnone. lia.
Qed.

(** X9.  With [chunk_count >= 0] and a service that fails with
    [ClientError]s only, [delete_document_vectors] never reports more than
    [chunk_count] deleted keys, and it reports exactly [chunk_count] if and
    only if none of its calls failed: comparing the count with
    [chunk_count] detects every failed batch. *)
Theorem delete_document_vectors_count (document_id : str) (chunk_count : Z)
    (w : s3vectors) :
  0 <= chunk_count ->
  only_client_errors s3_fault ->
  exists deleted_count w',
    delete_document_vectors s3_fault document_id chunk_count w
    = (Ok deleted_count, w') /\
    deleted_count <= chunk_count /\
    (deleted_count = chunk_count <->
     forall i, (length (calls w) <= i < length (calls w'))%nat ->
       s3_fault i = None).
Proof.
  intros Hcount Honly. unfold delete_document_vectors.
  rewrite range_keys.
  set (keys := document_keys document_id (Z.to_nat chunk_count)).
  rewrite delete_batches_run by exact Honly. cbv zeta.
  fold (batches_of keys).
  assert (Hlen : len (concat (batches_of keys)) = chunk_count).
  { rewrite concat_batches_of. unfold len, keys.
    rewrite length_document_keys. lia. }
  assert (Hsizes : Forall (fun batch => 1 <= len batch) (batches_of keys)).
  { eapply Forall_impl; [apply batches_of_size|]. cbn beta. tauto. }
  destruct (succeeded_count (batches_of keys) Hsizes (length (calls w)))
    as [Hle Hiff].
  eexists _, _. split; [reflexivity|]. rewrite Hlen in *.
  split; [exact Hle|]. rewrite Hiff. cbn [calls].
  rewrite length_app, length_map. split.
  - intros Hnone i Hi.
    replace i with (length (calls w) + (i - length (calls w)))%nat by lia.
    apply Hnone. lia.
  - intros Hnone i Hi. apply Hnone. lia.
Qed.

End StoreFacts.

(** Two texts stored: the second record is found under [doc#1]. *)
Lemma store_document_vectors_lookup_witness :
  exists c w' v,
    VectorSearch.store_document_vectors Examples.no_fault
      (Py.lit "doc") (Py.lit "notes.txt")
      [Py.lit "first chunk"; Py.lit "second chunk"] [[1 # 2]; [1 # 3]]%Q
      Examples.empty_index = (Effects.Ok c, w') /\
    VectorSearch.records w' !! VectorSearch.vector_key (Py.lit "doc") 1 = Some v /\
    VectorSearch.chunk_index (VectorSearch.metadata v) = 1.
Proof.
  destruct (store_document_vectors_returns Examples.no_fault
              (Py.lit "doc") (Py.lit "notes.txt")
              [Py.lit "first chunk"; Py.lit "second chunk"] [[1 # 2]; [1 # 3]]%Q
              Examples.empty_index (fun _ => eq_refl)) as (c & w' & Hrun).
  destruct (proj1 (store_document_vectors_lookup Examples.no_fault
                     _ _ _ _ _ _ _ Hrun) 1%nat _ _ eq_refl eq_refl)
    as (v & Hv & _ & _ & _ & Hidx).
  exists c, w', v. split; [exact Hrun|]. split; [exact Hv|exact Hidx].
Defined.

(** 501 records, the second batch fails: the exception is raised, and the
    500 records of the first batch are in the index. *)
Lemma store_document_vectors_partial_witness :
  let run :=
    VectorSearch.store_document_vectors
      (DocumentExamples.second_fails DocumentExamples.connection_reset)
      (Py.lit "doc") (Py.lit "notes.txt")
      (repeat (Py.lit "chunk") 501) (repeat [1 # 2]%Q 501)
      Examples.empty_index in
  run.1 = Effects.Raise DocumentExamples.connection_reset /\
  VectorSearch.records run.2 !! Py.lit "doc#0" <> None /\
  VectorSearch.records run.2 !! Py.lit "doc#499" <> None /\
  VectorSearch.records run.2 !! Py.lit "doc#500" = None /\
  length (VectorSearch.calls run.2) = 2%nat.
Proof.
  intros run. unfold run.
  rewrite (store_document_vectors_partial
             (DocumentExamples.second_fails DocumentExamples.connection_reset)
             (Py.lit "doc") (Py.lit "notes.txt")
             (repeat (Py.lit "chunk") 501) (repeat [1 # 2]%Q 501)
             Examples.empty_index 1 DocumentExamples.connection_reset).
  - cbn [fst snd VectorSearch.records VectorSearch.calls].
    split; [reflexivity|].
    split; [vm_compute; discriminate|].
    split; [vm_compute; discriminate|].
    split; vm_compute; reflexivity.
  - vm_compute. lia.
  - intros [|i] Hi; [reflexivity|lia].
  - reflexivity.
Defined.

(** 501 keys, the first batch fails: fewer than 501 keys are reported. *)
Lemma delete_document_vectors_count_witness :
  exists deleted_count w',
    VectorSearch.delete_document_vectors Examples.first_call_fails
      (Py.lit "doc") 501 Examples.empty_index = (Effects.Ok deleted_count, w') /\
    deleted_count <= 501.
Proof.
  assert (Honly : IndexSpec.only_client_errors Examples.first_call_fails).
  { intros [|n] e; [|discriminate]. intros [= <-]. eexists _, _. reflexivity. }
  destruct (delete_document_vectors_count Examples.first_call_fails
              (Py.lit "doc") 501 Examples.empty_index ltac:(lia) Honly)
    as (deleted_count & w' & Hrun & Hle & _).
  exists deleted_count, w'. split; [exact Hrun|exact Hle].
Defined.

(** ** More on [search_knowledge_base]: what it calls and when it fails *)

Section SearchFacts.
Import Py Effects EmbeddingsClient VectorSearch SearchSpec.

Variable bedrock : nat -> str -> result embedding.
Variable uniform : nat -> Q.
Variable s3_fault : nat -> option exn.
Variable s3_matches : nat -> option (list Match).

(** The search, once the outcome of the embedding is known. *)
Lemma search_after_embedding (query : str) (top_k : Z) (b : world)
    (s : s3vectors) r b' :
  generate_embedding_vector bedrock uniform query b = (r, b') ->
  search_knowledge_base bedrock uniform s3_fault s3_matches query top_k (b, s)
  = match r with
    | Raise e =>
        (Ok (lit "Error generating query embedding: " ++ str_of_exn e), (b', s))
    | Ok query_embedding =>
        let asked :=
          (b', mkS3 (records s)
                    (calls s ++ [QueryVectors query_embedding top_k])) in
        match s3_fault (length (calls s)) with
        | Some (ClientError error_code description) =>
            (Ok (if bool_decide (error_code = lit "ResourceNotFoundException")
                 then KNOWLEDGE_BASE_EMPTY
                 else lit "Error searching knowledge base: " ++ description),
             asked)
        | Some (OtherError description) => (Raise (OtherError description), asked)
        | None =>
            match default [] (s3_matches (length (calls s))) with
            | [] => (Ok NO_RELEVANT_RESULTS, asked)
            | v :: vs =>
                let results :=
                  map render (map score (enumerate_from 1 (v :: vs))) in
                (Ok (lit "Found " ++ str_of_int (len results) ++
                     lit " relevant passages for: " ++ [34%N] ++ query ++
                     [34%N; 10%N; 10%N] ++ join [10%N] results), asked)
            end
        end
    end.
Proof.
  intros Hembed.
  unfold search_knowledge_base, bind, try_except, in_bedrock, in_s3,
    query_vectors, s3_request, ret.
  cbn [fst snd]. rewrite Hembed. destruct r as [query_embedding|e];
    [|reflexivity].
  cbn [fst snd]. destruct (s3_fault (length (calls s))) as [[code d|d]|];
    [reflexivity|reflexivity|].
  destruct (default [] (s3_matches (length (calls s)))); [reflexivity|].
  cbv zeta. rewrite <- !app_assoc. reflexivity.
Qed.

(** X10.  [search_knowledge_base] only reads: whatever the services answer,
    the index holds the same records afterwards, and the search has made
    at most one call to S3 Vectors, a query with the given [top_k], and
    none when the query could not be embedded. *)
Theorem search_knowledge_base_read_only (query : str) (top_k : Z)
    (b : world) (s : s3vectors) r b' s' :
  search_knowledge_base bedrock uniform s3_fault s3_matches query top_k (b, s)
  = (r, (b', s')) ->
  records s' = records s /\
  (calls s' = calls s \/
   exists query_embedding,
     calls s' = calls s ++ [QueryVectors query_embedding top_k]) /\
  (forall e, (generate_embedding_vector bedrock uniform query b).1 = Raise e ->
     calls s' = calls s).
Proof.
  destruct (generate_embedding_vector bedrock uniform query b)
    as [embedded b1] eqn:Hembed.
  rewrite (search_after_embedding query top_k b s embedded b1 Hembed).
  destruct embedded as [query_embedding|e].
  - cbv zeta. intros Hrun.
    assert (Hs : s' = mkS3 (records s)
                       (calls s ++ [QueryVectors query_embedding top_k])).
    { destruct (s3_fault (length (calls s))) as [[code d|d]|];
        [congruence|congruence|].
      destruct (default [] (s3_matches (length (calls s)))); congruence. }
    subst s'. cbn [records calls]. split; [reflexivity|].
    split; [right; eexists; reflexivity|]. intros e [=].
  - intros [= <- <- <-]. split; [reflexivity|]. split; [left; reflexivity|].
    intros _ _. reflexivity.
Qed.

(** X11.  [search_knowledge_base] raises in one case only: the query call
    to S3 Vectors raised an exception that is not a [ClientError].  An
    exception of the embedding step, of any kind, is returned as the text
    ["Error generating query embedding: ..."], and a [ClientError] of the
    query call other than [ResourceNotFoundException] as the text
    ["Error searching knowledge base: ..."]. *)
Theorem search_knowledge_base_failures (query : str) (top_k : Z)
    (b : world) (s : s3vectors) :
  let outcome :=
    (search_knowledge_base bedrock uniform s3_fault s3_matches query top_k
       (b, s)).1 in
  let embedded := (generate_embedding_vector bedrock uniform query b).1 in
  (forall e, outcome = Raise e ->
     (exists description, e = OtherError description) /\
     s3_fault (length (calls s)) = Some e /\
     exists query_embedding, embedded = Ok query_embedding) /\
  (forall e, embedded = Raise e ->
     outcome = Ok (lit "Error generating query embedding: " ++ str_of_exn e)) /\
  (forall query_embedding error_code description,
     embedded = Ok query_embedding ->
     s3_fault (length (calls s)) = Some (ClientError error_code description) ->
     error_code <> lit "ResourceNotFoundException" ->
     outcome = Ok (lit "Error searching knowledge base: " ++ description)).
Proof.
  cbv zeta.
  destruct (generate_embedding_vector bedrock uniform query b)
    as [embedded b1] eqn:Hembed.
  rewrite (search_after_embedding query top_k b s embedded b1 Hembed).
  cbn [fst]. destruct embedded as [query_embedding|e0].
  - cbv zeta. split; [|split].
    + intros e Hraise.
      destruct (s3_fault (length (calls s))) as [[code d|d]|];
        cbn [fst] in Hraise.
      * discriminate.
      * injection Hraise as <-. split; [eexists; reflexivity|].
        split; [reflexivity|eexists; reflexivity].
      * destruct (default [] (s3_matches (length (calls s)))); discriminate.
    + intros e [=].
    + intros qe code d [= <-] Hfault Hcode. rewrite Hfault. cbn [fst].
      rewrite bool_decide_eq_false_2 by exact Hcode. reflexivity.
  - split; [|split].
    + intros e [=].
    + intros e [= <-]. reflexivity.
    + intros qe code d [=].
Qed.

End SearchFacts.

(** Bedrock cannot be reached: the search returns an error text and makes
    no call to S3 Vectors. *)
Lemma search_knowledge_base_read_only_witness :
  VectorSearch.calls
    (VectorSearch.search_knowledge_base
       (fun _ _ => Effects.Raise (Effects.OtherError (Py.lit "timed out")))
       Examples.quarter Examples.no_fault Examples.no_matches
       (Py.lit "what is a chunk?") 5
       (Examples.fresh, Examples.empty_index)).2.2
  = [].
Proof.
  refine (proj2 (proj2 (search_knowledge_base_read_only
                   (fun _ _ => Effects.Raise (Effects.OtherError (Py.lit "timed out")))
                   Examples.quarter Examples.no_fault Examples.no_matches
                   (Py.lit "what is a chunk?") 5
                   Examples.fresh Examples.empty_index _ _ _ _))
            (Effects.OtherError (Py.lit "timed out")) eq_refl).
  reflexivity.
Defined.

(** S3 Vectors cannot be reached: the search raises. *)
Lemma search_knowledge_base_failures_witness :
  (VectorSearch.search_knowledge_base
     Examples.always_answers Examples.quarter
     (fun _ => Some (Effects.OtherError (Py.lit "timed out")))
     Examples.no_matches (Py.lit "what is a chunk?") 5
     (Examples.fresh, Examples.empty_index)).1
  = Effects.Raise (Effects.OtherError (Py.lit "timed out")) /\
  exists description,
    Effects.OtherError (Py.lit "timed out") = Effects.OtherError description.
Proof.
  split; [reflexivity|].
  apply (proj1 (search_knowledge_base_failures
                  Examples.always_answers Examples.quarter
                  (fun _ => Some (Effects.OtherError (Py.lit "timed out")))
                  Examples.no_matches (Py.lit "what is a chunk?") 5
                  Examples.fresh Examples.empty_index)
           (Effects.OtherError (Py.lit "timed out")) eq_refl).
Defined.

(** ** [detect_file_type] and [extract_text] *)

Section StripTwice.
Import Py ExtractionSpec.

Lemma lstrip_clean (s : str) : clean_head (lstrip s).
Proof. destruct (lstrip_suffix s) as (_ & _ & _ & H). exact H. Qed.

Lemma lstrip_id (s : str) : clean_head s -> lstrip s = s.
Proof.
  destruct s as [|c s]; [reflexivity|]. cbn [clean_head lstrip].
  intros ->. reflexivity.
Qed.

(** Trimming a trimmed text changes nothing. *)
Lemma strip_strip (s : str) : strip (strip s) = strip s.
Proof.
  unfold strip at 2 3, rstrip.
  set (u := lstrip s). set (v := lstrip (reverse u)).
  assert (Hv : clean_head v) by apply lstrip_clean.
  assert (Hrv : clean_head (reverse v)).
  { destruct (lstrip_suffix (reverse u)) as (blanks & Heq & _ & _).
    fold v in Heq. apply (f_equal reverse) in Heq.
    rewrite reverse_involutive, reverse_app in Heq.
    pose proof (lstrip_clean s) as Hu. fold u in Hu. rewrite Heq in Hu.
    destruct (reverse v); [exact I|exact Hu]. }
  unfold strip, rstrip. rewrite (lstrip_id _ Hrv), reverse_involutive.
  rewrite (lstrip_id _ Hv). reflexivity.
Qed.

End StripTwice.

Section FileTypes.
Import Py Effects Extraction ExtractionSpec.

Variable str_lower : str -> str.
Variable pdf_pages : bytes -> outcome (list (option str)).
Variable docx_paragraphs : bytes -> outcome (list str).
Variable decode_utf8 : bytes -> outcome str.

Lemma dict_get_elem {V} (d : list (str * V)) (k : str) v :
  dict_get d k = Some v -> (k, v) ∈ d.
Proof.
  induction d as [|[k' v'] d IH]; cbn [dict_get]; [discriminate|].
  destruct (bool_decide_reflect (k' = k)) as [->|_].
  - intros [= ->]. left.
  - intros H. right. apply IH, H.
Qed.

Lemma supported_content_type_values (k t : str) :
  dict_get SUPPORTED_CONTENT_TYPES k = Some t -> t ∈ file_types /\ k <> [].
Proof.
  intros H. apply dict_get_elem in H. unfold SUPPORTED_CONTENT_TYPES in H.
  repeat (apply elem_of_cons in H as [[= -> ->]|H];
          [split; [unfold file_types; set_solver|discriminate]|]).
  inversion H.
Qed.

Lemma extension_values (k t : str) :
  dict_get EXTENSION_TO_TYPE k = Some t -> t ∈ file_types.
Proof.
  intros H. apply dict_get_elem in H. unfold EXTENSION_TO_TYPE in H.
  repeat (apply elem_of_cons in H as [[= -> ->]|H];
          [unfold file_types; set_solver|]).
  inversion H.
Qed.

Lemma detect_file_type_returns (filename : str) content_type file_type :
  detect_file_type str_lower filename content_type = Returns file_type ->
  file_type ∈ file_types.
Proof.
  unfold detect_file_type.
  destruct (match content_type with
            | Some (c :: rest) => dict_get SUPPORTED_CONTENT_TYPES (c :: rest)
            | _ => None
            end) as [t|] eqn:Hct.
  - intros [= <-]. destruct content_type as [[|c rest]|]; try discriminate.
    apply (supported_content_type_values _ _ Hct).
  - destruct (dict_get EXTENSION_TO_TYPE _) as [t|] eqn:Hext; [|discriminate].
    intros [= <-]. apply (extension_values _ _ Hext).
Qed.

Lemma detect_file_type_raises (filename : str) content_type e :
  detect_file_type str_lower filename content_type = Raises e ->
  exists message, e = ValueError message.
Proof.
  unfold detect_file_type.
  destruct (match content_type with
            | Some (c :: rest) => dict_get SUPPORTED_CONTENT_TYPES (c :: rest)
            | _ => None
            end); [discriminate|].
  destruct (dict_get EXTENSION_TO_TYPE _); [discriminate|].
  intros [= <-]. eexists. reflexivity.
Qed.

(** X12.  [detect_file_type] goes by the content type first: one of the
    four supported content types decides the file type whatever the
    filename is.  What it returns is always one of [pdf], [docx], [txt],
    [md], and what it raises is always a [ValueError]. *)
Theorem detect_file_type_outcomes (filename : str) :
  (forall content_type file_type,
     dict_get SUPPORTED_CONTENT_TYPES content_type = Some file_type ->
     detect_file_type str_lower filename (Some content_type)
     = Returns file_type) /\
  (forall content_type file_type,
     detect_file_type str_lower filename content_type = Returns file_type ->
     file_type ∈ file_types) /\
  (forall content_type e,
     detect_file_type str_lower filename content_type = Raises e ->
     exists message, e = ValueError message).
Proof.
  split; [|split].
  - intros content_type file_type Hget.
    destruct (supported_content_type_values _ _ Hget) as [_ Hne].
    unfold detect_file_type. destruct content_type as [|c rest]; [contradiction|].
    rewrite Hget. reflexivity.
  - intros content_type file_type. apply detect_file_type_returns.
  - intros content_type e. apply detect_file_type_raises.
Qed.

Lemma before_first_app (c : char) (l r : str) :
  contains c l = false -> before_first c (l ++ c :: r) = l.
Proof.
  induction l as [|x l IH]; cbn [app before_first contains existsb].
  - intros _. rewrite N.eqb_refl. reflexivity.
  - rewrite orb_false_iff. intros [Hx Hl]. rewrite N.eqb_sym, Hx.
    f_equal. apply IH, Hl.
Qed.

Lemma before_first_none (c : char) (s : str) :
  contains c s = false -> before_first c s = s.
Proof.
  induction s as [|x s IH]; cbn [before_first contains existsb]; [reflexivity|].
  rewrite orb_false_iff. intros [Hx Hs]. rewrite N.eqb_sym, Hx.
  f_equal. apply IH, Hs.
Qed.

Lemma contains_app (c : char) (l r : str) :
  contains c (l ++ r) = contains c l || contains c r.
Proof. unfold contains. apply existsb_app. Qed.

Lemma contains_reverse (c : char) (s : str) :
  contains c (reverse s) = contains c s.
Proof.
  induction s as [|x s IH]; [reflexivity|].
  rewrite reverse_cons, contains_app, IH. cbn [contains existsb].
  rewrite orb_false_r, orb_comm. reflexivity.
Qed.

(** What follows the last dot. *)
Lemma rsplit_last_app (c : char) (base ext : str) :
  contains c ext = false -> rsplit_last c (base ++ c :: ext) = ext.
Proof.
  intros Hext. unfold rsplit_last.
  rewrite reverse_app, reverse_cons, <- app_assoc. cbn [app].
  rewrite before_first_app by (rewrite contains_reverse; exact Hext).
  apply reverse_involutive.
Qed.

Lemma rsplit_last_dot (base ext : str) :
  contains 46%N ext = false -> rsplit_last 46%N (base ++ lit "." ++ ext) = ext.
Proof. intros Hext. exact (rsplit_last_app 46%N base ext Hext). Qed.

Lemma contains_dot (base ext : str) :
  contains 46%N (base ++ lit "." ++ ext) = true.
Proof.
  rewrite !contains_app. change (contains 46%N (lit ".")) with true.
  rewrite orb_true_r. reflexivity.
Qed.

Lemma unsupported_by_content_type (content_type : option str) :
  unsupported_content_type content_type ->
  match content_type with
  | Some (c :: rest) => dict_get SUPPORTED_CONTENT_TYPES (c :: rest)
  | _ => None
  end = None.
Proof.
  intros H. destruct content_type as [[|c rest]|]; try reflexivity.
  apply H. reflexivity.
Qed.

(** X13.  Without a supported content type, [detect_file_type] goes by
    what follows the last dot of the filename, in lower case: a filename
    [base.ext], where [ext] holds no dot, has the type that
    [EXTENSION_TO_TYPE] gives for ["." + ext.lower()], and is rejected with
    a [ValueError] when there is none; a filename without a dot is always
    rejected. *)
Theorem detect_file_type_extension (content_type : option str) :
  unsupported_content_type content_type ->
  (forall base ext : str,
     contains 46%N ext = false ->
     match dict_get EXTENSION_TO_TYPE (lit "." ++ str_lower ext) with
     | Some file_type =>
         detect_file_type str_lower (base ++ lit "." ++ ext) content_type
         = Returns file_type
     | None =>
         exists message,
           detect_file_type str_lower (base ++ lit "." ++ ext) content_type
           = Raises (ValueError message)
     end) /\
  (forall filename,
     contains 46%N filename = false ->
     exists message,
       detect_file_type str_lower filename content_type
       = Raises (ValueError message)).
Proof.
  intros Hct. apply unsupported_by_content_type in Hct. split.
  - intros base ext Hext. unfold detect_file_type. rewrite Hct.
    rewrite contains_dot, (rsplit_last_dot base ext Hext).
    destruct (dict_get EXTENSION_TO_TYPE (lit "." ++ str_lower ext));
      [reflexivity|eexists; reflexivity].
  - intros filename Hdot. unfold detect_file_type. rewrite Hct, Hdot.
    cbn [dict_get]. eexists. reflexivity.
Qed.

(** X14.  A text that [extract_text] returns is not empty and has no
    leading or trailing whitespace.  When [extract_text] raises, it raises
    a [ValueError] or the exception that reading the PDF, reading the DOCX
    or decoding the bytes has raised. *)
Theorem extract_text_result (file_content : bytes) (filename : str)
    (content_type : option str) :
  let extracted :=
    extract_text str_lower pdf_pages docx_paragraphs decode_utf8
      file_content filename content_type in
  (forall text, extracted = Returns text -> text <> [] /\ strip text = text) /\
  (forall e, extracted = Raises e ->
     (exists message, e = ValueError message) \/
     pdf_pages file_content = Raises e \/
     docx_paragraphs file_content = Raises e \/
     decode_utf8 file_content = Raises e).
Proof.
  cbv zeta. unfold extract_text.
  destruct (detect_file_type str_lower filename content_type)
    as [file_type|e0] eqn:Hdetect.
  - assert (Htype : file_type ∈ file_types)
      by (eapply detect_file_type_returns, Hdetect).
    unfold file_types in Htype.
    assert (Hextractor :
      exists extractor,
        dict_get (extractors pdf_pages docx_paragraphs decode_utf8) file_type
        = Some extractor /\
        forall e, extractor file_content = Raises e ->
          pdf_pages file_content = Raises e \/
          docx_paragraphs file_content = Raises e \/
          decode_utf8 file_content = Raises e).
    { repeat (apply elem_of_cons in Htype as [->|Htype]).
      - eexists. split; [reflexivity|]. intros e. unfold _extract_pdf.
        destruct (pdf_pages file_content); [discriminate|]. intros [= ->]. auto.
      - eexists. split; [reflexivity|]. intros e. unfold _extract_docx.
        destruct (docx_paragraphs file_content); [discriminate|].
        intros [= ->]. auto.
      - eexists. split; [reflexivity|]. intros e. unfold _extract_plain_text.
        auto.
      - eexists. split; [reflexivity|]. intros e. unfold _extract_plain_text.
        auto.
      - inversion Htype. }
    destruct Hextractor as (extractor & -> & Hraise).
    destruct (extractor file_content) as [raw|e1] eqn:Hraw.
    + destruct (strip raw) as [|c text] eqn:Hstrip.
      * split; [intros text [=]|]. intros e [= <-]. left. eexists. reflexivity.
      * split; [|intros e [=]]. intros text' [= <-].
        split; [discriminate|]. rewrite <- Hstrip. apply strip_strip.
    + split; [intros text [=]|]. intros e [= <-]. right. apply Hraise.
      reflexivity.
  - split; [intros text [=]|]. intros e [= <-]. left.
    eapply detect_file_type_raises, Hdetect.
Qed.

End FileTypes.

(** The extension counts in lower case, and the last one counts. *)
Lemma detect_file_type_extension_witness :
  Extraction.detect_file_type Extraction.ascii_lower
    (Py.lit "report.final" ++ Py.lit "." ++ Py.lit "PDF") None
  = Extraction.Returns (Py.lit "pdf").
Proof.
  assert (Hnone : ExtractionSpec.unsupported_content_type None)
    by (intros c rest H; discriminate H).
  exact (proj1 (detect_file_type_extension Extraction.ascii_lower None Hnone)
           (Py.lit "report.final") (Py.lit "PDF") eq_refl).
Defined.

(** A text file that decodes to a padded line. *)
Lemma extract_text_result_witness :
  exists text,
    Extraction.extract_text Extraction.ascii_lower
      (fun _ => Extraction.Returns []) (fun _ => Extraction.Returns [])
      (fun _ => Extraction.Returns (Py.lit "  hello  "))
      [] (Py.lit "notes.txt") None = Extraction.Returns text /\
    text <> [] /\ Py.strip text = text.
Proof.
  destruct (Extraction.extract_text Extraction.ascii_lower
              (fun _ => Extraction.Returns []) (fun _ => Extraction.Returns [])
              (fun _ => Extraction.Returns (Py.lit "  hello  "))
              [] (Py.lit "notes.txt") None) as [text|e] eqn:E;
    [|vm_compute in E; discriminate].
  exists text. split; [reflexivity|].
  apply (proj1 (extract_text_result Extraction.ascii_lower
                  (fun _ => Extraction.Returns []) (fun _ => Extraction.Returns [])
                  (fun _ => Extraction.Returns (Py.lit "  hello  "))
                  [] (Py.lit "notes.txt") None) text E).
Defined.

(** A Markdown content type decides, whatever the filename. *)
Lemma detect_file_type_outcomes_witness :
  Extraction.detect_file_type Extraction.ascii_lower (Py.lit "README.pdf")
    (Some (Py.lit "text/markdown"))
  = Extraction.Returns (Py.lit "md").
Proof.
  exact (proj1 (detect_file_type_outcomes Extraction.ascii_lower
                  (Py.lit "README.pdf"))
           (Py.lit "text/markdown") (Py.lit "md") eq_refl).
Defined.

(** ** [delete_document] *)

Section DeleteDocument.
Import Py Effects EmbeddingsClient VectorSearch IndexSpec Extraction.
Import DocumentManager DocumentSpec.

Variable s3_client_fault : nat -> option exn.
Variable s3_metadata : nat -> result DocumentMetadata.
Variable s3_pages : nat -> option (list str) * list (option (list str)).
Variable s3_fault : nat -> option exn.

(** The cleanup loop raises only what a call to the S3 client raised. *)
Lemma delete_pages_outcome (Prefix : str) :
  forall (pages : list (option (list str))) (o : s3) r o',
    delete_pages s3_client_fault Prefix pages o = (r, o') ->
    r = Ok tt \/ exists e n, r = Raise e /\ s3_client_fault n = Some e.
Proof.
  induction pages as [|page pages IH]; intros o r o'.
  - cbn. intros [= <- <-]. left. reflexivity.
  - cbn [delete_pages].
    unfold bind, list_page, delete_objects, s3_client_request, ret.
    cbn [object_calls].
    destruct (s3_client_fault (length (object_calls o))) as [e|] eqn:Hlist.
    { intros [= <- <-]. right. eauto. }
    destruct (default [] page) as [|k ks].
    + apply IH.
    + cbv beta iota. cbn [object_calls].
      destruct (s3_client_fault (length (object_calls o ++ [ListObjectsV2 Prefix])))
        as [e|] eqn:Hdel.
      * intros [= <- <-]. right. eauto.
      * apply IH.
Qed.

(** The cleanup loop when no call fails. *)
Lemma delete_pages_run (Prefix : str) :
  (forall n, s3_client_fault n = None) ->
  forall (pages : list (option (list str))) (o : s3),
    delete_pages s3_client_fault Prefix pages o
    = (Ok tt, mkS3Client (object_calls o ++ cleanup_calls Prefix pages)).
Proof.
  intros Hnone. induction pages as [|page pages IH]; intros o.
  - cbn. rewrite app_nil_r. destruct o; reflexivity.
  - cbn [delete_pages]. unfold cleanup_calls. cbn [map concat].
    fold (cleanup_calls Prefix pages).
    unfold bind, list_page, delete_objects, s3_client_request, ret.
    rewrite Hnone. cbn [object_calls].
    destruct (default [] page) as [|k ks].
    + rewrite IH. cbn [object_calls app]. rewrite <- app_assoc. reflexivity.
    + rewrite Hnone, IH. cbn [object_calls app]. rewrite <- !app_assoc.
      reflexivity.
Qed.

(** The vector loop raises only what is not a [ClientError], raised by a
    call to S3 Vectors. *)
Lemma delete_batches_outcome (keys : list str) :
  forall (batch_starts : list Z) (deleted_count : Z) (w : s3vectors) r w',
    delete_batches s3_fault batch_starts keys deleted_count w = (r, w') ->
    (exists c, r = Ok c) \/
    exists d n, r = Raise (OtherError d) /\ s3_fault n = Some (OtherError d).
Proof.
  induction batch_starts as [|s rest IH]; intros deleted_count w r w'.
  - cbn. intros [= <- <-]. left. eauto.
  - cbn [delete_batches].
    unfold bind, try_except, delete_vectors, s3_request, ret.
    destruct (s3_fault (length (calls w))) as [[code d|d]|] eqn:Hfault.
    + apply IH.
    + intros [= <- <-]. right. eauto.
    + apply IH.
Qed.

(** [delete_document] once the metadata is loaded and the chunk count has
    been compared with 0: the vectors are deleted when the chunk count is
    positive, then the objects, and the failures of the two steps are
    gathered. *)
Lemma delete_document_loaded (document_id : str) (v : s3vectors) (o : s3)
    (md : DocumentMetadata) (positive : bool) rv v1 rp o2 :
  let n := length (object_calls o) in
  let chunk_count := default (CountInt 0) (metadata_chunk_count md) in
  let filename := default (lit "Unknown") (metadata_filename md) in
  let o1 := mkS3Client (object_calls o ++ [GetObject (_s3_metadata_key document_id)]) in
  s3_client_fault n = None ->
  s3_metadata n = Ok md ->
  greater_than_zero chunk_count (v, o1) = (Ok positive, (v, o1)) ->
  (if positive
   then delete_vectors_of s3_fault document_id chunk_count v
   else (Ok 0, v)) = (rv, v1) ->
  delete_pages s3_client_fault (document_prefix document_id)
    ((s3_pages (S n)).1 :: (s3_pages (S n)).2) o1 = (rp, o2) ->
  let errors :=
    match rv with
    | Ok _ => []
    | Raise e => [lit "Vector deletion: " ++ str_of_exn e]
    end in
  let deleted_vectors := match rv with Ok c => c | Raise _ => 0 end in
  delete_document s3_client_fault s3_metadata s3_pages s3_fault document_id (v, o)
  = (match rp with
     | Ok _ => Ok (report filename document_id deleted_vectors errors)
     | Raise (ClientError code description) =>
         Ok (report filename document_id deleted_vectors
               (errors ++ [lit "S3 deletion: " ++ description]))
     | Raise (OtherError description) => Raise (OtherError description)
     end, (v1, o2)).
Proof.
  intros n chunk_count filename o1 Hfault Hmd Hcompare Hvectors Hpages errors
    deleted_vectors.
  assert (Hlen : length (object_calls o1) = S n).
  { unfold o1, n. cbn [object_calls]. rewrite length_app, Nat.add_1_r.
    reflexivity. }
  unfold delete_document, bind at 1.
  unfold try_except at 1, bind at 1, in_objects, get_metadata,
    s3_client_request.
  cbn [fst snd]. fold n. rewrite Hfault, Hmd. cbn [ret].
  unfold ret at 1. cbv beta iota. fold chunk_count filename o1.
  unfold bind at 1. rewrite Hcompare.
  unfold bind at 1. fold (document_prefix document_id).
  destruct positive.
  - unfold try_except at 1, bind at 1, in_vectors. cbn [fst snd].
    rewrite Hvectors.
    destruct rv as [c|e]; cbv beta iota; unfold ret at 1; cbv beta iota.
    + unfold ret at 1. cbv beta iota.
      unfold bind at 1, try_except at 1, bind at 1, in_objects. cbn [fst snd].
      cbv zeta. rewrite Hlen, Hpages. subst errors deleted_vectors.
      destruct rp as [[]|[code description|description]]; reflexivity.
    + unfold bind at 1, try_except at 1, bind at 1, in_objects. cbn [fst snd].
      cbv zeta. rewrite Hlen, Hpages. subst errors deleted_vectors.
      destruct rp as [[]|[code description|description]]; reflexivity.
  - injection Hvectors as <- <-. unfold ret at 1. cbv beta iota.
    unfold bind at 1, try_except at 1, bind at 1, in_objects. cbn [fst snd].
    cbv zeta. rewrite Hlen, Hpages. subst errors deleted_vectors.
    destruct rp as [[]|[code description|description]]; reflexivity.
Qed.

(** [delete_document] once a metadata with an integer chunk count, or
    with none, is loaded. *)
Lemma delete_document_counted (document_id : str) (v : s3vectors) (o : s3)
    (count : option Z) (name : option str) rv v1 rp o2 :
  let n := length (object_calls o) in
  let chunk_count := default 0 count in
  let filename := default (lit "Unknown") name in
  let o1 := mkS3Client (object_calls o ++ [GetObject (_s3_metadata_key document_id)]) in
  s3_client_fault n = None ->
  s3_metadata n = Ok (mkDocumentMetadata (CountInt <$> count) name) ->
  (if 0 <? chunk_count
   then delete_document_vectors s3_fault document_id chunk_count v
   else (Ok 0, v)) = (rv, v1) ->
  delete_pages s3_client_fault (document_prefix document_id)
    ((s3_pages (S n)).1 :: (s3_pages (S n)).2) o1 = (rp, o2) ->
  let errors :=
    match rv with
    | Ok _ => []
    | Raise e => [lit "Vector deletion: " ++ str_of_exn e]
    end in
  let deleted_vectors := match rv with Ok c => c | Raise _ => 0 end in
  delete_document s3_client_fault s3_metadata s3_pages s3_fault document_id (v, o)
  = (match rp with
     | Ok _ => Ok (report filename document_id deleted_vectors errors)
     | Raise (ClientError code description) =>
         Ok (report filename document_id deleted_vectors
               (errors ++ [lit "S3 deletion: " ++ description]))
     | Raise (OtherError description) => Raise (OtherError description)
     end, (v1, o2)).
Proof.
  intros n chunk_count filename o1 Hfault Hmd Hvectors Hpages.
  apply (delete_document_loaded document_id v o
           (mkDocumentMetadata (CountInt <$> count) name)
           (0 <? chunk_count) rv v1 rp o2 Hfault Hmd).
  - unfold chunk_count. destruct count; reflexivity.
  - rewrite <- Hvectors. unfold chunk_count. destruct count; reflexivity.
  - exact Hpages.
Qed.

(** [delete_document] when the chunk count of the metadata is no number:
    the comparison with 0 raises, and nothing is deleted. *)
Lemma delete_document_unordered (document_id : str) (v : s3vectors) (o : s3)
    (md : DocumentMetadata) (type_name : str) :
  let n := length (object_calls o) in
  s3_client_fault n = None ->
  s3_metadata n = Ok md ->
  metadata_chunk_count md = Some (CountOther type_name) ->
  delete_document s3_client_fault s3_metadata s3_pages s3_fault document_id (v, o)
  = (Raise
       (OtherError
          (lit "'>' not supported between instances of '" ++ type_name ++
           lit "' and 'int'")),
     (v, mkS3Client (object_calls o ++ [GetObject (_s3_metadata_key document_id)]))).
Proof.
  intros n Hfault Hmd Hcount.
  unfold delete_document, bind at 1.
  unfold try_except at 1, bind at 1, in_objects, get_metadata,
    s3_client_request.
  cbn [fst snd]. fold n. rewrite Hfault, Hmd. cbn [ret].
  unfold ret at 1. cbv beta iota. rewrite Hcount. cbn [default].
  unfold bind at 1. reflexivity.
Qed.

(** The comparison of a number with 0 returns. *)
Lemma greater_than_zero_number {W : Type} (chunk_count : json_count) (w : W) :
  (forall type_name, chunk_count <> CountOther type_name) ->
  exists positive, greater_than_zero chunk_count w = (Ok positive, w).
Proof.
  intros Hnumber. destruct chunk_count as [n|b|positive|type_name];
    try (eexists; reflexivity).
  exfalso. exact (Hnumber type_name eq_refl).
Qed.

(** A run of [delete_vectors_of] raises only what is not a [ClientError]. *)
Lemma delete_vectors_of_outcome (document_id : str) (chunk_count : json_count)
    (w : s3vectors) r w' :
  delete_vectors_of s3_fault document_id chunk_count w = (r, w') ->
  (exists c, r = Ok c) \/ exists d, r = Raise (OtherError d).
Proof.
  unfold delete_vectors_of, delete_document_vectors.
  destruct chunk_count as [n|b|positive|type_name].
  - intros Hrun. apply delete_batches_outcome in Hrun
      as [?|(d & k & -> & _)]; eauto.
  - intros Hrun. apply delete_batches_outcome in Hrun
      as [?|(d & k & -> & _)]; eauto.
  - intros [= <- <-]. eauto.
  - intros [= <- <-]. eauto.
Qed.

(** [delete_document] when the metadata cannot be fetched. *)
Lemma delete_document_unloaded (document_id : str) (v : s3vectors) (o : s3)
    (e : exn) :
  let n := length (object_calls o) in
  s3_client_fault n = Some e \/
  (s3_client_fault n = None /\ s3_metadata n = Raise e) ->
  delete_document s3_client_fault s3_metadata s3_pages s3_fault document_id (v, o)
  = (metadata_error document_id e,
     (v, mkS3Client (object_calls o ++ [GetObject (_s3_metadata_key document_id)]))).
Proof.
  intros n [Hfault|[Hfault Hmd]];
    unfold delete_document, bind at 1;
    unfold try_except at 1, bind at 1, in_objects, get_metadata,
      s3_client_request;
    cbn [fst snd]; fold n; rewrite Hfault, ?Hmd;
    destruct e as [code description|description]; reflexivity.
Qed.

(** The vectors of a document are all deleted when no call fails. *)
Lemma delete_document_vectors_no_fault (document_id : str) (chunk_count : Z)
    (w : s3vectors) :
  (forall k, s3_fault k = None) ->
  let keys := document_keys document_id (Z.to_nat chunk_count) in
  delete_document_vectors s3_fault document_id chunk_count w
  = (Ok (Z.max 0 chunk_count),
     mkS3 (delete_all (records w) keys)
          (calls w ++ map DeleteVectors (batches_of keys))).
Proof.
  intros Hnone keys. unfold delete_document_vectors. rewrite range_keys.
  fold keys.
  rewrite delete_batches_run
    by (intros k e He; rewrite Hnone in He; discriminate).
  fold (batches_of keys).
  rewrite succeeded_no_fault by exact Hnone.
  rewrite concat_batches_of.
  replace (0 + len keys) with (Z.max 0 chunk_count);
    [reflexivity|].
  unfold len, keys. rewrite length_document_keys. lia.
Qed.

(** The second step of [delete_document] when no call fails. *)
Lemma delete_step_no_fault (document_id : str) (chunk_count : Z)
    (v : s3vectors) :
  (forall k, s3_fault k = None) ->
  let keys := document_keys document_id (Z.to_nat chunk_count) in
  (if 0 <? chunk_count
   then delete_document_vectors s3_fault document_id chunk_count v
   else (Ok 0, v))
  = (Ok (Z.max 0 chunk_count),
     mkS3 (delete_all (records v) keys)
          (calls v ++ map DeleteVectors (batches_of keys))).
Proof.
  intros Hnone keys. destruct (Z.ltb_spec 0 chunk_count) as [Hpos|Hneg].
  - apply delete_document_vectors_no_fault. exact Hnone.
  - unfold keys. replace (Z.to_nat chunk_count) with 0%nat by lia.
    replace (Z.max 0 chunk_count) with 0 by lia.
    destruct v as [m cs]. cbn [records calls document_keys seq map delete_all foldl].
    change (batches_of (@nil str)) with (@nil (list str)).
    cbn [map]. rewrite app_nil_r. reflexivity.
Qed.

(** A key of the document is among its keys. *)
Lemma vector_key_in_document_keys (document_id : str) (chunk_count i : Z) :
  0 <= i < chunk_count ->
  vector_key document_id i ∈ document_keys document_id (Z.to_nat chunk_count).
Proof.
  intros Hi. unfold document_keys, vector_key.
  apply list_elem_of_fmap. exists (Z.to_nat i). split.
  - rewrite Z2Nat.id by lia. reflexivity.
  - apply elem_of_seq. lia.
Qed.

(** X15.  [delete_document] lets no [ClientError] through, and no failure
    of S3 Vectors.  An exception it raises is not a [ClientError], and it
    was raised by a call to the S3 client, or while the metadata was read,
    or, as a [TypeError], by the comparison [chunk_count > 0] on a chunk
    count of the metadata that is no number; in this last case nothing has
    been deleted. *)
Theorem delete_document_raises (document_id : str) (w : s3vectors * s3)
    (e : exn) (w' : s3vectors * s3) :
  delete_document s3_client_fault s3_metadata s3_pages s3_fault document_id w
  = (Raise e, w') ->
  (exists description, e = OtherError description) /\
  ((exists n, s3_client_fault n = Some e \/ s3_metadata n = Raise e) \/
   exists md type_name,
     s3_metadata (length (object_calls w.2)) = Ok md /\
     metadata_chunk_count md = Some (CountOther type_name) /\
     e = OtherError
           (lit "'>' not supported between instances of '" ++ type_name ++
            lit "' and 'int'") /\
     w' = (w.1,
           mkS3Client
             (object_calls w.2 ++ [GetObject (_s3_metadata_key document_id)]))).
Proof.
  destruct w as [v o]. cbn [fst snd]. set (n := length (object_calls o)).
  destruct (s3_client_fault n) as [e0|] eqn:Hfault.
  - rewrite (delete_document_unloaded document_id v o e0) by (left; exact Hfault).
    destruct e0 as [code d|d]; cbn [metadata_error]; [discriminate|].
    intros [= <- <-]. split; [eauto|]. left. exists n. left. exact Hfault.
  - destruct (s3_metadata n) as [md|e0] eqn:Hmd.
    + destruct (metadata_chunk_count md) as [[k|b|positive|type_name]|] eqn:Hcount.
      4: { rewrite (delete_document_unordered document_id v o md type_name
                      Hfault Hmd Hcount).
           intros [= <- <-]. split; [eauto|]. right. exists md, type_name.
           auto. }
      all: set (chunk_count := default (CountInt 0) (metadata_chunk_count md)).
      all: destruct (greater_than_zero_number chunk_count
                       (v, mkS3Client
                             (object_calls o ++
                              [GetObject (_s3_metadata_key document_id)])))
             as [positive' Hcompare];
             [unfold chunk_count; rewrite Hcount; intros t; discriminate|].
      all: destruct (if positive'
                     then delete_vectors_of s3_fault document_id chunk_count v
                     else (Ok 0, v)) as [rv v1] eqn:Hvectors.
      all: destruct (delete_pages s3_client_fault (document_prefix document_id)
                       ((s3_pages (S n)).1 :: (s3_pages (S n)).2)
                       (mkS3Client
                          (object_calls o ++
                           [GetObject (_s3_metadata_key document_id)])))
             as [rp o2] eqn:Hpages.
      all: rewrite (delete_document_loaded document_id v o md positive'
                      rv v1 rp o2 Hfault Hmd Hcompare Hvectors Hpages).
      all: destruct (delete_pages_outcome _ _ _ _ _ Hpages)
             as [->|(e1 & k' & -> & Hk)]; [discriminate|].
      all: destruct e1 as [code d|d]; [discriminate|].
      all: intros [= <- <-]; split; [eauto|]; left; exists k'; left; exact Hk.
    + rewrite (delete_document_unloaded document_id v o e0)
        by (right; split; [exact Hfault|exact Hmd]).
      destruct e0 as [code d|d]; cbn [metadata_error]; [discriminate|].
      intros [= <- <-]. split; [eauto|]. left. exists n. right. exact Hmd.
Qed.

(** X16.  When the metadata of the document cannot be fetched or read,
    [delete_document] deletes nothing: it has made the one [get_object]
    call, the index is as it was, and the failure is reported as text when
    it is a [ClientError] and raised otherwise. *)
Theorem delete_document_without_metadata (document_id : str) (v : s3vectors)
    (o : s3) (e : exn) :
  let n := length (object_calls o) in
  s3_client_fault n = Some e \/
  (s3_client_fault n = None /\ s3_metadata n = Raise e) ->
  delete_document s3_client_fault s3_metadata s3_pages s3_fault document_id (v, o)
  = (match e with
     | ClientError error_code description =>
         Ok (if bool_decide (error_code = lit "NoSuchKey")
             then lit "Error: Document with ID '" ++ document_id ++
                  lit "' not found."
             else lit "Error reading document metadata: " ++ description)
     | OtherError _ => Raise e
     end,
     (v, mkS3Client (object_calls o ++ [GetObject (_s3_metadata_key document_id)]))).
Proof.
  intros n Hfailed.
  exact (delete_document_unloaded document_id v o e Hfailed).
Qed.

(** X17.  When no call fails and the metadata is read, [delete_document]
    reports success with the chunk count of the metadata (0 when there is
    none or it is not positive), has removed every key [document_id#i] for
    [0 <= i < chunk_count] from the index in batches, and has fetched every
    page of the listing of the document prefix and deleted the objects of
    each page that has any. *)
Theorem delete_document_deletes (document_id : str) (v : s3vectors) (o : s3)
    (count : option Z) (name : option str) :
  let n := length (object_calls o) in
  let chunk_count := default 0 count in
  let filename := default (lit "Unknown") name in
  let keys := document_keys document_id (Z.to_nat chunk_count) in
  (forall k, s3_client_fault k = None) ->
  (forall k, s3_fault k = None) ->
  s3_metadata n = Ok (mkDocumentMetadata (CountInt <$> count) name) ->
  delete_document s3_client_fault s3_metadata s3_pages s3_fault document_id (v, o)
  = (Ok (deleted_successfully filename document_id (Z.max 0 chunk_count)),
     (mkS3 (delete_all (records v) keys)
           (calls v ++ map DeleteVectors (batches_of keys)),
      mkS3Client
        (object_calls o ++
         GetObject (_s3_metadata_key document_id) ::
         cleanup_calls (document_prefix document_id)
           ((s3_pages (S n)).1 :: (s3_pages (S n)).2)))) /\
  forall i, 0 <= i < chunk_count ->
    delete_all (records v) keys !! vector_key document_id i = None.
Proof.
  intros n chunk_count filename keys Hclient Hvectors Hmd. split.
  - rewrite (delete_document_counted document_id v o count name _ _ _ _
               (Hclient n) Hmd
               (delete_step_no_fault document_id chunk_count v Hvectors)
               (delete_pages_run _ Hclient _ _)).
    cbn [object_calls report]. rewrite <- app_assoc. reflexivity.
  - intros i Hi. rewrite delete_all_lookup.
    rewrite decide_True; [reflexivity|].
    apply vector_key_in_document_keys. exact Hi.
Qed.

(** X18.  When the deletion of the vectors raises, whatever the exception,
    [delete_document] goes on: the objects of the document are deleted as
    when nothing fails, and the text returned reports a partial deletion
    with the exception and with 0 vectors removed, whatever the calls
    before the failing one have removed. *)
Theorem delete_document_vector_failure (document_id : str) (v : s3vectors)
    (o : s3) (count : option Z) (name : option str) (e : exn)
    (v1 : s3vectors) :
  let n := length (object_calls o) in
  let chunk_count := default 0 count in
  let filename := default (lit "Unknown") name in
  (forall k, s3_client_fault k = None) ->
  s3_metadata n = Ok (mkDocumentMetadata (CountInt <$> count) name) ->
  0 < chunk_count ->
  delete_document_vectors s3_fault document_id chunk_count v = (Raise e, v1) ->
  delete_document s3_client_fault s3_metadata s3_pages s3_fault document_id (v, o)
  = (Ok (partially_deleted filename document_id 0
           [lit "Vector deletion: " ++ str_of_exn e]),
     (v1,
      mkS3Client
        (object_calls o ++
         GetObject (_s3_metadata_key document_id) ::
         cleanup_calls (document_prefix document_id)
           ((s3_pages (S n)).1 :: (s3_pages (S n)).2)))).
Proof.
  intros n chunk_count filename Hclient Hmd Hpos Hrun.
  assert (Hstep :
    (if 0 <? chunk_count
     then delete_document_vectors s3_fault document_id chunk_count v
     else (Ok 0, v)) = (Raise e, v1)).
  { destruct (Z.ltb_spec 0 chunk_count) as [_|Hneg]; [exact Hrun|lia]. }
  rewrite (delete_document_counted document_id v o count name _ _ _ _
             (Hclient n) Hmd Hstep (delete_pages_run _ Hclient _ _)).
  cbn [object_calls report]. rewrite <- app_assoc. reflexivity.
Qed.

(** X19.  When the listing of the objects fails with a [ClientError] at
    its first call, after the vectors were deleted without a failure, the
    vectors stay deleted and no object is deleted, the metadata file
    included; the text returned reports a partial deletion with the
    number of vectors removed and the error. *)
Theorem delete_document_cleanup_failure (document_id : str) (v : s3vectors)
    (o : s3) (count : option Z) (name : option str)
    (code description : str) :
  let n := length (object_calls o) in
  let chunk_count := default 0 count in
  let filename := default (lit "Unknown") name in
  let keys := document_keys document_id (Z.to_nat chunk_count) in
  s3_client_fault n = None ->
  s3_metadata n = Ok (mkDocumentMetadata (CountInt <$> count) name) ->
  (forall k, s3_fault k = None) ->
  s3_client_fault (S n) = Some (ClientError code description) ->
  delete_document s3_client_fault s3_metadata s3_pages s3_fault document_id (v, o)
  = (Ok (partially_deleted filename document_id (Z.max 0 chunk_count)
           [lit "S3 deletion: " ++ description]),
     (mkS3 (delete_all (records v) keys)
           (calls v ++ map DeleteVectors (batches_of keys)),
      mkS3Client
        (object_calls o ++
         [GetObject (_s3_metadata_key document_id);
          ListObjectsV2 (document_prefix document_id)]))).
Proof.
  intros n chunk_count filename keys Hget Hmd Hvectors Hlist.
  assert (Hpages :
    delete_pages s3_client_fault (document_prefix document_id)
      ((s3_pages (S n)).1 :: (s3_pages (S n)).2)
      (mkS3Client
         (object_calls o ++ [GetObject (_s3_metadata_key document_id)]))
    = (Raise (ClientError code description),
       mkS3Client
         ((object_calls o ++ [GetObject (_s3_metadata_key document_id)]) ++
          [ListObjectsV2 (document_prefix document_id)]))).
  { cbn [delete_pages]. unfold bind at 1, list_page, s3_client_request.
    cbn [object_calls]. rewrite length_app, Nat.add_1_r. fold n.
    rewrite Hlist. reflexivity. }
  rewrite (delete_document_counted document_id v o count name _ _ _ _
             Hget Hmd
             (delete_step_no_fault document_id chunk_count v Hvectors)
             Hpages).
  cbn [report app]. rewrite <- app_assoc. reflexivity.
Qed.

End DeleteDocument.

Section DocumentKeys.
Import Py Effects Extraction DocumentManager DocumentSpec.

(** X20.  The key of the original file of a document and the key of its
    metadata file both lie under the prefix whose objects
    [delete_document] lists and deletes, and they are never the same
    key, whatever the filename. *)
Theorem s3_keys_under_prefix (document_id filename : str) :
  startswith (_s3_document_key document_id filename)
             (document_prefix document_id) = true /\
  startswith (_s3_metadata_key document_id)
             (document_prefix document_id) = true /\
  _s3_document_key document_id filename <> _s3_metadata_key document_id.
Proof.
  unfold _s3_document_key, _s3_metadata_key, document_prefix.
  generalize (if contains 46%N filename
              then rsplit_last 46%N filename else lit "txt").
  intros ext.
  change (lit "/original.") with (lit "/" ++ lit "original.").
  change (lit "/metadata.json") with (lit "/" ++ lit "metadata.json").
  rewrite <- !(app_assoc (lit "/")).
  rewrite !(app_assoc (lit "documents/")), !(app_assoc (lit "documents/" ++ document_id)).
  split; [|split].
  - apply startswith_take. apply take_app_length.
  - apply startswith_take. apply take_app_length.
  - intros Heq. apply app_inv_head in Heq. discriminate Heq.
Qed.

End DocumentKeys.

(** A metadata file whose chunk count is [null]: the comparison raises a
    [TypeError], and nothing is deleted. *)
Lemma delete_document_raises_witness :
  exists e w',
    DocumentManager.delete_document DocumentExamples.never_fails
      DocumentExamples.null_count DocumentExamples.one_page Examples.no_fault
      (Py.lit "doc") (DocumentExamples.indexed, DocumentExamples.no_calls)
    = (Effects.Raise e, w') /\
    (exists description, e = Effects.OtherError description) /\
    w' = (DocumentExamples.indexed,
          DocumentManager.mkS3Client
            [DocumentManager.GetObject (Py.lit "documents/doc/metadata.json")]).
Proof.
  destruct (DocumentManager.delete_document DocumentExamples.never_fails
              DocumentExamples.null_count DocumentExamples.one_page
              Examples.no_fault (Py.lit "doc")
              (DocumentExamples.indexed, DocumentExamples.no_calls))
    as [r w'] eqn:Hrun.
  assert (Hr : r = Effects.Raise
                     (Effects.OtherError
                        (Py.lit "'>' not supported between instances of 'NoneType' and 'int'")))
    by (vm_compute in Hrun; injection Hrun as <- _; reflexivity).
  subst r. eexists _, w'. split; [reflexivity|].
  destruct (delete_document_raises _ _ _ _ _ _ _ _ Hrun)
    as [Hother [(n & [Hn|Hn])|(md & type_name & _ & _ & _ & Hw)]].
  - discriminate Hn.
  - discriminate Hn.
  - split; [exact Hother|exact Hw].
Defined.

(** A document that is not there. *)
Lemma delete_document_without_metadata_witness :
  DocumentManager.delete_document
    (DocumentExamples.first_fails DocumentExamples.no_such_key)
    DocumentExamples.notes DocumentExamples.one_page Examples.no_fault
    (Py.lit "doc") (DocumentExamples.indexed, DocumentExamples.no_calls)
  = (Effects.Ok (Py.lit "Error: Document with ID 'doc' not found."),
     (DocumentExamples.indexed,
      DocumentManager.mkS3Client
        [DocumentManager.GetObject (Py.lit "documents/doc/metadata.json")])).
Proof.
  rewrite (delete_document_without_metadata
             (DocumentExamples.first_fails DocumentExamples.no_such_key)
             DocumentExamples.notes DocumentExamples.one_page Examples.no_fault
             (Py.lit "doc") DocumentExamples.indexed DocumentExamples.no_calls
             DocumentExamples.no_such_key (or_introl eq_refl)).
  reflexivity.
Defined.

(** A document of three chunks, the first of which is in the index. *)
Lemma delete_document_deletes_witness :
  let run :=
    DocumentManager.delete_document DocumentExamples.never_fails
      DocumentExamples.notes DocumentExamples.one_page Examples.no_fault
      (Py.lit "doc") (DocumentExamples.indexed, DocumentExamples.no_calls) in
  run.1
  = Effects.Ok
      (DocumentSpec.deleted_successfully (Py.lit "notes.txt") (Py.lit "doc") 3) /\
  VectorSearch.records run.2.1 !! VectorSearch.vector_key (Py.lit "doc") 0 = None /\
  DocumentManager.object_calls run.2.2
  = [DocumentManager.GetObject (Py.lit "documents/doc/metadata.json");
     DocumentManager.ListObjectsV2 (Py.lit "documents/doc/");
     DocumentManager.DeleteObjects
       [Py.lit "documents/doc/original.txt";
        Py.lit "documents/doc/metadata.json"]].
Proof.
  intros run.
  destruct (delete_document_deletes DocumentExamples.never_fails
              DocumentExamples.notes DocumentExamples.one_page
              Examples.no_fault (Py.lit "doc") DocumentExamples.indexed
              DocumentExamples.no_calls
              (Some 3) (Some (Py.lit "notes.txt"))
              (fun _ => eq_refl) (fun _ => eq_refl) eq_refl)
    as [Hrun Hgone].
  unfold run. rewrite Hrun. cbn [fst snd VectorSearch.records].
  split; [reflexivity|]. split; [|reflexivity].
  apply (Hgone 0). cbn. lia.
Defined.

(** A document of 501 chunks, whose second batch of keys fails: the first
    batch is gone from the index, and 0 vectors are reported. *)
Lemma delete_document_vector_failure_witness :
  exists v1,
    DocumentManager.delete_document DocumentExamples.never_fails
      DocumentExamples.long_notes DocumentExamples.one_page
      (DocumentExamples.second_fails DocumentExamples.connection_reset)
      (Py.lit "doc") (DocumentExamples.indexed, DocumentExamples.no_calls)
    = (Effects.Ok
         (DocumentSpec.partially_deleted (Py.lit "notes.txt") (Py.lit "doc") 0
            [Py.lit "Vector deletion: connection reset"]),
       (v1,
        DocumentManager.mkS3Client
          [DocumentManager.GetObject (Py.lit "documents/doc/metadata.json");
           DocumentManager.ListObjectsV2 (Py.lit "documents/doc/");
           DocumentManager.DeleteObjects
             [Py.lit "documents/doc/original.txt";
              Py.lit "documents/doc/metadata.json"]])) /\
    VectorSearch.records DocumentExamples.indexed !! Py.lit "doc#0" <> None /\
    VectorSearch.records v1 !! Py.lit "doc#0" = None.
Proof.
  destruct (VectorSearch.delete_document_vectors
              (DocumentExamples.second_fails DocumentExamples.connection_reset)
              (Py.lit "doc") 501 DocumentExamples.indexed) as [r v1] eqn:Hrun.
  assert (Hr : r = Effects.Raise DocumentExamples.connection_reset)
    by (vm_compute in Hrun; injection Hrun as <- _; reflexivity).
  assert (Hv1 : VectorSearch.records v1 !! Py.lit "doc#0" = None)
    by (vm_compute in Hrun; injection Hrun as _ <-; vm_compute; reflexivity).
  subst r. exists v1. split; [|split; [vm_compute; discriminate|exact Hv1]].
  rewrite (delete_document_vector_failure DocumentExamples.never_fails
             DocumentExamples.long_notes DocumentExamples.one_page
             (DocumentExamples.second_fails DocumentExamples.connection_reset)
             (Py.lit "doc") DocumentExamples.indexed DocumentExamples.no_calls
             (Some 501) (Some (Py.lit "notes.txt"))
             DocumentExamples.connection_reset v1
             (fun _ => eq_refl) eq_refl eq_refl Hrun).
  reflexivity.
Defined.

(** The listing is refused: the vectors are gone, the objects stay. *)
Lemma delete_document_cleanup_failure_witness :
  let run :=
    DocumentManager.delete_document
      (DocumentExamples.second_fails DocumentExamples.access_denied)
      DocumentExamples.notes DocumentExamples.one_page Examples.no_fault
      (Py.lit "doc") (DocumentExamples.indexed, DocumentExamples.no_calls) in
  run.1
  = Effects.Ok
      (DocumentSpec.partially_deleted (Py.lit "notes.txt") (Py.lit "doc") 3
         [Py.lit "S3 deletion: Access Denied"]) /\
  DocumentManager.object_calls run.2.2
  = [DocumentManager.GetObject (Py.lit "documents/doc/metadata.json");
     DocumentManager.ListObjectsV2 (Py.lit "documents/doc/")].
Proof.
  intros run. unfold run.
  rewrite (delete_document_cleanup_failure
             (DocumentExamples.second_fails DocumentExamples.access_denied)
             DocumentExamples.notes DocumentExamples.one_page Examples.no_fault
             (Py.lit "doc") DocumentExamples.indexed DocumentExamples.no_calls
             (Some 3) (Some (Py.lit "notes.txt"))
             (Py.lit "AccessDenied") (Py.lit "Access Denied")
             eq_refl eq_refl (fun _ => eq_refl) eq_refl).
  split; reflexivity.
Defined.

(** ** [upload_document] *)

Section UploadDocument.
Import Py Effects Partial TextProcessing ChunkSpec ChunkCover.
Import EmbeddingsClient EmbedSpec VectorSearch IndexSpec Extraction.
Import DocumentManager DocumentSpec.

Variable s3_client_fault : nat -> option exn.
Variable s3_object : nat -> bytes * option str.
Variable str_lower : str -> str.
Variable pdf_pages : bytes -> outcome (list (option str)).
Variable docx_paragraphs : bytes -> outcome (list str).
Variable decode_utf8 : bytes -> outcome str.
Variable bedrock : nat -> str -> result embedding.
Variable uniform : nat -> Q.
Variable s3_fault : nat -> option exn.
Variable now : str.
Variable embedding_model_id : str.
Variable vector_dimensions : Z.

(** A text that [extract_text] returns is trimmed and not empty. *)
Lemma extract_text_trimmed (file_content : bytes) (filename : str)
    (content_type : option str) (text : str) :
  extract_text str_lower pdf_pages docx_paragraphs decode_utf8
    file_content filename content_type = Returns text ->
  text <> [] /\ strip text = text.
Proof.
  unfold extract_text.
  destruct (detect_file_type str_lower filename content_type);
    [|discriminate].
  destruct (dict_get _ _) as [extractor|]; [|discriminate].
  destruct (extractor file_content) as [raw|]; [|discriminate].
  destruct (strip raw) as [|c rest] eqn:Hstrip; [discriminate|].
  intros [= <-]. split; [discriminate|].
  rewrite <- Hstrip. apply strip_strip.
Qed.

(** Of a trimmed text that is not empty, there is at least one chunk. *)
Lemma chunk_text_nonempty (txt : str) (chunk_size chunk_overlap : Z) :
  1 <= chunk_size -> 0 <= chunk_overlap ->
  txt <> [] -> strip txt = txt ->
  exists c rest,
    TextProcessing.chunk_text txt chunk_size chunk_overlap = Some (c :: rest).
Proof.
  intros Hsize Hoverlap Hne Hfix.
  destruct (Z.leb_spec (len txt) chunk_size) as [Hshort|Hlong].
  - rewrite chunk_text_short by assumption. eauto.
  - rewrite chunk_text_long by lia.
    destruct (while_loop_enough_fuel txt chunk_size chunk_overlap Hsize
                (length txt) (mkLoop [] 0 0)) as [result Hrun].
    { cbn [start]. unfold len. lia. }
    rewrite Hrun.
    assert (Hcov : covered result 0).
    { destruct txt as [|c0 txt'] eqn:Etxt; [contradiction|].
      rewrite <- Etxt in *.
      apply (while_loop_covers txt chunk_size chunk_overlap Hsize Hoverlap
               (length txt) (mkLoop [] 0 0) result 0); cbn [start];
        try lia; try assumption.
      - intros q Hq (? & ? & _). lia.
      - exists c0. split; [lia|]. split; [rewrite Etxt; reflexivity|].
        eapply strip_fixed_head; [exact Hfix|exact Etxt]. }
    destruct Hcov as (c & Hin & _).
    destruct result as [|c1 rest]; [inversion Hin|eauto].
Qed.

(** A batch that returns holds no [None]. *)
Lemma generate_embeddings_batch_defined (texts : list str) (w : world) vs w' :
  generate_embeddings_batch bedrock uniform texts w = (Ok vs, w') ->
  exists es, mapM id vs = Some es /\ vs = map Some es /\
             length es = length texts.
Proof.
  unfold generate_embeddings_batch, enumerate. intros Hrun.
  apply batch_loop_ok in Hrun as (es & new & -> & Hlen & _ & _).
  exists es. split; [|split; [reflexivity|exact Hlen]].
  cbn [app]. apply mapM_fmap_Some. reflexivity.
Qed.

Lemma prefix_differs {A} (p q x y : list A) (i : nat) (a b : A) :
  p !! i = Some a -> q !! i = Some b -> a <> b -> p ++ x <> q ++ y.
Proof.
  intros Hp Hq Hab Heq.
  assert (Hi : (p ++ x) !! i = (q ++ y) !! i) by (rewrite Heq; reflexivity).
  rewrite (lookup_app_l p) in Hi by (eapply lookup_lt_Some; exact Hp).
  rewrite (lookup_app_l q) in Hi by (eapply lookup_lt_Some; exact Hq).
  rewrite Hp, Hq in Hi. injection Hi as Hi. exact (Hab Hi).
Qed.

Ltac differs_at i :=
  eapply (prefix_differs _ _ _ _ i); [reflexivity|reflexivity|discriminate].

Ltac other_text :=
  let Heq := fresh "Heq" in
  intros [= Heq]; revert Heq; unfold no_chunks_error;
  first [differs_at 0%nat | differs_at 5%nat | differs_at 7%nat].

(** X21.  [upload_document] always comes to an outcome: the chunking loop
    ends and every chunk gets an embedding that is not [None].  The
    outcome is never the text about an empty chunk list: a text that
    [extract_text] returns always has a chunk. *)
Theorem upload_document_outcome (document_id filename : str) (w : services) :
  exists r w',
    upload_document s3_client_fault s3_object str_lower pdf_pages
      docx_paragraphs decode_utf8 bedrock uniform s3_fault now
      embedding_model_id vector_dimensions document_id filename w
    = Some (r, w') /\
    r <> Ok (no_chunks_error filename).
Proof.
  unfold upload_document, pbind, lift, defined, try_except.
  unfold bind, ret, raise, on_s3, on_bedrock, on_s3vectors, get_object, put_object,
    s3_client_request.
  unfold ret.
  cbn [s3_client bedrock_runtime s3_vectors object_calls fst snd].
  set (n := length (object_calls (s3_client w))).
  destruct (s3_client_fault n) as [[code d|d]|] eqn:Hget; cbv beta iota.
  1: { eexists _, _. split; [reflexivity|]. destruct (bool_decide _); other_text. }
  1: { eexists _, _. split; [reflexivity|]. discriminate. }
  destruct (s3_object n) as [fc ct]. cbn [fst snd]. cbv beta iota.
  destruct (MAX_FILE_SIZE <? len fc).
  1: { eexists _, _. split; [reflexivity|]. other_text. }
  destruct (extract_text _ _ _ _ _ _ _) as [text|[m|d]] eqn:Hext.
  2: { eexists _, _. split; [reflexivity|]. other_text. }
  2: { eexists _, _. split; [reflexivity|]. discriminate. }
  destruct (extract_text_trimmed _ _ _ _ Hext) as [Hne Hfix].
  destruct (chunk_text_nonempty text settings_chunk_size settings_chunk_overlap
              ltac:(unfold settings_chunk_size; lia)
              ltac:(unfold settings_chunk_overlap; lia) Hne Hfix)
    as (c & rest & ->).
  cbv beta iota. cbn [s3_client bedrock_runtime s3_vectors object_calls].
  destruct (generate_embeddings_batch bedrock uniform _ _) as [[vs|e] b1] eqn:Hbatch;
    cbv beta iota.
  2: { eexists _, _. split; [reflexivity|]. other_text. }
  destruct (generate_embeddings_batch_defined _ _ _ _ Hbatch) as (es & -> & _ & _).
  cbv beta iota. cbn [s3_client bedrock_runtime s3_vectors object_calls].
  destruct (store_document_vectors _ _ _ _ _ _) as [[stored|e] v1]; cbv beta iota.
  2: { eexists _, _. split; [reflexivity|]. other_text. }
  cbn [s3_client bedrock_runtime s3_vectors object_calls].
  destruct (s3_client_fault (length (_ ++ [GetObject _]))) as [[code d|d]|];
    cbv beta iota; cbn [s3_client bedrock_runtime s3_vectors object_calls].
  2: { eexists _, _. split; [reflexivity|]. discriminate. }
  - destruct (s3_client_fault (length (_ ++ [PutObject _ _]))) as [[code' d'|d']|];
      cbv beta iota.
    + eexists _, _. split; [reflexivity|]. other_text.
    + eexists _, _. split; [reflexivity|]. discriminate.
    + eexists _, _. split; [reflexivity|]. other_text.
  - destruct (s3_client_fault (length (_ ++ [PutObject _ _]))) as [[code' d'|d']|];
      cbv beta iota.
    + eexists _, _. split; [reflexivity|]. other_text.
    + eexists _, _. split; [reflexivity|]. discriminate.
    + eexists _, _. split; [reflexivity|]. other_text.
Qed.

Ltac upload_unfold :=
  unfold upload_document, pbind, lift, defined, try_except;
  unfold bind, ret, raise, on_s3, on_bedrock, on_s3vectors, get_object,
    put_object, s3_client_request;
  unfold ret;
  cbn [s3_client bedrock_runtime s3_vectors object_calls fst snd].

(** X22.  When the S3 client, Bedrock and S3 Vectors answer every call,
    the file is not larger than 10 MB and its text can be extracted,
    [upload_document] reports success with as many vectors stored as
    chunks created.  It has embedded every chunk, has written one record a
    chunk into the index, under the keys [document_id#0], ...,
    [document_id#(n-1)] for the [n] chunks, and has saved the chunk texts
    and then the metadata, whose chunk count is [n]: the count from which
    [delete_document] derives the keys to delete. *)
Theorem upload_document_indexes (document_id filename : str) (w : services)
    (file_content : bytes) (content_type : option str) (text : str) :
  let n := length (object_calls (s3_client w)) in
  (forall k, s3_client_fault k = None) ->
  s3_object n = (file_content, content_type) ->
  len file_content <= MAX_FILE_SIZE ->
  extract_text str_lower pdf_pages docx_paragraphs decode_utf8
    file_content filename (Some (default [] content_type)) = Returns text ->
  (forall k t, exists v, bedrock k t = Ok v) ->
  (forall k, s3_fault k = None) ->
  exists chunks es b',
    TextProcessing.chunk_text text settings_chunk_size settings_chunk_overlap
    = Some chunks /\
    chunks <> [] /\
    length es = length chunks /\
    let chunk_texts := map TextProcessing.text chunks in
    let vectors :=
      map (build_vector document_id filename)
          (enumerate (zip chunk_texts es)) in
    upload_document s3_client_fault s3_object str_lower pdf_pages
      docx_paragraphs decode_utf8 bedrock uniform s3_fault now
      embedding_model_id vector_dimensions document_id filename w
    = Some
        (Ok (processed_successfully filename document_id (len text)
               (len chunks) (len chunks) embedding_model_id),
         mkServices
           (mkS3Client
              (object_calls (s3_client w) ++
               [GetObject (_s3_document_key document_id filename);
                PutObject (chunks_key document_id)
                  (ChunksData (enumerate chunk_texts));
                PutObject (_s3_metadata_key document_id)
                  (MetadataJson
                     (mkUploadMetadata document_id filename now
                        (len file_content) (default [] content_type)
                        (len text) (len chunks) embedding_model_id
                        vector_dimensions))]))
           b'
           (mkS3 (put_all (records (s3_vectors w)) vectors)
                 (calls (s3_vectors w) ++ map PutVectors (batches_of vectors)))) /\
    map key vectors = document_keys document_id (length chunks).
Proof.
  intros n Hclient Hobject Hsize Hext Hanswers Hvectors.
  destruct (extract_text_trimmed _ _ _ _ Hext) as [Hne Hfix].
  destruct (chunk_text_nonempty text settings_chunk_size settings_chunk_overlap
              ltac:(unfold settings_chunk_size; lia)
              ltac:(unfold settings_chunk_overlap; lia) Hne Hfix)
    as (c & rest & Hchunks).
  set (chunks := c :: rest) in *.
  destruct (batch_loop_returns bedrock uniform Hanswers
              (enumerate (map TextProcessing.text chunks)) []
              (bedrock_runtime w)) as (vs & b1 & Hbatch).
  fold (generate_embeddings_batch bedrock uniform
          (map TextProcessing.text chunks)) in Hbatch.
  destruct (generate_embeddings_batch_defined _ _ _ _ Hbatch)
    as (es & Hseq & -> & Hlen).
  rewrite length_map in Hlen.
  destruct (store_document_vectors_returns s3_fault document_id filename
              (map TextProcessing.text chunks) es (s3_vectors w) Hvectors)
    as (stored & v1 & Hstore).
  destruct (store_document_vectors_run s3_fault _ _ _ _ _ _ _ Hstore)
    as (Hstored & Hrecords & Hcalls).
  assert (Hkeys :
    map key (map (build_vector document_id filename)
               (enumerate (zip (map TextProcessing.text chunks) es)))
    = document_keys document_id (length chunks)).
  { rewrite build_vector_keys, length_map, Hlen, Nat.min_id. reflexivity. }
  exists chunks, es, b1.
  split; [exact Hchunks|]. split; [discriminate|]. split; [exact Hlen|].
  cbv zeta. split; [|exact Hkeys].
  upload_unfold. fold n. rewrite Hclient, Hobject. cbn [fst snd]. cbv beta iota.
  destruct (Z.ltb_spec MAX_FILE_SIZE (len file_content)) as [Hbig|_]; [lia|].
  rewrite Hext, Hchunks. cbv beta iota. unfold chunks at 1. cbv beta iota.
  fold chunks.
  cbn [s3_client bedrock_runtime s3_vectors object_calls].
  rewrite Hbatch. cbv beta iota. rewrite Hseq. cbv beta iota.
  cbn [s3_client bedrock_runtime s3_vectors object_calls].
  rewrite Hstore. cbv beta iota.
  cbn [s3_client bedrock_runtime s3_vectors object_calls].
  rewrite !Hclient. cbv beta iota.
  cbn [s3_client bedrock_runtime s3_vectors object_calls].
  assert (Hcount : stored = len chunks).
  { rewrite Hstored. unfold len. f_equal.
    rewrite <- (length_map key), Hkeys, length_document_keys. reflexivity. }
  rewrite Hcount. unfold processed_successfully, chunks_key.
  rewrite <- !app_assoc. cbn [app].
  destruct v1 as [m cs]. cbn [records calls] in Hrecords, Hcalls.
  rewrite Hrecords, Hcalls. reflexivity.
Qed.

Lemma mapM_id_Some {A} (l : list A) : mapM id (map Some l) = Some l.
Proof. apply mapM_fmap_Some. reflexivity. Qed.

(** The steps of [upload_document] up to the chunks. *)
Ltac upload_to_chunks n Hget Hobject Hsize Hext Hchunks :=
  upload_unfold; fold n; rewrite Hget, Hobject; cbn [fst snd]; cbv beta iota;
  match goal with
  | |- context [MAX_FILE_SIZE <? ?l] =>
      destruct (Z.ltb_spec MAX_FILE_SIZE l) as [?|_]; [lia|]
  end;
  rewrite Hext, Hchunks; cbv beta iota;
  cbn [s3_client bedrock_runtime s3_vectors object_calls].

(** X23.  When the embedding of the chunks raises, whatever the exception,
    [upload_document] returns the text about the embeddings with the text
    of the exception: nothing is written to the index, and neither the
    chunk texts nor the metadata are saved. *)
Theorem upload_document_embedding_failure (document_id filename : str)
    (w : services) (file_content : bytes) (content_type : option str)
    (text : str) (chunks : list TextChunk) (e : exn) (b1 : world) :
  let n := length (object_calls (s3_client w)) in
  s3_client_fault n = None ->
  s3_object n = (file_content, content_type) ->
  len file_content <= MAX_FILE_SIZE ->
  extract_text str_lower pdf_pages docx_paragraphs decode_utf8
    file_content filename (Some (default [] content_type)) = Returns text ->
  TextProcessing.chunk_text text settings_chunk_size settings_chunk_overlap
  = Some chunks ->
  generate_embeddings_batch bedrock uniform (map TextProcessing.text chunks)
    (bedrock_runtime w) = (Raise e, b1) ->
  upload_document s3_client_fault s3_object str_lower pdf_pages
    docx_paragraphs decode_utf8 bedrock uniform s3_fault now
    embedding_model_id vector_dimensions document_id filename w
  = Some
      (Ok (lit "Error generating embeddings for '" ++ filename ++ lit "': " ++
           str_of_exn e),
       mkServices
         (mkS3Client
            (object_calls (s3_client w) ++
             [GetObject (_s3_document_key document_id filename)]))
         b1 (s3_vectors w)).
Proof.
  intros n Hget Hobject Hsize Hext Hchunks Hbatch.
  destruct (extract_text_trimmed _ _ _ _ Hext) as [Hne Hfix].
  destruct (chunk_text_nonempty text settings_chunk_size settings_chunk_overlap
              ltac:(unfold settings_chunk_size; lia)
              ltac:(unfold settings_chunk_overlap; lia) Hne Hfix)
    as (c & rest & Hsome).
  assert (chunks = c :: rest) by congruence. subst chunks.
  upload_to_chunks n Hget Hobject Hsize Hext Hchunks.
  rewrite Hbatch. reflexivity.
Qed.

(** X24.  When the chunks are embedded and the storing of the vectors
    raises, whatever the exception, [upload_document] returns the text
    about the storing with the text of the exception, and saves neither
    the chunk texts nor the metadata; the index is as the failed
    [store_document_vectors] has left it. *)
Theorem upload_document_store_failure (document_id filename : str)
    (w : services) (file_content : bytes) (content_type : option str)
    (text : str) (chunks : list TextChunk) (es : list embedding) (b1 : world)
    (e : exn) (v1 : s3vectors) :
  let n := length (object_calls (s3_client w)) in
  s3_client_fault n = None ->
  s3_object n = (file_content, content_type) ->
  len file_content <= MAX_FILE_SIZE ->
  extract_text str_lower pdf_pages docx_paragraphs decode_utf8
    file_content filename (Some (default [] content_type)) = Returns text ->
  TextProcessing.chunk_text text settings_chunk_size settings_chunk_overlap
  = Some chunks ->
  generate_embeddings_batch bedrock uniform (map TextProcessing.text chunks)
    (bedrock_runtime w) = (Ok (map Some es), b1) ->
  store_document_vectors s3_fault document_id filename
    (map TextProcessing.text chunks) es (s3_vectors w) = (Raise e, v1) ->
  upload_document s3_client_fault s3_object str_lower pdf_pages
    docx_paragraphs decode_utf8 bedrock uniform s3_fault now
    embedding_model_id vector_dimensions document_id filename w
  = Some
      (Ok (lit "Error storing vectors for '" ++ filename ++ lit "': " ++
           str_of_exn e),
       mkServices
         (mkS3Client
            (object_calls (s3_client w) ++
             [GetObject (_s3_document_key document_id filename)]))
         b1 v1).
Proof.
  intros n Hget Hobject Hsize Hext Hchunks Hbatch Hstore.
  destruct (extract_text_trimmed _ _ _ _ Hext) as [Hne Hfix].
  destruct (chunk_text_nonempty text settings_chunk_size settings_chunk_overlap
              ltac:(unfold settings_chunk_size; lia)
              ltac:(unfold settings_chunk_overlap; lia) Hne Hfix)
    as (c & rest & Hsome).
  assert (chunks = c :: rest) by congruence. subst chunks.
  upload_to_chunks n Hget Hobject Hsize Hext Hchunks.
  rewrite Hbatch. cbv beta iota.
  rewrite mapM_id_Some. cbv beta iota.
  cbn [s3_client bedrock_runtime s3_vectors object_calls].
  rewrite Hstore. reflexivity.
Qed.


End UploadDocument.

(** A text file of one chunk is indexed. *)
Lemma upload_document_indexes_witness :
  exists w',
    DocumentExamples.upload_notes DocumentExamples.never_fails
      Examples.always_answers Examples.no_fault
    = Some
        (Effects.Ok
           (DocumentSpec.processed_successfully (Py.lit "notes.txt")
              (Py.lit "doc") 8 1 1 DocumentExamples.titan), w').
Proof.
  destruct (upload_document_indexes DocumentExamples.never_fails
              DocumentExamples.plain Extraction.ascii_lower
              DocumentExamples.unused DocumentExamples.unused
              DocumentExamples.greeting Examples.always_answers
              Examples.quarter Examples.no_fault
              (Py.lit "2024-05-01T12:00:00+00:00") DocumentExamples.titan 1024
              (Py.lit "doc") (Py.lit "notes.txt") DocumentExamples.idle
              [Byte.x68; Byte.x69] (Some (Py.lit "text/plain"))
              (Py.lit "hi there")
              (fun _ => eq_refl) eq_refl ltac:(vm_compute; discriminate)
              ltac:(vm_compute; reflexivity)
              (fun k t => ex_intro _ _ eq_refl) (fun _ => eq_refl))
    as (chunks & es & b' & Hchunks & _ & _ & Hrun & _).
  vm_compute in Hchunks. injection Hchunks as <-.
  unfold DocumentExamples.upload_notes. rewrite Hrun.
  eexists. reflexivity.
Defined.

(** Bedrock answers no call: nothing is stored. *)
Lemma upload_document_embedding_failure_witness :
  exists b1,
    DocumentExamples.upload_notes DocumentExamples.never_fails
      DocumentExamples.timed_out Examples.no_fault
    = Some
        (Effects.Ok
           (Py.lit "Error generating embeddings for 'notes.txt': timed out"),
         DocumentManager.mkServices
           (DocumentManager.mkS3Client
              [DocumentManager.GetObject (Py.lit "documents/doc/original.txt")])
           b1 Examples.empty_index).
Proof.
  destruct (EmbeddingsClient.generate_embeddings_batch
              DocumentExamples.timed_out Examples.quarter
              [Py.lit "hi there"] Examples.fresh) as [r b1] eqn:Hbatch.
  assert (Hr : r = Effects.Raise (Effects.OtherError (Py.lit "timed out")))
    by (vm_compute in Hbatch; injection Hbatch as <- _; reflexivity).
  subst r. exists b1. unfold DocumentExamples.upload_notes.
  rewrite (upload_document_embedding_failure DocumentExamples.never_fails
             DocumentExamples.plain Extraction.ascii_lower
             DocumentExamples.unused DocumentExamples.unused
             DocumentExamples.greeting DocumentExamples.timed_out
             Examples.quarter Examples.no_fault
             (Py.lit "2024-05-01T12:00:00+00:00") DocumentExamples.titan 1024
             (Py.lit "doc") (Py.lit "notes.txt") DocumentExamples.idle
             [Byte.x68; Byte.x69] (Some (Py.lit "text/plain"))
             (Py.lit "hi there")
             [TextProcessing.mkTextChunk (Py.lit "hi there") 0 0 8]
             (Effects.OtherError (Py.lit "timed out")) b1
             eq_refl eq_refl ltac:(vm_compute; discriminate)
             ltac:(vm_compute; reflexivity) ltac:(vm_compute; reflexivity)
             Hbatch).
  reflexivity.
Defined.

(** S3 Vectors refuses the records: no file is saved. *)
Lemma upload_document_store_failure_witness :
  exists b1 v1,
    DocumentExamples.upload_notes DocumentExamples.never_fails
      Examples.always_answers
      (DocumentExamples.first_fails DocumentExamples.connection_reset)
    = Some
        (Effects.Ok
           (Py.lit "Error storing vectors for 'notes.txt': connection reset"),
         DocumentManager.mkServices
           (DocumentManager.mkS3Client
              [DocumentManager.GetObject (Py.lit "documents/doc/original.txt")])
           b1 v1).
Proof.
  destruct (EmbeddingsClient.generate_embeddings_batch
              Examples.always_answers Examples.quarter
              [Py.lit "hi there"] Examples.fresh) as [r b1] eqn:Hbatch.
  assert (Hr : r = Effects.Ok (map Some [[inject_Z 8]]))
    by (vm_compute in Hbatch; injection Hbatch as <- _; reflexivity).
  subst r.
  destruct (VectorSearch.store_document_vectors
              (DocumentExamples.first_fails DocumentExamples.connection_reset)
              (Py.lit "doc") (Py.lit "notes.txt") [Py.lit "hi there"]
              [[inject_Z 8]] Examples.empty_index) as [r v1] eqn:Hstore.
  assert (Hr : r = Effects.Raise DocumentExamples.connection_reset)
    by (vm_compute in Hstore; injection Hstore as <- _; reflexivity).
  subst r. exists b1, v1. unfold DocumentExamples.upload_notes.
  rewrite (upload_document_store_failure DocumentExamples.never_fails
             DocumentExamples.plain Extraction.ascii_lower
             DocumentExamples.unused DocumentExamples.unused
             DocumentExamples.greeting Examples.always_answers
             Examples.quarter
             (DocumentExamples.first_fails DocumentExamples.connection_reset)
             (Py.lit "2024-05-01T12:00:00+00:00") DocumentExamples.titan 1024
             (Py.lit "doc") (Py.lit "notes.txt") DocumentExamples.idle
             [Byte.x68; Byte.x69] (Some (Py.lit "text/plain"))
             (Py.lit "hi there")
             [TextProcessing.mkTextChunk (Py.lit "hi there") 0 0 8]
             [[inject_Z 8]] b1 DocumentExamples.connection_reset v1
             eq_refl eq_refl ltac:(vm_compute; discriminate)
             ltac:(vm_compute; reflexivity) ltac:(vm_compute; reflexivity)
             Hbatch Hstore).
  reflexivity.
Defined.

